(** * GitHub file-operations server: [commit_files] and [delete_files]

    A shallow embedding of the two tool handlers of the file-operations
    MCP server (the "atomic multi-file mutation engine" of the
    specification) and the properties the specification states about
    them.

    Conventions of the embedding.
    - JavaScript strings are [string]; one character stands for one code
      unit, so [length], [startsWith] and [slice] count as in the source.
    - A value read out of a parsed response is a [JsVal]: [None] is
      [undefined], [Some j] a JSON value.  Property access, template
      literals and [JSON.stringify] treat such values as JavaScript
      does; a response body need not have the shape its TypeScript type
      announces.
    - A handler is a computation over a [World]: the remote object store
      and the trace of effects (network requests and local file reads)
      performed so far.  A thrown exception or rejected promise is the
      [Throw] result; it keeps the world reached so far.
    - The local reads of [commit_files] are started together and
      awaited with [Promise.all], which is rejected with the failure of
      the read that fails first; the moment at which the read of a file
      settles is an input of the handler ([settled]).
    - The object store, the local file system and the process
      environment are inputs of the handlers.  Nothing is assumed about
      what the store answers, except where a statement is about the
      branch itself: there the store is one whose branch stays where it
      is under a [GET] and under a [POST] to the trees or the commits of
      the repository, and moves when the store accepts a [PATCH] of the
      reference of the branch.
    - What a statement says of a request, it says of the request as it
      reaches the store: its method, address, headers and body. *)

From Stdlib Require Import String Ascii List Bool Arith ZArith Lia.
From Stdlib Require Import QArith Qround Qminmax.
From Stdlib Require Import Decimal DecimalString.
Import ListNotations.
Close Scope Q_scope.
Open Scope list_scope.
Open Scope string_scope.

Set Implicit Arguments.

(** ** JavaScript string primitives used by the handlers *)

Module Js.

(** [s.startsWith(p)] *)
Definition startsWith (s p : string) : bool := String.prefix p s.

(** [s.slice(n)] for [n >= 0]: the string without its first [n]
    characters, empty when [n] exceeds the length. *)
Fixpoint slice (s : string) (n : nat) : string :=
  match n, s with
  | 0, _ => s
  | S _, EmptyString => EmptyString
  | S k, String _ t => slice t k
  end.

(** The decimal rendering of a non-negative integer, as a template
    literal renders [response.status]. *)
Definition ofNat (n : nat) : string := NilEmpty.string_of_uint (Nat.to_uint n).

(** [hay.includes(needle)] *)
Definition includes (hay needle : string) : bool :=
  match String.index 0 needle hay with
  | Some _ => true
  | None => false
  end.

End Js.

(** ** [path.join] of Node (POSIX flavour)

    [join] is a library function of the platform; it is modelled after
    Node's implementation: the non-empty arguments are glued with ["/"]
    and the result is normalised segment by segment. *)

Module Path.

Definition sep : ascii := "/"%char.

(** The segments between separators, in order; [acc] holds the
    characters of the current segment, last character first. *)
Fixpoint split_aux (s : string) (acc : list ascii) : list string :=
  match s with
  | EmptyString => [string_of_list_ascii (List.rev acc)]
  | String c t =>
      if Ascii.eqb c sep
      then string_of_list_ascii (List.rev acc) :: split_aux t []
      else split_aux t (c :: acc)
  end.

Definition split (s : string) : list string := split_aux s [].

(** [normalizeString]: the stack holds the kept segments, last one
    first.  Empty segments and ["."] are dropped; [".."] removes the
    last kept segment unless there is none or it is itself [".."], in
    which case it is kept only when the path may climb above its
    start. *)
Fixpoint normalizeSegments (allowAboveRoot : bool) (segs stack : list string)
  : list string :=
  match segs with
  | [] => List.rev stack
  | seg :: rest =>
      if String.eqb seg "" || String.eqb seg "." then
        normalizeSegments allowAboveRoot rest stack
      else if String.eqb seg ".." then
        match stack with
        | top :: below =>
            if String.eqb top ".."
            then normalizeSegments allowAboveRoot rest
                   (if allowAboveRoot then ".." :: stack else stack)
            else normalizeSegments allowAboveRoot rest below
        | [] =>
            normalizeSegments allowAboveRoot rest
              (if allowAboveRoot then [".."] else [])
        end
      else normalizeSegments allowAboveRoot rest (seg :: stack)
  end.

Definition lastChar (s : string) : option ascii :=
  String.get (String.length s - 1) s.

Definition isSep (o : option ascii) : bool :=
  match o with
  | Some c => Ascii.eqb c sep
  | None => false
  end.

Definition normalize (path : string) : string :=
  if String.eqb path "" then "." else
  let isAbsolute := isSep (String.get 0 path) in
  let trailingSeparator := isSep (lastChar path) in
  let res := String.concat "/" (normalizeSegments (negb isAbsolute) (split path) []) in
  if String.eqb res "" then
    if isAbsolute then "/" else if trailingSeparator then "./" else "."
  else
    let res := if trailingSeparator then res ++ "/" else res in
    if isAbsolute then "/" ++ res else res.

(** [join(a, b)] *)
Definition join (a b : string) : string :=
  match String.eqb a "", String.eqb b "" with
  | true, true => "."
  | true, false => normalize b
  | false, true => normalize a
  | false, false => normalize (a ++ "/" ++ b)
  end.

(** [inside root p]: the normalised absolute path [p] is [root] itself
    or lies below it. *)
Definition inside (root p : string) : bool :=
  String.eqb p root || Js.startsWith p (root ++ "/").

End Path.

(** ** JSON values and JavaScript values *)

#[warnings="-register-all"]
Inductive Json : Type :=
| JNull
| JBool (b : bool)
| JNum (rendering : string)   (* a number, carried by its decimal rendering *)
| JStr (s : string)
| JArr (items : list Json)
| JObj (fields : list (string * Json)).

(** [None] is [undefined]. *)
Definition JsVal : Type := option Json.

(** What a [catch] clause can receive: an [Error] object with its
    message, or any other thrown value, carried by its [String(...)]
    rendering. *)
Inductive Exn : Type :=
| JsError (message : string)
| JsThrown (rendering : string).

Inductive Result (A : Type) : Type :=
| Ok (a : A)
| Throw (e : Exn).
Arguments Ok {A} a.
Arguments Throw {A} e.

Module JsValue.

(** The value bound to [k] by an object literal of a parsed JSON text:
    a later binding of the same key overrides an earlier one. *)
Fixpoint lookup (k : string) (fields : list (string * Json)) : JsVal :=
  match fields with
  | [] => None
  | (k', v) :: rest =>
      match lookup k rest with
      | Some v' => Some v'
      | None => if String.eqb k k' then Some v else None
      end
  end.

Definition typeErrorOn (what k : string) : Exn :=
  JsError ("Cannot read properties of " ++ what ++ " (reading '" ++ k ++ "')").

(** [v.k] for the property names the handlers read ([object], [sha],
    [tree], [message], [author], [name], [date]): reading a property
    of [undefined] or [null] throws a [TypeError]; an object yields
    its binding or [undefined]; no other JSON value has such a
    property. *)
Definition getProp (v : JsVal) (k : string) : Result JsVal :=
  match v with
  | None => Throw (typeErrorOn "undefined" k)
  | Some JNull => Throw (typeErrorOn "null" k)
  | Some (JObj fields) => Ok (lookup k fields)
  | Some _ => Ok None
  end.

(** [String(v)], as a template literal renders [v]. *)
Fixpoint render (j : Json) : string :=
  match j with
  | JNull => "null"
  | JBool true => "true"
  | JBool false => "false"
  | JNum r => r
  | JStr s => s
  | JArr items =>
      String.concat ","
        (map (fun i => match i with JNull => "" | _ => render i end) items)
  | JObj _ => "[object Object]"
  end.

Definition toString (v : JsVal) : string :=
  match v with
  | None => "undefined"
  | Some j => render j
  end.

(** An object literal handed to [JSON.stringify]: a property whose
    value is [undefined] is left out. *)
Fixpoint defined (props : list (string * JsVal)) : list (string * Json) :=
  match props with
  | [] => []
  | (k, Some j) :: rest => (k, j) :: defined rest
  | (_, None) :: rest => defined rest
  end.

Definition object (props : list (string * JsVal)) : Json := JObj (defined props).

(** An array element handed to [JSON.stringify]: [undefined] becomes
    [null]. *)
Definition element (v : JsVal) : Json :=
  match v with
  | None => JNull
  | Some j => j
  end.

End JsValue.

(** ** Requests, responses, effects *)

Inductive Method : Type := GET | POST | PATCH.

(** The arguments of one [fetch] call.  [body] is the value handed to
    [JSON.stringify]; the serialisation itself is not modelled. *)
Record Request : Type := mkRequest {
  url : string;
  method : Method;
  headers : list (string * string);
  body : option Json
}.

(** What [fetch] resolves to: the status code and the outcome of the two
    ways of consuming the body, [text()] and [json()]. *)
Record Response : Type := mkResponse {
  status : nat;
  text : Result string;
  json : Result Json
}.

(** [response.ok]: the status is in the range 200-299. *)
Definition ok (r : Response) : bool :=
  Nat.leb 200 (status r) && Nat.ltb (status r) 300.

(** The effects a handler performs, in the order it performs them. *)
Inductive Event : Type :=
| Fetched (r : Request)
| ReadFile (path : string).

(** The process environment and the module-level constants derived from
    it.  [GITHUB_API_URL] is imported from the configuration module and
    is an input here.  The server exits at start-up unless the three
    repository variables are set, so they are plain strings. *)
Record Env : Type := mkEnv {
  GITHUB_API_URL : string;
  REPO_OWNER : string;
  REPO_NAME : string;
  BRANCH_NAME : string;
  env_REPO_DIR : option string;
  cwd : string;
  GITHUB_TOKEN : option string
}.

(** [process.env.REPO_DIR || process.cwd()] *)
Definition REPO_DIR (env : Env) : string :=
  match env_REPO_DIR env with
  | Some d => if String.eqb d "" then cwd env else d
  | None => cwd env
  end.

(** The text of a content item of a tool result: a literal string or
    [JSON.stringify(value, null, 2)]. *)
Inductive Text : Type :=
| Plain (s : string)
| JSON_stringify (value : Json).

(** [{ type: "text", text }] *)
Inductive ContentItem : Type :=
| TextContent (t : Text).

(** What a handler returns to the server; an absent property is [None]. *)
Record ToolResult : Type := mkToolResult {
  content : list ContentItem;
  error : option string;
  isError : option bool
}.

(** [error instanceof Error ? error.message : String(error)] *)
Definition errorMessage (e : Exn) : string :=
  match e with
  | JsError m => m
  | JsThrown r => r
  end.

Definition requests (tr : list Event) : list Request :=
  flat_map (fun e => match e with Fetched r => [r] | ReadFile _ => [] end) tr.

Definition reads (tr : list Event) : list string :=
  flat_map (fun e => match e with Fetched _ => [] | ReadFile p => [p] end) tr.

(** [Promise.all] over promises that have all been started, each given
    with the moment at which it settles.  When every promise is
    fulfilled the result is the list of their values, in list order.
    Otherwise [Promise.all] is rejected as soon as one promise is, so
    with the rejection that comes first in time; of two promises
    rejected at the same moment the earlier in the list is taken. *)
Fixpoint firstRejection {A : Type} (promises : list (nat * Result A))
  : option (nat * Exn) :=
  match promises with
  | [] => None
  | (_, Ok _) :: rest => firstRejection rest
  | (moment, Throw e) :: rest =>
      match firstRejection rest with
      | Some (moment', e') =>
          if Nat.ltb moment' moment then Some (moment', e') else Some (moment, e)
      | None => Some (moment, e)
      end
  end.

Fixpoint fulfilled {A : Type} (promises : list (nat * Result A)) : list A :=
  match promises with
  | [] => []
  | (_, Ok a) :: rest => a :: fulfilled rest
  | (_, Throw _) :: rest => fulfilled rest
  end.

Definition Promise_all {A : Type} (promises : list (nat * Result A)) : Result (list A) :=
  match firstRejection promises with
  | Some (_, e) => Throw e
  | None => Ok (fulfilled promises)
  end.

(** A call is a request together with the answer the store gave. *)
Abbreviation Call := (Request * Result Response)%type.

(** The store answered with a 2xx response. *)
Definition accepted (a : Result Response) : bool :=
  match a with
  | Ok resp => ok resp
  | Throw _ => false
  end.

Definition allAccepted (calls : list Call) : Prop :=
  Forall (fun c => accepted (snd c) = true) calls.

(** *** What a request says *)

Definition bodyProp (r : Request) (k : string) : JsVal :=
  match body r with
  | Some (JObj fields) => JsValue.lookup k fields
  | _ => None
  end.

(** A property of an object literal handed to [JSON.stringify]: it is
    left out when its value is [undefined]. *)
Definition property (k : string) (v : JsVal) : list (string * Json) :=
  match v with
  | Some j => [(k, j)]
  | None => []
  end.

(** The commit hash an update-ref request asks the branch to point at. *)
Definition requestedSha (r : Request) : JsVal := bodyProp r "sha".

(** The parents a create-commit request names. *)
Definition parentsOf (r : Request) : option (list Json) :=
  match bodyProp r "parents" with
  | Some (JArr ps) => Some ps
  | _ => None
  end.

(** The [path] of a tree entry. *)
Definition entryPath (entry : Json) : JsVal :=
  match entry with
  | JObj fields => JsValue.lookup "path" fields
  | _ => None
  end.

(** [needle] occurs somewhere in a JSON value: in a string, a number or
    a property name. *)
Fixpoint jsonMentions (needle : string) (j : Json) {struct j} : bool :=
  match j with
  | JNull | JBool _ => false
  | JNum s | JStr s => Js.includes s needle
  | JArr items => existsb (jsonMentions needle) items
  | JObj fields =>
      existsb (fun '(k, v) => Js.includes k needle || jsonMentions needle v) fields
  end.

(** [needle] occurs somewhere in a request: in its URL, in a header or
    in its body. *)
Definition mentions (r : Request) (needle : string) : bool :=
  Js.includes (url r) needle
  || existsb (fun '(k, v) => Js.includes k needle || Js.includes v needle) (headers r)
  || match body r with
     | Some j => jsonMentions needle j
     | None => false
     end.

(** ** [URLSearchParams]

    [params.toString()] is the [application/x-www-form-urlencoded]
    serialisation of the platform: names and values are encoded byte by
    byte from their UTF-8 form, pairs are joined with [&].  A character
    of the embedding is a code unit below 256; from 128 on its UTF-8
    form has two bytes. *)

Module URLSearchParams.

Definition hexDigit (n : nat) : ascii :=
  match String.get n "0123456789ABCDEF" with
  | Some c => c
  | None => "0"%char
  end.

Definition percent (byte : nat) : string :=
  String "%" (String (hexDigit (byte / 16)) (String (hexDigit (byte mod 16)) "")).

(** The bytes left as they are: [*], [-], [.], [_], digits and letters. *)
Definition unreserved (byte : nat) : bool :=
  Nat.eqb byte 42 || Nat.eqb byte 45 || Nat.eqb byte 46 || Nat.eqb byte 95
  || (Nat.leb 48 byte && Nat.leb byte 57)
  || (Nat.leb 65 byte && Nat.leb byte 90)
  || (Nat.leb 97 byte && Nat.leb byte 122).

Definition encodeByte (byte : nat) : string :=
  if Nat.eqb byte 32 then "+"
  else if unreserved byte then String (ascii_of_nat byte) ""
  else percent byte.

Definition utf8 (unit : nat) : list nat :=
  if Nat.ltb unit 128 then [unit] else [192 + unit / 64; 128 + unit mod 64].

Fixpoint encode (s : string) : string :=
  match s with
  | EmptyString => EmptyString
  | String c rest =>
      String.concat "" (map encodeByte (utf8 (nat_of_ascii c))) ++ encode rest
  end.

Definition toString (params : list (string * string)) : string :=
  String.concat "&" (map (fun '(k, v) => encode k ++ "=" ++ encode v) params).

End URLSearchParams.

(** [array.map(f)] on a value read out of a response: a value that is
    not an array has no [map] to call; on an array the callback runs
    element by element and the first throw ends the traversal. *)
Fixpoint mapElements (f : Json -> Result Json) (items : list Json) : Result (list Json) :=
  match items with
  | [] => Ok []
  | item :: rest =>
      match f item with
      | Throw e => Throw e
      | Ok j =>
          match mapElements f rest with
          | Ok js => Ok (j :: js)
          | Throw e => Throw e
          end
      end
  end.

Definition arrayMap (what : string) (v : JsVal) (f : Json -> Result Json) : Result JsVal :=
  match v with
  | None => Throw (JsValue.typeErrorOn "undefined" "map")
  | Some JNull => Throw (JsValue.typeErrorOn "null" "map")
  | Some (JArr items) =>
      match mapElements f items with
      | Ok js => Ok (Some (JArr js))
      | Throw e => Throw e
      end
  | Some _ => Throw (JsError (what ++ ".map is not a function"))
  end.

(** The world a handler runs in: the remote object store and the
    effects performed so far. *)
Record World (Store : Type) : Type := mkWorld {
  store : Store;
  trace : list Event
}.

(** ** A scripted remote

    A concrete object store for examples, holding the branch [main] of
    the repository [acme/site]: it answers the requests it receives
    with the answers of a script, in order, and its branch moves
    exactly when it accepts a [PATCH] of the reference of that branch,
    to the hash the request names.  Once the script is exhausted every
    [fetch] is rejected. *)

Record Remote : Type := mkRemote {
  branchTip : JsVal;
  script : list (Result Response)
}.

Definition isPatch (r : Request) : bool :=
  match method r with
  | PATCH => true
  | _ => false
  end.

Definition remoteBranch : string :=
  "https://api.github.com/repos/acme/site/git/refs/heads/main".

Definition movesBranch (r : Request) : bool :=
  isPatch r && String.eqb (url r) remoteBranch.

Definition serveRemote (r : Request) (s : Remote) : Result Response * Remote :=
  match script s with
  | [] => (Throw (JsError "fetch failed"), s)
  | a :: rest =>
      (a, {| branchTip := if movesBranch r && accepted a then requestedSha r
                          else branchTip s;
             script := rest |})
  end.

Definition respond (code : nat) (bodyText : string) (j : Json) : Result Response :=
  Ok {| status := code; text := Ok bodyText; json := Ok j |}.

(** The answers of the store on the happy path of the scenario of the
    specification: branch at commit [H0] with tree [T0], new tree [T1],
    new commit [H1]. *)
Definition happyScript (H0 T0 T1 H1 message author date : string)
  : list (Result Response) :=
  [ respond 200 "" (JObj [("object", JObj [("sha", JStr H0)])]);
    respond 200 "" (JObj [("tree", JObj [("sha", JStr T0)])]);
    respond 201 "" (JObj [("sha", JStr T1)]);
    respond 201 "" (JObj [ ("sha", JStr H1); ("message", JStr message);
                           ("author", JObj [("name", JStr author); ("date", JStr date)]) ]);
    respond 200 "" (JObj []) ].

Definition scenarioEnv : Env :=
  {| GITHUB_API_URL := "https://api.github.com";
     REPO_OWNER := "acme"; REPO_NAME := "site"; BRANCH_NAME := "main";
     env_REPO_DIR := Some "/work/repo"; cwd := "/work/repo";
     GITHUB_TOKEN := Some "secret" |}.

(** The requests of the scenario as they reach the store, field by
    field: a [GET] of [location], and a request of method [verb] that
    sends the JSON [payload] to [location]; both carry the token of the
    scenario. *)
Definition scenarioGet (location : string) : Request :=
  {| url := location;
     method := GET;
     headers := [ ("Accept", "application/vnd.github+json");
                  ("Authorization", "Bearer secret");
                  ("X-GitHub-Api-Version", "2022-11-28") ];
     body := None |}.

Definition scenarioSend (verb : Method) (location : string) (payload : Json) : Request :=
  {| url := location;
     method := verb;
     headers := [ ("Accept", "application/vnd.github+json");
                  ("Authorization", "Bearer secret");
                  ("X-GitHub-Api-Version", "2022-11-28");
                  ("Content-Type", "application/json") ];
     body := Some payload |}.

(** A tree entry that writes [content] at [path], as JSON. *)
Definition blobOf (path content : string) : Json :=
  JObj [ ("path", JStr path); ("mode", JStr "100644");
         ("type", JStr "blob"); ("content", JStr content) ].

(** The in-band error result with the message [message]. *)
Definition refusal (message : string) : ToolResult :=
  {| content := [TextContent (Plain ("Error: " ++ message))];
     error := Some message;
     isError := Some true |}.

(** The world at the start of the scenario: nothing done yet, branch
    at [H0], the store about to answer with [answers]. *)
Definition startWorld (H0 : string) (answers : list (Result Response)) : World Remote :=
  {| store := {| branchTip := Some (JStr H0); script := answers |}; trace := [] |}.

(** A local file system holding one file, outside the repository. *)
Definition hostFs (path : string) : Result string :=
  if String.eqb path "/etc/passwd" then Ok "root"
  else Throw (JsError ("ENOENT: no such file or directory, open '" ++ path ++ "'")).

(** Local reads that settle in the order in which they were started. *)
Definition inOrder (path : string) : nat := 0.

(** A local file system holding the two files of the scenario. *)
Definition scenarioFs (contentA contentC : string) (path : string) : Result string :=
  if String.eqb path "/work/repo/a.txt" then Ok contentA
  else if String.eqb path "/work/repo/b/c.txt" then Ok contentC
  else Throw (JsError ("ENOENT: no such file or directory, open '" ++ path ++ "'")).

(** ** The GitHub token ([token.ts])

    [retryWithBackoff], [getOidcToken], [exchangeForAppToken] and
    [setupGitHubToken].  The world is the host, which answers
    [core.getIDToken] and [fetch], and the log of what was done.  Of the
    console output only the line that opens each attempt is logged.

    The retry options are JavaScript numbers.  They are embedded as
    rationals, [attempt <= maxAttempts] and [attempt < maxAttempts]
    being the comparisons of the source, so a [maxAttempts] that is not
    an integer behaves as in the source.  The arithmetic on the delays
    is exact here and rounded to a double in the source: the two agree
    on safe integers ([safeInteger]), which is what [Exact] asks of the
    options; the defaults are such.  Infinite options and [NaN] are
    left out. *)

Module Token.

Inductive Event : Type :=
| Attempt (attempt : Z) (maxAttempts : Q)   (* console.log(`Attempt ... of ...`) *)
| Sleep (delayMs : Q)                       (* setTimeout(resolve, delayMs) *)
| GetIDToken (audience : string)
| Fetch (r : Request)
| SetOutput (name value : string)
| SetFailed (cause : Exn)             (* the message is built around `${error}` *)
| Exit (code : Z).

Record RetryOptions : Type := mkRetryOptions {
  maxAttempts : option Q;
  initialDelayMs : option Q;
  maxDelayMs : option Q;
  backoffFactor : option Q
}.

(** [options = {}] *)
Definition noOptions : RetryOptions :=
  {| maxAttempts := None; initialDelayMs := None; maxDelayMs := None;
     backoffFactor := None |}.

(** A destructuring default: it applies when the property is absent. *)
Definition orDefault (o : option Q) (d : Q) : Q :=
  match o with
  | Some v => v
  | None => d
  end.

(** [a < b] on numbers. *)
Definition less (a b : Q) : bool := negb (Qle_bool b a).

(** [error instanceof Error ? error : new Error(String(error))] *)
Definition asError (e : Exn) : Exn :=
  match e with
  | JsError m => JsError m
  | JsThrown r => JsError r
  end.

(** The truthiness of a value read out of a response. *)
Definition truthy (v : JsVal) : bool :=
  match v with
  | None | Some JNull => false
  | Some (JBool b) => b
  | Some (JNum r) => negb (String.eqb r "0")
  | Some (JStr s) => negb (String.eqb s "")
  | Some (JArr _) | Some (JObj _) => true
  end.

(** [v?.k]: [undefined] for [undefined] and [null], else [v.k]. *)
Definition optionalProp (v : JsVal) (k : string) : JsVal :=
  match v with
  | Some (JObj fields) => JsValue.lookup k fields
  | _ => None
  end.

(** [v ?? d] rendered in a template literal. *)
Definition renderOr (v : JsVal) (d : string) : string :=
  match v with
  | None | Some JNull => d
  | Some j => JsValue.render j
  end.

Definition exchangeRequest (oidcToken : string) : Request :=
  {| url := "https://api.anthropic.com/api/github/github-app-token-exchange";
     method := POST;
     headers := [("Authorization", "Bearer " ++ oidcToken)];
     body := None |}.

(** What [setupGitHubToken] ends with: it returns the token or the
    process exits. *)
Inductive Outcome : Type :=
| Returned (token : string)
| Exited (code : Z).

Section Host.

Variable Host : Type.
Variable getIDToken : string -> Host -> Result string * Host.
Variable fetch : Request -> Host -> Result Response * Host.

Record World : Type := mkWorld {
  host : Host;
  log : list Event
}.

Definition M (A : Type) : Type := World -> Result A * World.

Definition emit (e : Event) (w : World) : World :=
  {| host := host w; log := (log w ++ [e])%list |}.

(** The loop of [retryWithBackoff]; [remaining] counts the iterations
    left, [attempt <= maxAttempts] holding exactly while it is not
    zero. *)
Fixpoint retryLoop {T : Type} (operation : M T) (maxAttempts maxDelayMs backoffFactor : Q)
    (remaining : nat) (attempt : Z) (delayMs : Q) (lastError : Exn) (w : World)
  : Result T * World :=
  match remaining with
  | 0 => (Throw lastError, w)
  | S remaining' =>
      match operation (emit (Attempt attempt maxAttempts) w) with
      | (Ok v, w') => (Ok v, w')
      | (Throw error, w') =>
          if less (inject_Z attempt) maxAttempts
          then retryLoop operation maxAttempts maxDelayMs backoffFactor remaining'
                 (attempt + 1)%Z (Qmin (delayMs * backoffFactor) maxDelayMs)
                 (asError error) (emit (Sleep delayMs) w')
          else retryLoop operation maxAttempts maxDelayMs backoffFactor remaining'
                 (attempt + 1)%Z delayMs (asError error) w'
      end
  end.

Definition retryWithBackoff {T : Type} (operation : M T) (options : RetryOptions) : M T :=
  let maxAttempts := orDefault (maxAttempts options) 3 in
  let initialDelayMs := orDefault (initialDelayMs options) 5000 in
  let maxDelayMs := orDefault (maxDelayMs options) 20000 in
  let backoffFactor := orDefault (backoffFactor options) 2 in
  retryLoop operation maxAttempts maxDelayMs backoffFactor
    (Z.to_nat (Qfloor maxAttempts)) 1%Z initialDelayMs (JsThrown "undefined").

Definition getOidcToken : M string :=
  fun w =>
    let (answer, h) := getIDToken "claude-code-github-action" (host w) in
    let w' := {| host := h;
                 log := (log w ++ [GetIDToken "claude-code-github-action"])%list |} in
    match answer with
    | Ok oidcToken => (Ok oidcToken, w')
    | Throw _ =>
        (Throw (JsError "Could not fetch an OIDC token. Did you remember to add `id-token: write` to your workflow permissions?"),
         w')
    end.

(** What [exchangeForAppToken] makes of the response. *)
Definition readAppToken (response : Response) : Result string :=
  if negb (ok response) then
    match json response with
    | Throw e => Throw e
    | Ok responseJson =>
        Throw (JsError (renderOr (optionalProp (optionalProp (Some responseJson) "error")
                                    "message")
                          "Unknown error"))
    end
  else
    match json response with
    | Throw e => Throw e
    | Ok appTokenData =>
        match JsValue.getProp (Some appTokenData) "token" with
        | Throw e => Throw e
        | Ok token =>
            match (if truthy token then Ok token
                   else JsValue.getProp (Some appTokenData) "app_token") with
            | Throw e => Throw e
            | Ok appToken =>
                if negb (truthy appToken)
                then Throw (JsError "App token not found in response")
                else match appToken with
                     | Some (JStr s) => Ok s
                     | _ => Throw (JsError "appToken.substring is not a function")
                     end
            end
        end
    end.

Definition exchangeForAppToken (oidcToken : string) : M string :=
  fun w =>
    let (answer, h) := fetch (exchangeRequest oidcToken) (host w) in
    let w' := {| host := h;
                 log := (log w ++ [Fetch (exchangeRequest oidcToken)])%list |} in
    match answer with
    | Throw e => (Throw e, w')
    | Ok response => (readAppToken response, w')
    end.

(** The [catch] clause of [setupGitHubToken]: [core.setFailed] and
    [process.exit(1)]. *)
Definition giveUp (error : Exn) (w : World) : Outcome * World :=
  (Exited 1, emit (Exit 1) (emit (SetFailed error) w)).

(** The path of [setupGitHubToken] without a provided token. *)
Definition requestAppToken (w : World) : Outcome * World :=
  match retryWithBackoff getOidcToken noOptions w with
  | (Throw error, w1) => giveUp error w1
  | (Ok oidcToken, w1) =>
      match retryWithBackoff (exchangeForAppToken oidcToken) noOptions w1 with
      | (Throw error, w2) => giveUp error w2
      | (Ok appToken, w2) =>
          (Returned appToken, emit (SetOutput "GITHUB_TOKEN" appToken) w2)
      end
  end.

(** [setupGitHubToken], given [process.env.OVERRIDE_GITHUB_TOKEN]. *)
Definition setupGitHubToken (OVERRIDE_GITHUB_TOKEN : option string) (w : World)
  : Outcome * World :=
  match OVERRIDE_GITHUB_TOKEN with
  | Some providedToken =>
      if String.eqb providedToken ""
      then requestAppToken w
      else (Returned providedToken, emit (SetOutput "GITHUB_TOKEN" providedToken) w)
  | None => requestAppToken w
  end.

End Host.

(** A scripted host: it answers [core.getIDToken] and [fetch] from two
    scripts, in order. *)
Record Scripted : Type := mkScripted {
  idTokens : list (Result string);
  exchanges : list (Result Response)
}.

Definition scriptedIDToken (audience : string) (h : Scripted) : Result string * Scripted :=
  match idTokens h with
  | [] => (Throw (JsError "Unable to get ACTIONS_ID_TOKEN_REQUEST_URL env variable"), h)
  | a :: rest => (a, {| idTokens := rest; exchanges := exchanges h |})
  end.

Definition scriptedFetch (r : Request) (h : Scripted) : Result Response * Scripted :=
  match exchanges h with
  | [] => (Throw (JsError "fetch failed"), h)
  | a :: rest => (a, {| idTokens := idTokens h; exchanges := rest |})
  end.

(** *** What a log shows

    The observations the properties of this module are stated with. *)

Definition isRetryEvent (e : Event) : bool :=
  match e with
  | Attempt _ _ | Sleep _ => true
  | _ => false
  end.

Definition isGetIDToken (e : Event) : bool :=
  match e with
  | GetIDToken _ => true
  | _ => false
  end.

Definition isFetch (e : Event) : bool :=
  match e with
  | Fetch _ => true
  | _ => false
  end.

Definition isSetOutput (e : Event) : bool :=
  match e with
  | SetOutput _ _ => true
  | _ => false
  end.

Definition isFailure (e : Event) : bool :=
  match e with
  | SetFailed _ | Exit _ => true
  | _ => false
  end.

Definition isSleep (e : Event) : bool :=
  match e with
  | Sleep _ => true
  | _ => false
  end.

(** The time spent in [setTimeout], in milliseconds. *)
Fixpoint slept (events : list Event) : Q :=
  match events with
  | [] => 0
  | Sleep delayMs :: rest => delayMs + slept rest
  | _ :: rest => slept rest
  end.

(** A number on which the arithmetic of the source is exact: an integer
    from 0 to 2^53 - 1. *)
Definition safeInteger (q : Q) : Prop :=
  Qden q = 1%positive /\ (0 <= Qnum q <= 9007199254740991)%Z.

(** The options on which the loop of the source computes what the
    embedding computes: every delay it can form is a safe integer and
    the attempts can be counted. *)
Definition Exact (options : RetryOptions) : Prop :=
  let initialDelayMs := orDefault (initialDelayMs options) 5000 in
  let maxDelayMs := orDefault (maxDelayMs options) 20000 in
  let backoffFactor := orDefault (backoffFactor options) 2 in
  safeInteger initialDelayMs /\ safeInteger maxDelayMs /\ safeInteger backoffFactor
  /\ safeInteger (initialDelayMs * backoffFactor)
  /\ safeInteger (maxDelayMs * backoffFactor)
  /\ (orDefault (maxAttempts options) 3 <= 9007199254740991)%Q.

(** The announcements and pauses of [k] attempts, the first one numbered
    [attempt] and followed by a pause of [delayMs]: a pause separates
    two attempts, and each pause is the previous one times the factor,
    capped.  With [pauseAtEnd] a pause also follows the last attempt. *)
Fixpoint backoffSchedule (maxAttempts maxDelayMs backoffFactor : Q) (k : nat)
    (attempt : Z) (delayMs : Q) (pauseAtEnd : bool) : list Event :=
  match k with
  | 0 => []
  | S k' =>
      Attempt attempt maxAttempts
      :: match k' with
         | 0 => if pauseAtEnd then [Sleep delayMs] else []
         | S _ =>
             Sleep delayMs
             :: backoffSchedule maxAttempts maxDelayMs backoffFactor k'
                  (attempt + 1) (Qmin (delayMs * backoffFactor) maxDelayMs) pauseAtEnd
         end
  end.

(** The audience [getOidcToken] asks a token for. *)
Definition audience : string := "claude-code-github-action".

(** [Quiet operation]: the operation announces no attempt and takes no
    pause of its own. *)
Definition Quiet (Host T : Type) (operation : M Host T) : Prop :=
  forall w, filter isRetryEvent (log (snd (operation w))) = filter isRetryEvent (log w).

(** [OneShot operation ev]: each call of the operation leaves [ev] in
    the log, and nothing else. *)
Definition OneShot (Host T : Type) (operation : M Host T) (ev : Event) : Prop :=
  forall w, log (snd (operation w)) = (log w ++ [ev])%list.

(** The log of [k] attempts at an operation that leaves [ev], made with
    the default options. *)
Definition attempts (ev : Event) (k : nat) : list Event :=
  flat_map (fun e => match e with
                     | Attempt _ _ => [e; ev]
                     | _ => [e]
                     end)
    (backoffSchedule 3 20000 2 k 1 5000 false).

End Token.

Section Handlers.

(** The remote object store, as a state machine answering requests; a
    [Throw] answer is a rejected [fetch]. *)
Variable Store : Type.
Variable serve : Request -> Store -> Result Response * Store.

(** The local file system: [readFile(path, "utf-8")], and the moment at
    which the read of a path settles, counted from the start of the
    reads. *)
Variable fs : string -> Result string.
Variable settled : string -> nat.

Variable env : Env.

Definition M (A : Type) : Type := World Store -> Result A * World Store.

Definition ret {A : Type} (a : A) : M A := fun w => (Ok a, w).

Definition throw {A : Type} (e : Exn) : M A := fun w => (Throw e, w).

Definition bind {A B : Type} (m : M A) (k : A -> M B) : M B :=
  fun w =>
    match m w with
    | (Ok a, w') => k a w'
    | (Throw e, w') => (Throw e, w')
    end.

Definition lift {A : Type} (r : Result A) : M A := fun w => (r, w).

Notation "x <- m ;; k" := (bind m (fun x => k))
  (at level 100, m at next level, right associativity).
Notation "m ;; k" := (bind m (fun _ => k))
  (at level 100, right associativity).

(** [if (c) throw new Error(msg)] for a message that may itself await
    something. *)
Definition throwIf (c : bool) (msg : M string) : M unit :=
  if c then (m <- msg ;; throw (JsError m)) else ret tt.

(** [await fetch(url, init)] *)
Definition fetch (r : Request) : M Response :=
  fun w =>
    let (answer, s') := serve r (store w) in
    (answer, {| store := s'; trace := trace w ++ [Fetched r] |}).

Definition get (v : JsVal) (k : string) : M JsVal := lift (JsValue.getProp v k).

(** [(await response.json())] *)
Definition parsed (r : Response) : M JsVal :=
  match json r with
  | Ok j => ret (Some j)
  | Throw e => throw e
  end.

(** [await response.text()] *)
Definition errorText (r : Response) : M string := lift (text r).

(** *** Request construction *)

Definition readHeaders (githubToken : string) : list (string * string) :=
  [ ("Accept", "application/vnd.github+json");
    ("Authorization", "Bearer " ++ githubToken);
    ("X-GitHub-Api-Version", "2022-11-28") ].

Definition writeHeaders (githubToken : string) : list (string * string) :=
  [ ("Accept", "application/vnd.github+json");
    ("Authorization", "Bearer " ++ githubToken);
    ("X-GitHub-Api-Version", "2022-11-28");
    ("Content-Type", "application/json") ].

Definition repoUrl : string :=
  GITHUB_API_URL env ++ "/repos/" ++ REPO_OWNER env ++ "/" ++ REPO_NAME env.

Definition refUrl : string := repoUrl ++ "/git/refs/heads/" ++ BRANCH_NAME env.

Definition getRefRequest (githubToken : string) : Request :=
  {| url := refUrl; method := GET; headers := readHeaders githubToken; body := None |}.

Definition getCommitRequest (githubToken : string) (baseSha : JsVal) : Request :=
  {| url := repoUrl ++ "/git/commits/" ++ JsValue.toString baseSha;
     method := GET; headers := readHeaders githubToken; body := None |}.

Definition createTreeRequest (githubToken : string) (baseTreeSha : JsVal)
    (treeEntries : list Json) : Request :=
  {| url := repoUrl ++ "/git/trees";
     method := POST; headers := writeHeaders githubToken;
     body := Some (JsValue.object
               [ ("base_tree", baseTreeSha); ("tree", Some (JArr treeEntries)) ]) |}.

Definition createCommitRequest (githubToken message : string)
    (treeSha baseSha : JsVal) : Request :=
  {| url := repoUrl ++ "/git/commits";
     method := POST; headers := writeHeaders githubToken;
     body := Some (JsValue.object
               [ ("message", Some (JStr message));
                 ("tree", treeSha);
                 ("parents", Some (JArr [JsValue.element baseSha])) ]) |}.

Definition updateRefRequest (githubToken : string) (newSha : JsVal) : Request :=
  {| url := refUrl;
     method := PATCH; headers := writeHeaders githubToken;
     body := Some (JsValue.object
               [ ("sha", newSha); ("force", Some (JBool false)) ]) |}.

(** *** The steps shared by both handlers

    Steps 1, 2, 4, 5 and 6 are the same text in [commit_files] and in
    [delete_files]; each is embedded once. *)

Definition requireToken : M string :=
  match GITHUB_TOKEN env with
  | Some githubToken =>
      if String.eqb githubToken ""
      then throw (JsError "GITHUB_TOKEN environment variable is required")
      else ret githubToken
  | None => throw (JsError "GITHUB_TOKEN environment variable is required")
  end.

(** 1. Get the branch reference: yields [baseSha]. *)
Definition getBranchReference (githubToken : string) : M JsVal :=
  refResponse <- fetch (getRefRequest githubToken) ;;
  throwIf (negb (ok refResponse))
    (ret ("Failed to get branch reference: " ++ Js.ofNat (status refResponse))) ;;
  refData <- parsed refResponse ;;
  object <- get refData "object" ;;
  get object "sha".

(** 2. Get the base commit: yields [baseTreeSha]. *)
Definition getBaseCommit (githubToken : string) (baseSha : JsVal) : M JsVal :=
  commitResponse <- fetch (getCommitRequest githubToken baseSha) ;;
  throwIf (negb (ok commitResponse))
    (ret ("Failed to get base commit: " ++ Js.ofNat (status commitResponse))) ;;
  commitData <- parsed commitResponse ;;
  tree <- get commitData "tree" ;;
  get tree "sha".

(** 4. Create a new tree: yields [treeData]. *)
Definition createTree (githubToken : string) (baseTreeSha : JsVal)
    (treeEntries : list Json) : M JsVal :=
  treeResponse <- fetch (createTreeRequest githubToken baseTreeSha treeEntries) ;;
  throwIf (negb (ok treeResponse))
    (errorText <- errorText treeResponse ;;
     ret ("Failed to create tree: " ++ Js.ofNat (status treeResponse)
            ++ " - " ++ errorText)) ;;
  parsed treeResponse.

(** 5. Create a new commit: yields [newCommitData]. *)
Definition createCommit (githubToken message : string) (treeData baseSha : JsVal)
    : M JsVal :=
  treeSha <- get treeData "sha" ;;
  newCommitResponse <- fetch (createCommitRequest githubToken message treeSha baseSha) ;;
  throwIf (negb (ok newCommitResponse))
    (errorText <- errorText newCommitResponse ;;
     ret ("Failed to create commit: " ++ Js.ofNat (status newCommitResponse)
            ++ " - " ++ errorText)) ;;
  parsed newCommitResponse.

(** 6. Update the reference to point to the new commit. *)
Definition updateReference (githubToken : string) (newCommitData : JsVal) : M unit :=
  newSha <- get newCommitData "sha" ;;
  updateRefResponse <- fetch (updateRefRequest githubToken newSha) ;;
  throwIf (negb (ok updateRefResponse))
    (errorText <- errorText updateRefResponse ;;
     ret ("Failed to update reference: " ++ Js.ofNat (status updateRefResponse)
            ++ " - " ++ errorText)).

(** The [commit] part of [simplifiedResult]. *)
Definition commitSummary (newCommitData : JsVal) : M JsVal :=
  sha <- get newCommitData "sha" ;;
  message <- get newCommitData "message" ;;
  author <- get newCommitData "author" ;;
  name <- get author "name" ;;
  author' <- get newCommitData "author" ;;
  date <- get author' "date" ;;
  ret (Some (JsValue.object
         [ ("sha", sha); ("message", message); ("author", name); ("date", date) ])).

Definition pathObjects (paths : list string) : Json :=
  JArr (map (fun path => JObj [("path", JStr path)]) paths).

Definition successResult (simplifiedResult : Json) : ToolResult :=
  {| content := [TextContent (JSON_stringify simplifiedResult)];
     error := None; isError := None |}.

(** The [catch] clause of both handlers. *)
Definition errorResult (e : Exn) : ToolResult :=
  {| content := [TextContent (Plain ("Error: " ++ errorMessage e))];
     error := Some (errorMessage e);
     isError := Some true |}.

Definition catch (body : M ToolResult) : World Store -> ToolResult * World Store :=
  fun w =>
    match body w with
    | (Ok r, w') => (r, w')
    | (Throw e, w') => (errorResult e, w')
    end.

(** *** [commit_files] *)

Definition processFile (filePath : string) : string :=
  if Js.startsWith filePath "/" then Js.slice filePath 1 else filePath.

Definition fullPath (filePath : string) : string :=
  if Js.startsWith filePath "/" then filePath else Path.join (REPO_DIR env) filePath.

Definition writeEntry (filePath content : string) : Json :=
  JObj [ ("path", JStr filePath); ("mode", JStr "100644");
         ("type", JStr "blob"); ("content", JStr content) ].

Definition readEntry (filePath : string) : Result Json :=
  match fs (fullPath filePath) with
  | Ok content => Ok (writeEntry filePath content)
  | Throw e => Throw e
  end.

(** The promises of step 3, one for each file: the read has been
    started and settles when the file system says. *)
Definition startRead (filePath : string) : nat * Result Json :=
  (settled (fullPath filePath), readEntry filePath).

Definition allRead (processedFiles : list string) : Result (list Json) :=
  Promise_all (map startRead processedFiles).

(** 3. Create tree entries for all files: every read is started, then
    all are awaited together. *)
Definition readTreeEntries (processedFiles : list string) : M (list Json) :=
  fun w =>
    (allRead processedFiles,
     {| store := store w;
        trace := (trace w ++ map (fun p => ReadFile (fullPath p)) processedFiles)%list |}).

Definition commit_files_try (files : list string) (message : string) : M ToolResult :=
  githubToken <- requireToken ;;
  let processedFiles := map processFile files in
  baseSha <- getBranchReference githubToken ;;
  baseTreeSha <- getBaseCommit githubToken baseSha ;;
  treeEntries <- readTreeEntries processedFiles ;;
  treeData <- createTree githubToken baseTreeSha treeEntries ;;
  newCommitData <- createCommit githubToken message treeData baseSha ;;
  updateReference githubToken newCommitData ;;
  commit <- commitSummary newCommitData ;;
  treeSha <- get treeData "sha" ;;
  ret (successResult (JsValue.object
         [ ("commit", commit);
           ("files", Some (pathObjects processedFiles));
           ("tree", Some (JsValue.object [("sha", treeSha)])) ])).

Definition commit_files (files : list string) (message : string)
  : World Store -> ToolResult * World Store :=
  catch (commit_files_try files message).

(** *** [delete_files] *)

Definition pathError (filePath : string) : Exn :=
  JsError ("Path '" ++ filePath
           ++ "' must be relative to repository root or within current working directory").

(** Convert absolute paths to relative if they match CWD. *)
Definition processPath (filePath : string) : Result string :=
  if Js.startsWith filePath "/" then
    if Js.startsWith filePath (cwd env)
    then Ok (Js.slice filePath (String.length (cwd env) + 1))
    else Throw (pathError filePath)
  else Ok filePath.

(** [paths.map(...)] with a callback that may throw: the first throwing
    element ends the traversal. *)
Fixpoint processPaths (paths : list string) : Result (list string) :=
  match paths with
  | [] => Ok []
  | filePath :: rest =>
      match processPath filePath with
      | Throw e => Throw e
      | Ok p =>
          match processPaths rest with
          | Ok ps => Ok (p :: ps)
          | Throw e => Throw e
          end
      end
  end.

Definition deleteEntry (path : string) : Json :=
  JObj [ ("path", JStr path); ("mode", JStr "100644");
         ("type", JStr "blob"); ("sha", JNull) ].

Definition delete_files_try (paths : list string) (message : string) : M ToolResult :=
  githubToken <- requireToken ;;
  processedPaths <- lift (processPaths paths) ;;
  baseSha <- getBranchReference githubToken ;;
  baseTreeSha <- getBaseCommit githubToken baseSha ;;
  let treeEntries := map deleteEntry processedPaths in
  treeData <- createTree githubToken baseTreeSha treeEntries ;;
  newCommitData <- createCommit githubToken message treeData baseSha ;;
  updateReference githubToken newCommitData ;;
  commit <- commitSummary newCommitData ;;
  treeSha <- get treeData "sha" ;;
  ret (successResult (JsValue.object
         [ ("commit", commit);
           ("deletedFiles", Some (pathObjects processedPaths));
           ("tree", Some (JsValue.object [("sha", treeSha)])) ])).

Definition delete_files (paths : list string) (message : string)
  : World Store -> ToolResult * World Store :=
  catch (delete_files_try paths message).

(** *** The single-request tools

    [create_issue], [github__update_issue_comment], [create_pull_request],
    [github__update_pull_request_comment] and
    [update_pull_request_review_comment] each make one request to the
    repository named by their arguments.  What they write to the
    console is not part of the embedding; none of it can throw.  A
    number argument is carried, like a JSON number, by its decimal
    rendering. *)

(** A result whose text is a literal string. *)
Definition textResult (s : string) : ToolResult :=
  {| content := [TextContent (Plain s)]; error := None; isError := None |}.

(** [if (x) requestBody.k = x] for an optional array: every array,
    empty or not, is truthy. *)
Definition whenGiven {A : Type} (k : string) (v : option A) (enc : A -> Json)
  : list (string * Json) :=
  match v with
  | Some a => [(k, enc a)]
  | None => []
  end.

(** [if (n) ...] for an optional number: zero is falsy. *)
Definition whenTruthyNumber (k : string) (n : option string) : list (string * Json) :=
  match n with
  | Some rendering => if String.eqb rendering "0" then [] else [(k, JNum rendering)]
  | None => []
  end.

Definition stringArray (l : list string) : Json := JArr (map JStr l).

Definition createIssueRequest (githubToken owner repo title issueBody : string)
    (assignees labels : option (list string)) (milestone : option string) : Request :=
  {| url := GITHUB_API_URL env ++ "/repos/" ++ owner ++ "/" ++ repo ++ "/issues";
     method := POST; headers := writeHeaders githubToken;
     body := Some (JObj ([ ("title", JStr title); ("body", JStr issueBody) ]
                         ++ whenGiven "assignees" assignees stringArray
                         ++ whenGiven "labels" labels stringArray
                         ++ whenTruthyNumber "milestone" milestone)%list) |}.

Definition create_issue_try (owner repo title issueBody : string)
    (assignees labels : option (list string)) (milestone : option string)
  : M ToolResult :=
  githubToken <- requireToken ;;
  response <- fetch (createIssueRequest githubToken owner repo title issueBody
                       assignees labels milestone) ;;
  throwIf (negb (ok response))
    (errorText <- errorText response ;;
     ret ("Failed to create issue: " ++ Js.ofNat (status response)
            ++ " - " ++ errorText)) ;;
  result <- parsed response ;;
  id <- get result "id" ;;
  number <- get result "number" ;;
  title' <- get result "title" ;;
  state <- get result "state" ;;
  html_url <- get result "html_url" ;;
  created_at <- get result "created_at" ;;
  ret (successResult (JsValue.object
         [ ("id", id); ("number", number); ("title", title'); ("state", state);
           ("html_url", html_url); ("created_at", created_at) ])).

Definition create_issue (owner repo title issueBody : string)
    (assignees labels : option (list string)) (milestone : option string)
  : World Store -> ToolResult * World Store :=
  catch (create_issue_try owner repo title issueBody assignees labels milestone).

(** The request of the three comment tools: a [PATCH] of [{ body }] to
    the comment [commentId] under [collection]. *)
Definition commentRequest (collection githubToken owner repo commentId commentBody : string)
  : Request :=
  {| url := GITHUB_API_URL env ++ "/repos/" ++ owner ++ "/" ++ repo ++ "/"
            ++ collection ++ "/comments/" ++ commentId;
     method := PATCH; headers := writeHeaders githubToken;
     body := Some (JObj [("body", JStr commentBody)]) |}.

Definition github__update_issue_comment_try (owner repo commentId commentBody : string)
  : M ToolResult :=
  githubToken <- requireToken ;;
  response <- fetch (commentRequest "issues" githubToken owner repo commentId commentBody) ;;
  throwIf (negb (ok response))
    (errorText <- errorText response ;;
     ret ("Failed to update comment: " ++ Js.ofNat (status response)
            ++ " - " ++ errorText)) ;;
  result <- parsed response ;;
  ret (textResult ("Comment " ++ commentId ++ " updated successfully")).

Definition github__update_issue_comment (owner repo commentId commentBody : string)
  : World Store -> ToolResult * World Store :=
  catch (github__update_issue_comment_try owner repo commentId commentBody).

(** PR comments use the same API as issue comments. *)
Definition github__update_pull_request_comment_try
    (owner repo commentId commentBody : string) : M ToolResult :=
  githubToken <- requireToken ;;
  response <- fetch (commentRequest "issues" githubToken owner repo commentId commentBody) ;;
  throwIf (negb (ok response))
    (errorText <- errorText response ;;
     ret ("Failed to update PR comment: " ++ Js.ofNat (status response)
            ++ " - " ++ errorText)) ;;
  result <- parsed response ;;
  ret (textResult ("PR comment " ++ commentId ++ " updated successfully")).

Definition github__update_pull_request_comment (owner repo commentId commentBody : string)
  : World Store -> ToolResult * World Store :=
  catch (github__update_pull_request_comment_try owner repo commentId commentBody).

(** Review comments use a different API endpoint. *)
Definition update_pull_request_review_comment_try
    (owner repo commentId commentBody : string) : M ToolResult :=
  githubToken <- requireToken ;;
  response <- fetch (commentRequest "pulls" githubToken owner repo commentId commentBody) ;;
  throwIf (negb (ok response))
    (errorText <- errorText response ;;
     ret ("Failed to update PR review comment: " ++ Js.ofNat (status response)
            ++ " - " ++ errorText)) ;;
  result <- parsed response ;;
  ret (textResult ("PR review comment " ++ commentId ++ " updated successfully")).

Definition update_pull_request_review_comment (owner repo commentId commentBody : string)
  : World Store -> ToolResult * World Store :=
  catch (update_pull_request_review_comment_try owner repo commentId commentBody).

Definition createPullRequestRequest (githubToken owner repo title prBody head base : string)
    (draft maintainer_can_modify : option bool) : Request :=
  {| url := GITHUB_API_URL env ++ "/repos/" ++ owner ++ "/" ++ repo ++ "/pulls";
     method := POST; headers := writeHeaders githubToken;
     body := Some (JObj ([ ("title", JStr title); ("body", JStr prBody);
                           ("head", JStr head); ("base", JStr base) ]
                         ++ whenGiven "draft" draft JBool
                         ++ whenGiven "maintainer_can_modify" maintainer_can_modify JBool)%list) |}.

Definition create_pull_request_try (owner repo title prBody head base : string)
    (draft maintainer_can_modify : option bool) : M ToolResult :=
  githubToken <- requireToken ;;
  response <- fetch (createPullRequestRequest githubToken owner repo title prBody
                       head base draft maintainer_can_modify) ;;
  throwIf (negb (ok response))
    (errorText <- errorText response ;;
     ret ("Failed to create pull request: " ++ Js.ofNat (status response)
            ++ " - " ++ errorText)) ;;
  result <- parsed response ;;
  id <- get result "id" ;;
  number <- get result "number" ;;
  title' <- get result "title" ;;
  state <- get result "state" ;;
  html_url <- get result "html_url" ;;
  headObject <- get result "head" ;;
  headRef <- get headObject "ref" ;;
  baseObject <- get result "base" ;;
  baseRef <- get baseObject "ref" ;;
  created_at <- get result "created_at" ;;
  ret (successResult (JsValue.object
         [ ("id", id); ("number", number); ("title", title'); ("state", state);
           ("html_url", html_url); ("head", headRef); ("base", baseRef);
           ("created_at", created_at) ])).

Definition create_pull_request (owner repo title prBody head base : string)
    (draft maintainer_can_modify : option bool)
  : World Store -> ToolResult * World Store :=
  catch (create_pull_request_try owner repo title prBody head base
           draft maintainer_can_modify).

(** *** [list_issues] *)

Inductive IssueState : Type := state_open | state_closed | state_all.
Inductive IssueSort : Type := sort_created | sort_updated | sort_comments.
Inductive SortDirection : Type := asc | desc.

Definition stateName (s : IssueState) : string :=
  match s with
  | state_open => "open"
  | state_closed => "closed"
  | state_all => "all"
  end.

Definition sortName (s : IssueSort) : string :=
  match s with
  | sort_created => "created"
  | sort_updated => "updated"
  | sort_comments => "comments"
  end.

Definition directionName (d : SortDirection) : string :=
  match d with
  | asc => "asc"
  | desc => "desc"
  end.

(** [if (x) params.append(k, x)] for an optional string: the empty
    string is falsy. *)
Definition appendString (k : string) (v : option string) : list (string * string) :=
  match v with
  | Some x => if String.eqb x "" then [] else [(k, x)]
  | None => []
  end.

(** [if (n) params.append(k, n.toString())]: zero is falsy. *)
Definition appendNumber (k : string) (n : option string) : list (string * string) :=
  match n with
  | Some rendering => if String.eqb rendering "0" then [] else [(k, rendering)]
  | None => []
  end.

Definition issueParams (state : option IssueState) (labels assignee creator : option string)
    (sort : option IssueSort) (direction : option SortDirection)
    (per_page page : option string) : list (string * string) :=
  (appendString "state" (option_map stateName state)
   ++ appendString "labels" labels
   ++ appendString "assignee" assignee
   ++ appendString "creator" creator
   ++ appendString "sort" (option_map sortName sort)
   ++ appendString "direction" (option_map directionName direction)
   ++ appendNumber "per_page" per_page
   ++ appendNumber "page" page)%list.

Definition listIssuesRequest (githubToken owner repo : string)
    (params : list (string * string)) : Request :=
  {| url := GITHUB_API_URL env ++ "/repos/" ++ owner ++ "/" ++ repo ++ "/issues?"
            ++ URLSearchParams.toString params;
     method := GET; headers := readHeaders githubToken; body := None |}.

Definition nameOf (what : string) (item : Json) : Result Json :=
  match JsValue.getProp (Some item) what with
  | Ok v => Ok (JsValue.element v)
  | Throw e => Throw e
  end.

(** The callback of [issues.map]: the properties are read in the order
    of the object literal. *)
Definition simplifyIssue (issue : Json) : Result Json :=
  match JsValue.getProp (Some issue) "id" with Throw e => Throw e | Ok id =>
  match JsValue.getProp (Some issue) "number" with Throw e => Throw e | Ok number =>
  match JsValue.getProp (Some issue) "title" with Throw e => Throw e | Ok title =>
  match JsValue.getProp (Some issue) "state" with Throw e => Throw e | Ok state =>
  match JsValue.getProp (Some issue) "html_url" with Throw e => Throw e | Ok html_url =>
  match JsValue.getProp (Some issue) "user" with Throw e => Throw e | Ok user =>
  match JsValue.getProp user "login" with Throw e => Throw e | Ok login =>
  match JsValue.getProp (Some issue) "labels" with Throw e => Throw e | Ok labels =>
  match arrayMap "issue.labels" labels (nameOf "name") with Throw e => Throw e | Ok labelNames =>
  match JsValue.getProp (Some issue) "assignees" with Throw e => Throw e | Ok assignees =>
  match arrayMap "issue.assignees" assignees (nameOf "login") with Throw e => Throw e | Ok logins =>
  match JsValue.getProp (Some issue) "created_at" with Throw e => Throw e | Ok created_at =>
  match JsValue.getProp (Some issue) "updated_at" with Throw e => Throw e | Ok updated_at =>
  match JsValue.getProp (Some issue) "comments" with Throw e => Throw e | Ok comments =>
    Ok (JsValue.object
          [ ("id", id); ("number", number); ("title", title); ("state", state);
            ("html_url", html_url); ("user", login); ("labels", labelNames);
            ("assignees", logins); ("created_at", created_at);
            ("updated_at", updated_at); ("comments", comments) ])
  end end end end end end end end end end end end end end.

Definition list_issues_try (owner repo : string) (state : option IssueState)
    (labels assignee creator : option string) (sort : option IssueSort)
    (direction : option SortDirection) (per_page page : option string)
  : M ToolResult :=
  githubToken <- requireToken ;;
  let params := issueParams state labels assignee creator sort direction per_page page in
  response <- fetch (listIssuesRequest githubToken owner repo params) ;;
  throwIf (negb (ok response))
    (errorText <- errorText response ;;
     ret ("Failed to list issues: " ++ Js.ofNat (status response)
            ++ " - " ++ errorText)) ;;
  issues <- parsed response ;;
  simplifiedIssues <- lift (arrayMap "issues" issues simplifyIssue) ;;
  ret (successResult (JsValue.element simplifiedIssues)).

Definition list_issues (owner repo : string) (state : option IssueState)
    (labels assignee creator : option string) (sort : option IssueSort)
    (direction : option SortDirection) (per_page page : option string)
  : World Store -> ToolResult * World Store :=
  catch (list_issues_try owner repo state labels assignee creator sort direction
           per_page page).

(** *** Both handlers as one pipeline

    The two bodies differ only in how the paths are prepared, how the
    tree entries are obtained and under which key the paths are
    reported.  [mutation] is that common shape; the handlers are equal
    to its two instances ([commit_files_is_mutation],
    [delete_files_is_mutation]), so a property is proved once. *)

Definition mutation (prepare : Result (list string))
    (entriesOf : list string -> M (list Json)) (key message : string)
  : M ToolResult :=
  githubToken <- requireToken ;;
  processed <- lift prepare ;;
  baseSha <- getBranchReference githubToken ;;
  baseTreeSha <- getBaseCommit githubToken baseSha ;;
  treeEntries <- entriesOf processed ;;
  treeData <- createTree githubToken baseTreeSha treeEntries ;;
  newCommitData <- createCommit githubToken message treeData baseSha ;;
  updateReference githubToken newCommitData ;;
  commit <- commitSummary newCommitData ;;
  treeSha <- get treeData "sha" ;;
  ret (successResult (JsValue.object
         [ ("commit", commit);
           (key, Some (pathObjects processed));
           ("tree", Some (JsValue.object [("sha", treeSha)])) ])).

(** *** Transcripts *)

(** Serving a list of requests one after the other. *)
Fixpoint exchange (rs : list Request) (s : Store) : list Call * Store :=
  match rs with
  | [] => ([], s)
  | r :: rest =>
      let (a, s1) := serve r s in
      let (calls, s2) := exchange rest s1 in
      ((r, a) :: calls, s2)
  end.

(** The value at a property path of the JSON body of an answer, read
    the way the handlers read it. *)
Fixpoint getPath (v : JsVal) (ks : list string) : Result JsVal :=
  match ks with
  | [] => Ok v
  | k :: rest =>
      match JsValue.getProp v k with
      | Ok v' => getPath v' rest
      | Throw e => Throw e
      end
  end.

Definition answered (a : Result Response) (ks : list string) : Result JsVal :=
  match a with
  | Ok resp =>
      match json resp with
      | Ok j => getPath (Some j) ks
      | Throw e => Throw e
      end
  | Throw e => Throw e
  end.

(** [Steps w w' evs calls]: going from [w] to [w'] performed the
    effects [evs], whose network requests, served in order from the
    store of [w], are the calls [calls] and leave the store of [w']. *)
Definition Steps (w w' : World Store) (evs : list Event) (calls : list Call) : Prop :=
  trace w' = (trace w ++ evs)%list
  /\ requests evs = map fst calls
  /\ exchange (map fst calls) (store w) = (calls, store w').

(** The legal transcripts of one mutation: each request is issued only
    after every earlier one was accepted, and carries the hashes the
    earlier answers gave. *)
Inductive Transcript (githubToken message : string) (treeEntries : list Json)
  : list Call -> Prop :=
| NoCall : Transcript githubToken message treeEntries []
| AtGetRef a1 :
    Transcript githubToken message treeEntries
      [ (getRefRequest githubToken, a1) ]
| AtGetCommit a1 a2 baseSha :
    accepted a1 = true ->
    answered a1 ["object"; "sha"] = Ok baseSha ->
    Transcript githubToken message treeEntries
      [ (getRefRequest githubToken, a1);
        (getCommitRequest githubToken baseSha, a2) ]
| AtCreateTree a1 a2 a3 baseSha baseTreeSha :
    accepted a1 = true ->
    answered a1 ["object"; "sha"] = Ok baseSha ->
    accepted a2 = true ->
    answered a2 ["tree"; "sha"] = Ok baseTreeSha ->
    Transcript githubToken message treeEntries
      [ (getRefRequest githubToken, a1);
        (getCommitRequest githubToken baseSha, a2);
        (createTreeRequest githubToken baseTreeSha treeEntries, a3) ]
| AtCreateCommit a1 a2 a3 a4 baseSha baseTreeSha treeSha :
    accepted a1 = true ->
    answered a1 ["object"; "sha"] = Ok baseSha ->
    accepted a2 = true ->
    answered a2 ["tree"; "sha"] = Ok baseTreeSha ->
    accepted a3 = true ->
    answered a3 ["sha"] = Ok treeSha ->
    Transcript githubToken message treeEntries
      [ (getRefRequest githubToken, a1);
        (getCommitRequest githubToken baseSha, a2);
        (createTreeRequest githubToken baseTreeSha treeEntries, a3);
        (createCommitRequest githubToken message treeSha baseSha, a4) ]
| AtUpdateRef a1 a2 a3 a4 a5 baseSha baseTreeSha treeSha newSha :
    accepted a1 = true ->
    answered a1 ["object"; "sha"] = Ok baseSha ->
    accepted a2 = true ->
    answered a2 ["tree"; "sha"] = Ok baseTreeSha ->
    accepted a3 = true ->
    answered a3 ["sha"] = Ok treeSha ->
    accepted a4 = true ->
    answered a4 ["sha"] = Ok newSha ->
    Transcript githubToken message treeEntries
      [ (getRefRequest githubToken, a1);
        (getCommitRequest githubToken baseSha, a2);
        (createTreeRequest githubToken baseTreeSha treeEntries, a3);
        (createCommitRequest githubToken message treeSha baseSha, a4);
        (updateRefRequest githubToken newSha, a5) ].

(** The error a step raises on a response that is not 2xx: the two
    reading steps report the status code only, the three writing steps
    the status code and the body text.  Steps are numbered by the
    position of their request, from 1. *)
Definition rejection (step : nat) (resp : Response) : Result string :=
  match step with
  | 1 => Ok ("Failed to get branch reference: " ++ Js.ofNat (status resp))
  | 2 => Ok ("Failed to get base commit: " ++ Js.ofNat (status resp))
  | 3 => match text resp with
         | Ok t => Ok ("Failed to create tree: " ++ Js.ofNat (status resp) ++ " - " ++ t)
         | Throw e => Throw e
         end
  | 4 => match text resp with
         | Ok t => Ok ("Failed to create commit: " ++ Js.ofNat (status resp) ++ " - " ++ t)
         | Throw e => Throw e
         end
  | _ => match text resp with
         | Ok t => Ok ("Failed to update reference: " ++ Js.ofNat (status resp) ++ " - " ++ t)
         | Throw e => Throw e
         end
  end.

Definition rejectionError (step : nat) (resp : Response) : Exn :=
  match rejection step resp with
  | Ok m => JsError m
  | Throw e => e
  end.

(** What a step ends with when the answer to its request is not
    accepted: the rejection of [fetch] itself, or the error of the
    step for a response that is not 2xx. *)
Definition failureOf (step : nat) (a : Result Response) : option Exn :=
  match a with
  | Throw e => Some e
  | Ok resp => if ok resp then None else Some (rejectionError step resp)
  end.

(** The failure of the last call of a transcript, if it failed. *)
Definition failure (calls : list Call) : option Exn :=
  match List.rev calls with
  | [] => None
  | (_, a) :: _ => failureOf (length calls) a
  end.

(** The token the handlers accept: set and not empty. *)
Definition credential : option string :=
  match GITHUB_TOKEN env with
  | Some t => if String.eqb t "" then None else Some t
  | None => None
  end.

(** A computation that performs no network request, reads the local
    files [local] and whose result is [pure], whatever the world. *)
Definition Offline {A : Type} (m : M A) (pure : Result A) (local : list string) : Prop :=
  forall w, exists evs,
    m w = (pure, {| store := store w; trace := (trace w ++ evs)%list |})
    /\ requests evs = []
    /\ reads evs = local.

(** The first two steps are done: two calls were made and the second
    answer gave the hash of the base tree. *)
Definition readyForEntries (calls : list Call) : Prop :=
  exists c1 r2 a2 baseTreeSha,
    calls = [c1; (r2, a2)]
    /\ accepted a2 = true
    /\ answered a2 ["tree"; "sha"] = Ok baseTreeSha.

(** The effects of a run, in the order they are performed: the
    requests of the first two calls, then the local reads, then the
    requests of the later calls; and files are read only once the first
    two calls have been accepted. *)
Definition Effects (local : list string -> list string) (prepare : Result (list string))
    (evs : list Event) (calls : list Call) : Prop :=
  evs = (map Fetched (map fst (firstn 2 calls)) ++ map ReadFile (reads evs)
         ++ map Fetched (map fst (skipn 2 calls)))%list
  /\ (reads evs = []
      \/ exists processed c1 c2 rest,
           prepare = Ok processed
           /\ calls = c1 :: c2 :: rest
           /\ accepted (snd c1) = true /\ accepted (snd c2) = true
           /\ reads evs = local processed).

(** What the body returns when it returns, read off the answers of the
    store: the hash, message, author and date of the answer to
    create-commit, the processed paths under [key], and the hash of the
    answer to create-tree. *)
Definition Summary (key : string) (prepare : Result (list string))
    (calls : list Call) (r : ToolResult) : Prop :=
  exists processed c1 c2 r3 a3 r4 a4 c5 sha msg name date treeSha,
    prepare = Ok processed
    /\ calls = [c1; c2; (r3, a3); (r4, a4); c5]
    /\ answered a4 ["sha"] = Ok sha
    /\ answered a4 ["message"] = Ok msg
    /\ answered a4 ["author"; "name"] = Ok name
    /\ answered a4 ["author"; "date"] = Ok date
    /\ answered a3 ["sha"] = Ok treeSha
    /\ r = {| content :=
                [TextContent (JSON_stringify (JObj
                   [ ("commit", JObj (property "sha" sha ++ property "message" msg
                                      ++ property "author" name
                                      ++ property "date" date)%list);
                     (key, JArr (map (fun path => JObj [("path", JStr path)])
                                   processed));
                     ("tree", JObj (property "sha" treeSha)) ]))];
              error := None; isError := None |}.

(** The description of one run of a handler from [w], with body
    [body], result [r] and final world [w']: [prepare] is the outcome of
    the path processing, [pure] yields the tree entries of the processed
    paths and [local] the local files read for them. *)
Definition Run (prepare : Result (list string))
    (pure : list string -> Result (list Json))
    (local : list string -> list string) (key message : string)
    (body : M ToolResult) (w : World Store) (r : ToolResult) (w' : World Store) : Prop :=
  exists evs calls,
    Steps w w' evs calls
    /\ Effects local prepare evs calls
    /\ (forall r', fst (body w) = Ok r' -> Summary key prepare calls r')
    /\ match credential, prepare with
       | Some githubToken, Ok processed =>
           exists treeEntries,
             Transcript githubToken message treeEntries calls
             /\ calls <> []
             /\ (2 < length calls ->
                 pure processed = Ok treeEntries /\ reads evs = local processed)
       | _, _ => calls = []
       end
    /\ match fst (body w) with
       | Ok r' => r = r' /\ length calls = 5 /\ allAccepted calls
       | Throw e =>
           r = errorResult e
           /\ match credential, prepare with
              | None, _ => e = JsError "GITHUB_TOKEN environment variable is required"
              | Some _, Throw e0 => e = e0
              | Some _, Ok processed =>
                  (forall e', failure calls = Some e' -> e = e')
                  /\ (forall e', readyForEntries calls ->
                        pure processed = Throw e' -> e = e')
              end
       end.

(** How a run with result [r] and calls [calls] reports a failed call:
    when the last call was answered by a response that is not 2xx, the
    result is the error of that step ([rejection]); when [fetch] itself
    was rejected, the result is that rejection. *)
Definition RejectionReported (r : ToolResult) (calls : list Call) : Prop :=
  (forall earlier req resp,
     calls = (earlier ++ [(req, Ok resp)])%list -> ok resp = false ->
     r = errorResult (rejectionError (length calls) resp))
  /\ (forall earlier req e,
        calls = (earlier ++ [(req, Throw e)])%list -> r = errorResult e).

(** *** The requests as they reach the store

    What the specification says about the calls of a mutation is stated
    on the requests themselves, field by field, and on the answers the
    store gave; nothing here refers to the way the handlers build a
    request. *)

Definition IsGetRef (githubToken : string) (r : Request) : Prop :=
  method r = GET
  /\ url r = (GITHUB_API_URL env ++ "/repos/" ++ REPO_OWNER env ++ "/" ++ REPO_NAME env)
             ++ "/git/refs/heads/" ++ BRANCH_NAME env
  /\ headers r = [ ("Accept", "application/vnd.github+json");
                   ("Authorization", "Bearer " ++ githubToken);
                   ("X-GitHub-Api-Version", "2022-11-28") ]
  /\ body r = None.

(** [sha] is rendered into the URL as a template literal renders it. *)
Definition IsGetCommit (githubToken : string) (sha : JsVal) (r : Request) : Prop :=
  method r = GET
  /\ url r = (GITHUB_API_URL env ++ "/repos/" ++ REPO_OWNER env ++ "/" ++ REPO_NAME env)
             ++ "/git/commits/" ++ JsValue.toString sha
  /\ headers r = [ ("Accept", "application/vnd.github+json");
                   ("Authorization", "Bearer " ++ githubToken);
                   ("X-GitHub-Api-Version", "2022-11-28") ]
  /\ body r = None.

Definition IsCreateTree (githubToken : string) (baseTree : JsVal) (entries : list Json)
    (r : Request) : Prop :=
  method r = POST
  /\ url r = (GITHUB_API_URL env ++ "/repos/" ++ REPO_OWNER env ++ "/" ++ REPO_NAME env)
             ++ "/git/trees"
  /\ headers r = [ ("Accept", "application/vnd.github+json");
                   ("Authorization", "Bearer " ++ githubToken);
                   ("X-GitHub-Api-Version", "2022-11-28");
                   ("Content-Type", "application/json") ]
  /\ body r = Some (JObj (property "base_tree" baseTree ++ [("tree", JArr entries)])%list).

(** The commit to create has the one parent [parent]; an [undefined]
    parent is serialised as [null]. *)
Definition IsCreateCommit (githubToken message : string) (tree parent : JsVal)
    (r : Request) : Prop :=
  method r = POST
  /\ url r = (GITHUB_API_URL env ++ "/repos/" ++ REPO_OWNER env ++ "/" ++ REPO_NAME env)
             ++ "/git/commits"
  /\ headers r = [ ("Accept", "application/vnd.github+json");
                   ("Authorization", "Bearer " ++ githubToken);
                   ("X-GitHub-Api-Version", "2022-11-28");
                   ("Content-Type", "application/json") ]
  /\ body r = Some (JObj ([("message", JStr message)] ++ property "tree" tree
                          ++ [("parents", JArr [match parent with
                                                | Some j => j
                                                | None => JNull
                                                end])])%list).

(** The body of the update holds the new hash and [force: false], and
    nothing else. *)
Definition IsUpdateRef (githubToken : string) (sha : JsVal) (r : Request) : Prop :=
  method r = PATCH
  /\ url r = (GITHUB_API_URL env ++ "/repos/" ++ REPO_OWNER env ++ "/" ++ REPO_NAME env)
             ++ "/git/refs/heads/" ++ BRANCH_NAME env
  /\ headers r = [ ("Accept", "application/vnd.github+json");
                   ("Authorization", "Bearer " ++ githubToken);
                   ("X-GitHub-Api-Version", "2022-11-28");
                   ("Content-Type", "application/json") ]
  /\ body r = Some (JObj (property "sha" sha ++ [("force", JBool false)])%list).

(** What the request made after the calls [earlier] is: the step of its
    position, carrying the hashes the earlier answers gave. *)
Definition StepOf (githubToken message : string) (entries : list Json)
    (earlier : list Call) (r : Request) : Prop :=
  match earlier with
  | [] => IsGetRef githubToken r
  | [c1] =>
      exists baseSha,
        answered (snd c1) ["object"; "sha"] = Ok baseSha
        /\ IsGetCommit githubToken baseSha r
  | [c1; c2] =>
      exists baseTreeSha,
        answered (snd c2) ["tree"; "sha"] = Ok baseTreeSha
        /\ IsCreateTree githubToken baseTreeSha entries r
  | [c1; c2; c3] =>
      exists baseSha treeSha,
        answered (snd c1) ["object"; "sha"] = Ok baseSha
        /\ answered (snd c3) ["sha"] = Ok treeSha
        /\ IsCreateCommit githubToken message treeSha baseSha r
  | [c1; c2; c3; c4] =>
      exists newSha,
        answered (snd c4) ["sha"] = Ok newSha
        /\ IsUpdateRef githubToken newSha r
  | _ => False
  end.

(** The calls of a run are made in strict sequence: each request is
    made only after every earlier call was accepted, and is the step of
    its position; so there are at most five, none made twice. *)
Definition InSequence (githubToken message : string) (entries : list Json)
    (calls : list Call) : Prop :=
  forall earlier r a later,
    calls = (earlier ++ (r, a) :: later)%list ->
    allAccepted earlier /\ StepOf githubToken message entries earlier r.

(** A path without its leading separator, if it has one. *)
Definition withoutSeparator (filePath : string) : string :=
  match filePath with
  | String "/" rest => rest
  | _ => filePath
  end.

(** The local file [commit_files] reads for the path [filePath]: the
    file named by the path without its leading separator, if it had
    one, under the repository directory; or, when the path still begins
    with a separator, the file of that very name. *)
Definition fileRead (filePath : string) : string :=
  let path := withoutSeparator filePath in
  if Js.startsWith path "/" then path else Path.join (REPO_DIR env) path.

(** The tree entries of [commit_files] for the paths [files]: one entry
    for each path, in order; it holds the path without its leading
    separator, if it had one, and the content of the local file: the
    file of that name under the repository directory or, when the path
    still begins with a separator, the file of that very name. *)
Definition Written (files : list string) (entries : list Json) : Prop :=
  Forall2
    (fun filePath entry =>
       exists content,
         fs (fileRead filePath) = Ok content
         /\ entry = JObj [ ("path", JStr (withoutSeparator filePath));
                           ("mode", JStr "100644");
                           ("type", JStr "blob"); ("content", JStr content) ])
    files entries.

(** The paths [delete_files] works on, for the paths [paths] it was
    given: one for each, in order; the path itself when it is relative,
    and what follows the working directory and one more character when
    it begins with a separator and with the working directory. *)
Definition Relativised (paths processed : list string) : Prop :=
  Forall2
    (fun filePath path =>
       (Js.startsWith filePath "/" = false /\ path = filePath)
       \/ (Js.startsWith filePath "/" = true
           /\ Js.startsWith filePath (cwd env) = true
           /\ path = Js.slice filePath (String.length (cwd env) + 1)))
    paths processed.

(** The tree entries of [delete_files] for the paths [paths]: one entry
    with a null hash for each of the paths it works on. *)
Definition Deleted (paths : list string) (entries : list Json) : Prop :=
  exists processed,
    Relativised paths processed
    /\ entries = map (fun path => JObj [ ("path", JStr path); ("mode", JStr "100644");
                                         ("type", JStr "blob"); ("sha", JNull) ])
                     processed.

(** The result of a run that made the calls [calls] and worked on the
    paths [processed]: the hash, message, author and date the store
    answered to create-commit, one object for each path under [key], and
    the hash the store answered to create-tree. *)
Definition Reported (key : string) (processed : list string) (calls : list Call)
    (r : ToolResult) : Prop :=
  exists c1 c2 r3 a3 r4 a4 c5 sha msg name date treeSha,
    calls = [c1; c2; (r3, a3); (r4, a4); c5]
    /\ answered a4 ["sha"] = Ok sha
    /\ answered a4 ["message"] = Ok msg
    /\ answered a4 ["author"; "name"] = Ok name
    /\ answered a4 ["author"; "date"] = Ok date
    /\ answered a3 ["sha"] = Ok treeSha
    /\ r = {| content :=
                [TextContent (JSON_stringify (JObj
                   [ ("commit", JObj (property "sha" sha ++ property "message" msg
                                      ++ property "author" name
                                      ++ property "date" date)%list);
                     (key, JArr (map (fun path => JObj [("path", JStr path)])
                                   processed));
                     ("tree", JObj (property "sha" treeSha)) ]))];
              error := None; isError := None |}.

(** Only the fifth request of a run is a [PATCH], and it is the last. *)
Definition PatchesLast (calls : list Call) : Prop :=
  forall earlier r a later,
    calls = (earlier ++ (r, a) :: later)%list -> method r = PATCH ->
    length earlier = 4 /\ later = [].

(** A request that names parents names exactly one: what the first
    answer of the run gave as the commit of the branch. *)
Definition SingleParent (calls : list Call) : Prop :=
  forall c ps,
    In c calls -> parentsOf (fst c) = Some ps ->
    exists c1 rest baseSha,
      calls = c1 :: rest
      /\ answered (snd c1) ["object"; "sha"] = Ok baseSha
      /\ ps = [match baseSha with
               | Some j => j
               | None => JNull
               end].

(** The in-band error result with the message [message]. *)
Definition Reports (r : ToolResult) (message : string) : Prop :=
  r = {| content := [TextContent (Plain ("Error: " ++ message))];
         error := Some message;
         isError := Some true |}.

(** The in-band error result for what was thrown: the message of an
    [Error], the rendering of any other value. *)
Definition ReportsThrown (r : ToolResult) (e : Exn) : Prop :=
  match e with
  | JsError message => Reports r message
  | JsThrown rendering => Reports r rendering
  end.

(** How a run with result [r] and calls [calls] reports a call that
    failed.  A rejected [fetch] is reported as it is.  A response that
    is not 2xx is reported with the name of the step and the status
    code, and for create-tree, create-commit and update-ref with the
    text of the body as well. *)
Definition CallFailureReported (r : ToolResult) (calls : list Call) : Prop :=
  (forall earlier req e,
     calls = (earlier ++ [(req, Throw e)])%list -> ReportsThrown r e)
  /\ (forall earlier req resp,
        calls = (earlier ++ [(req, Ok resp)])%list -> ok resp = false ->
        match length earlier with
        | 0 => Reports r ("Failed to get branch reference: " ++ Js.ofNat (status resp))
        | 1 => Reports r ("Failed to get base commit: " ++ Js.ofNat (status resp))
        | n =>
            match text resp with
            | Ok t =>
                Reports r ((match n with
                            | 2 => "Failed to create tree: "
                            | 3 => "Failed to create commit: "
                            | _ => "Failed to update reference: "
                            end) ++ Js.ofNat (status resp) ++ " - " ++ t)
            | Throw e => ReportsThrown r e
            end
        end).

(** *** Atomicity, for a store whose branch is read by [tip] *)

(** What atomicity says of one run from [w] to [w'] with result [r]:
    the calls are made in strict sequence; while the first four are
    made, whatever their number, the branch stays where it was; at the
    end the branch is where it was unless all five calls were made and
    accepted, and then it is at the commit the store created in answer
    to the fourth, from the tree the store built from the entries
    [entries], which are those of the request ([entriesOf]); and a run
    whose result is not an error made all five calls and had them
    accepted. *)
Definition Atomic (tip : Store -> JsVal) (entriesOf : list Json -> Prop)
    (message : string) (w : World Store) (r : ToolResult) (w' : World Store) : Prop :=
  exists evs calls githubToken entries,
    Steps w w' evs calls
    /\ InSequence githubToken message entries calls
    /\ length calls <= 5
    /\ (forall n, n <= 4 ->
          tip (snd (exchange (map fst (firstn n calls)) (store w))) = tip (store w))
    /\ (~ (length calls = 5 /\ allAccepted calls) -> tip (store w') = tip (store w))
    /\ (length calls = 5 -> allAccepted calls ->
        exists c1 c2 c3 r4 a4 c5 newSha,
          calls = [c1; c2; c3; (r4, a4); c5]
          /\ entriesOf entries
          /\ answered a4 ["sha"] = Ok newSha
          /\ tip (store w') = newSha)
    /\ (isError r = Some true \/ (length calls = 5 /\ allAccepted calls)).

(** *** The single-request tools as one request *)

(** What a tool that makes the one request [req] does, for the token
    [githubToken]: [failed] is the prefix of its error message, [finish]
    what it makes of an accepted response. *)
Definition oneRequest (req : Request) (failed : string)
    (finish : Response -> Result ToolResult) (w : World Store)
  : ToolResult * World Store :=
  let (answer, s') := serve req (store w) in
  let w' := {| store := s'; trace := (trace w ++ [Fetched req])%list |} in
  match answer with
  | Throw e => (errorResult e, w')
  | Ok response =>
      if ok response then
        match finish response with
        | Ok r => (r, w')
        | Throw e => (errorResult e, w')
        end
      else
        match text response with
        | Ok t => (errorResult (JsError (failed ++ Js.ofNat (status response)
                                         ++ " - " ++ t)), w')
        | Throw e => (errorResult e, w')
        end
  end.

Definition noToken : ToolResult :=
  errorResult (JsError "GITHUB_TOKEN environment variable is required").

(** What is made of an accepted response. *)
Definition issueSummary (response : Response) : Result ToolResult :=
  match json response with Throw e => Throw e | Ok result =>
  match JsValue.getProp (Some result) "id" with Throw e => Throw e | Ok id =>
  match JsValue.getProp (Some result) "number" with Throw e => Throw e | Ok number =>
  match JsValue.getProp (Some result) "title" with Throw e => Throw e | Ok title =>
  match JsValue.getProp (Some result) "state" with Throw e => Throw e | Ok state =>
  match JsValue.getProp (Some result) "html_url" with Throw e => Throw e | Ok html_url =>
  match JsValue.getProp (Some result) "created_at" with Throw e => Throw e | Ok created_at =>
    Ok (successResult (JsValue.object
          [ ("id", id); ("number", number); ("title", title); ("state", state);
            ("html_url", html_url); ("created_at", created_at) ]))
  end end end end end end end.

Definition pullRequestSummary (response : Response) : Result ToolResult :=
  match json response with Throw e => Throw e | Ok result =>
  match JsValue.getProp (Some result) "id" with Throw e => Throw e | Ok id =>
  match JsValue.getProp (Some result) "number" with Throw e => Throw e | Ok number =>
  match JsValue.getProp (Some result) "title" with Throw e => Throw e | Ok title =>
  match JsValue.getProp (Some result) "state" with Throw e => Throw e | Ok state =>
  match JsValue.getProp (Some result) "html_url" with Throw e => Throw e | Ok html_url =>
  match JsValue.getProp (Some result) "head" with Throw e => Throw e | Ok headObject =>
  match JsValue.getProp headObject "ref" with Throw e => Throw e | Ok headRef =>
  match JsValue.getProp (Some result) "base" with Throw e => Throw e | Ok baseObject =>
  match JsValue.getProp baseObject "ref" with Throw e => Throw e | Ok baseRef =>
  match JsValue.getProp (Some result) "created_at" with Throw e => Throw e | Ok created_at =>
    Ok (successResult (JsValue.object
          [ ("id", id); ("number", number); ("title", title); ("state", state);
            ("html_url", html_url); ("head", headRef); ("base", baseRef);
            ("created_at", created_at) ]))
  end end end end end end end end end end end.

(** The comment tools only check that the body of the response is
    JSON. *)
Definition acknowledged (message : string) (response : Response) : Result ToolResult :=
  match json response with
  | Ok _ => Ok (textResult message)
  | Throw e => Throw e
  end.

Definition issueList (response : Response) : Result ToolResult :=
  match json response with
  | Throw e => Throw e
  | Ok issues =>
      match arrayMap "issues" (Some issues) simplifyIssue with
      | Ok simplifiedIssues => Ok (successResult (JsValue.element simplifiedIssues))
      | Throw e => Throw e
      end
  end.


(** *** What the tools are shown to do *)

(** [handler] makes the one request [req] and nothing else, whatever
    the store answers. *)
Definition MakesOnly (handler : World Store -> ToolResult * World Store)
    (req : Request) (w : World Store) : Prop :=
  snd (handler w)
  = {| store := snd (serve req (store w)); trace := (trace w ++ [Fetched req])%list |}.

(** [handler] reports a response to [req] that is not 2xx with the
    prefix [failed], the status code and the body text. *)
Definition ReportsRejection (handler : World Store -> ToolResult * World Store)
    (req : Request) (failed : string) (w : World Store) : Prop :=
  forall resp t,
    fst (serve req (store w)) = Ok resp -> ok resp = false -> text resp = Ok t ->
    fst (handler w)
    = {| content := [TextContent (Plain ("Error: " ++ failed ++ Js.ofNat (status resp)
                                         ++ " - " ++ t))];
         error := Some (failed ++ Js.ofNat (status resp) ++ " - " ++ t);
         isError := Some true |}.

(** [handler], once [req] was accepted with a body that is JSON,
    answers with the text [message] whatever that body holds; when the
    body cannot be parsed it reports the parse error although the
    request was accepted. *)
Definition Acknowledges (handler : World Store -> ToolResult * World Store)
    (req : Request) (message : string) (w : World Store) : Prop :=
  forall resp,
    fst (serve req (store w)) = Ok resp -> ok resp = true ->
    fst (handler w)
    = match json resp with
      | Ok _ => {| content := [TextContent (Plain message)];
                   error := None; isError := None |}
      | Throw e => errorResult e
      end.

(** ** Properties of the embedding *)

Lemma commit_files_is_mutation (files : list string) (message : string) :
  commit_files_try files message
  = mutation (Ok (map processFile files)) readTreeEntries "files" message.
Proof. reflexivity. Qed.

Lemma delete_files_is_mutation (paths : list string) (message : string) :
  delete_files_try paths message
  = mutation (processPaths paths) (fun ps => ret (map deleteEntry ps))
      "deletedFiles" message.
Proof. reflexivity. Qed.

Lemma requests_app (e1 e2 : list Event) :
  requests (e1 ++ e2) = (requests e1 ++ requests e2)%list.
Proof. unfold requests. apply flat_map_app. Qed.

Lemma exchange_app (r1 r2 : list Request) (s : Store) :
  exchange (r1 ++ r2) s
  = ((fst (exchange r1 s) ++ fst (exchange r2 (snd (exchange r1 s))))%list,
     snd (exchange r2 (snd (exchange r1 s)))).
Proof.
  revert s. induction r1 as [|r r1 IH]; intros s; simpl.
  - destruct (exchange r2 s); reflexivity.
  - destruct (serve r s) as [a s1]. rewrite IH.
    destruct (exchange r1 s1) as [c1 s2]. reflexivity.
Qed.

Lemma Steps_refl (w : World Store) : Steps w w [] [].
Proof. repeat split. symmetry; apply app_nil_r. Qed.

Lemma Steps_trans (w w1 w2 : World Store) (e1 e2 : list Event) (c1 c2 : list Call) :
  Steps w w1 e1 c1 -> Steps w1 w2 e2 c2 ->
  Steps w w2 (e1 ++ e2) (c1 ++ c2).
Proof.
  intros (T1 & R1 & X1) (T2 & R2 & X2). repeat split.
  - rewrite T2, T1. symmetry. apply app_assoc.
  - rewrite requests_app, R1, R2. symmetry. apply map_app.
  - rewrite map_app, exchange_app, X1. simpl. rewrite X2. reflexivity.
Qed.

Lemma Steps_offline (w : World Store) (evs : list Event) :
  requests evs = [] ->
  Steps w {| store := store w; trace := (trace w ++ evs)%list |} evs [].
Proof. intros R. repeat split. exact R. Qed.

(** *** One lemma per step: the call it makes and what its result says
    about the answer *)

Ltac unfold_step :=
  unfold bind, throwIf, ret, throw, lift, parsed, get, errorText, fetch,
    Steps, answered, accepted, failureOf, rejectionError, rejection;
  simpl.

Ltac split_props :=
  repeat match goal with
    | |- context [match JsValue.getProp ?v ?k with _ => _ end] =>
        destruct (JsValue.getProp v k) eqn:?; simpl
    end.

(** Case analysis on an answer: rejected [fetch], response that is not
    2xx (with or without a readable body text), 2xx response (with or
    without a JSON body). *)
Ltac split_answer a :=
  let resp := fresh "resp" in
  destruct a as [resp | ?]; simpl;
  [ destruct (ok resp) eqn:?; simpl;
    [ try (destruct (json resp); simpl) | try (destruct (text resp); simpl) ]
  | ].

Ltac close_step :=
  simpl; repeat split; auto; try discriminate;
  try (intros ? [= <-]; reflexivity).

Arguments JsValue.getProp : simpl never.

Lemma getBranchReference_run (githubToken : string) (w : World Store) :
  exists a,
    Steps w (snd (getBranchReference githubToken w))
      [Fetched (getRefRequest githubToken)] [(getRefRequest githubToken, a)]
    /\ match fst (getBranchReference githubToken w) with
       | Ok baseSha => accepted a = true /\ answered a ["object"; "sha"] = Ok baseSha
       | Throw e => forall e', failureOf 1 a = Some e' -> e = e'
       end.
Proof.
  unfold getBranchReference. unfold_step.
  destruct (serve (getRefRequest githubToken) (store w)) as [a s1] eqn:E.
  exists a. split_answer a; split_props; close_step.
Qed.

Lemma getBaseCommit_run (githubToken : string) (baseSha : JsVal) (w : World Store) :
  exists a,
    Steps w (snd (getBaseCommit githubToken baseSha w))
      [Fetched (getCommitRequest githubToken baseSha)]
      [(getCommitRequest githubToken baseSha, a)]
    /\ match fst (getBaseCommit githubToken baseSha w) with
       | Ok baseTreeSha => accepted a = true /\ answered a ["tree"; "sha"] = Ok baseTreeSha
       | Throw e =>
           (forall e', failureOf 2 a = Some e' -> e = e')
           /\ (accepted a = true -> answered a ["tree"; "sha"] = Throw e)
       end.
Proof.
  unfold getBaseCommit. unfold_step.
  destruct (serve (getCommitRequest githubToken baseSha) (store w)) as [a s1] eqn:E.
  exists a. split_answer a; split_props; close_step.
Qed.

Lemma createTree_run (githubToken : string) (baseTreeSha : JsVal)
    (treeEntries : list Json) (w : World Store) :
  exists a,
    Steps w (snd (createTree githubToken baseTreeSha treeEntries w))
      [Fetched (createTreeRequest githubToken baseTreeSha treeEntries)]
      [(createTreeRequest githubToken baseTreeSha treeEntries, a)]
    /\ match fst (createTree githubToken baseTreeSha treeEntries w) with
       | Ok treeData => accepted a = true /\ answered a [] = Ok treeData
       | Throw e => forall e', failureOf 3 a = Some e' -> e = e'
       end.
Proof.
  unfold createTree. unfold_step.
  destruct (serve (createTreeRequest githubToken baseTreeSha treeEntries) (store w))
    as [a s1] eqn:E.
  exists a. split_answer a; split_props; close_step.
Qed.

Lemma createCommit_run (githubToken message : string) (treeData baseSha : JsVal)
    (w : World Store) :
  match JsValue.getProp treeData "sha" with
  | Throw e => createCommit githubToken message treeData baseSha w = (Throw e, w)
  | Ok treeSha =>
      exists a,
        Steps w (snd (createCommit githubToken message treeData baseSha w))
          [Fetched (createCommitRequest githubToken message treeSha baseSha)]
          [(createCommitRequest githubToken message treeSha baseSha, a)]
        /\ match fst (createCommit githubToken message treeData baseSha w) with
           | Ok newCommitData => accepted a = true /\ answered a [] = Ok newCommitData
           | Throw e => forall e', failureOf 4 a = Some e' -> e = e'
           end
  end.
Proof.
  unfold createCommit. unfold_step.
  destruct (JsValue.getProp treeData "sha") as [treeSha | e]; [|reflexivity].
  destruct (serve (createCommitRequest githubToken message treeSha baseSha) (store w))
    as [a s1] eqn:E.
  exists a. split_answer a; split_props; close_step.
Qed.

Lemma updateReference_run (githubToken : string) (newCommitData : JsVal) (w : World Store) :
  match JsValue.getProp newCommitData "sha" with
  | Throw e => updateReference githubToken newCommitData w = (Throw e, w)
  | Ok newSha =>
      exists a,
        Steps w (snd (updateReference githubToken newCommitData w))
          [Fetched (updateRefRequest githubToken newSha)]
          [(updateRefRequest githubToken newSha, a)]
        /\ match fst (updateReference githubToken newCommitData w) with
           | Ok _ => accepted a = true
           | Throw e => forall e', failureOf 5 a = Some e' -> e = e'
           end
  end.
Proof.
  unfold updateReference. unfold_step.
  destruct (JsValue.getProp newCommitData "sha") as [newSha | e]; [|reflexivity].
  destruct (serve (updateRefRequest githubToken newSha) (store w)) as [a s1] eqn:E.
  exists a. split_answer a; split_props; close_step.
Qed.

(** The summary performs no effect. *)
Lemma commitSummary_world (newCommitData : JsVal) (w : World Store) :
  snd (commitSummary newCommitData w) = w.
Proof. unfold commitSummary. unfold_step. split_props; reflexivity. Qed.

Lemma answered_sha (a : Result Response) (data sha : JsVal) :
  answered a [] = Ok data -> JsValue.getProp data "sha" = Ok sha ->
  answered a ["sha"] = Ok sha.
Proof.
  unfold answered. destruct a as [resp|e]; [|discriminate].
  destruct (json resp); [|discriminate]. simpl.
  intros [= <-] ->. reflexivity.
Qed.

Lemma bind_eq {A B : Type} (m : M A) (k : A -> M B) (w : World Store) :
  bind m k w
  = match m w with
    | (Ok a, w') => k a w'
    | (Throw e, w') => (Throw e, w')
    end.
Proof. reflexivity. Qed.

Lemma bind_ret {A B : Type} (a : A) (k : A -> M B) (w : World Store) :
  bind (ret a) k w = k a w.
Proof. reflexivity. Qed.

Lemma bind_lift {A B : Type} (r : Result A) (k : A -> M B) (w : World Store) :
  bind (lift r) k w
  = match r with
    | Ok a => k a w
    | Throw e => (Throw e, w)
    end.
Proof. destruct r; reflexivity. Qed.

Lemma failureOf_accepted (step : nat) (a : Result Response) :
  accepted a = true -> failureOf step a = None.
Proof.
  destruct a as [resp|e]; simpl; [|discriminate]. intros ->. reflexivity.
Qed.

Ltac not_ready :=
  let Hc := fresh "Hc" in
  intros ? (? & ? & ? & ? & Hc & _); simpl in Hc; discriminate Hc.

Lemma reads_app (e1 e2 : list Event) :
  reads (e1 ++ e2) = (reads e1 ++ reads e2)%list.
Proof. unfold reads. apply flat_map_app. Qed.

Lemma reads_fetched (rs : list Request) : reads (map Fetched rs) = [].
Proof. induction rs as [|r rs IH]; simpl; auto. Qed.

Lemma reads_read (ps : list string) : reads (map ReadFile ps) = ps.
Proof. induction ps as [|p ps IH]; simpl; [|rewrite IH]; reflexivity. Qed.

Lemma offline_events (evs : list Event) :
  requests evs = [] -> evs = map ReadFile (reads evs).
Proof.
  induction evs as [|[r|p] evs IH]; simpl; intros R.
  - reflexivity.
  - discriminate.
  - rewrite <- IH by exact R. reflexivity.
Qed.

Lemma answered_path (a : Result Response) (data v : JsVal) (ks : list string) :
  answered a [] = Ok data -> getPath data ks = Ok v -> answered a ks = Ok v.
Proof.
  unfold answered. destruct a as [resp|e]; [|discriminate].
  destruct (json resp); [|discriminate]. simpl. intros [= <-] H. exact H.
Qed.

(** What the summary is made of. *)
Lemma commitSummary_value (newCommitData commit : JsVal) (w : World Store) :
  fst (commitSummary newCommitData w) = Ok commit ->
  exists sha msg name date,
    getPath newCommitData ["sha"] = Ok sha
    /\ getPath newCommitData ["message"] = Ok msg
    /\ getPath newCommitData ["author"; "name"] = Ok name
    /\ getPath newCommitData ["author"; "date"] = Ok date
    /\ commit = Some (JObj (property "sha" sha ++ property "message" msg
                            ++ property "author" name ++ property "date" date)%list).
Proof.
  unfold commitSummary, get, bind, lift, ret. cbn [getPath].
  destruct (JsValue.getProp newCommitData "sha") as [sha|]; [|discriminate].
  destruct (JsValue.getProp newCommitData "message") as [msg|]; [|discriminate].
  destruct (JsValue.getProp newCommitData "author") as [author|]; [|discriminate].
  destruct (JsValue.getProp author "name") as [name|]; [|discriminate].
  destruct (JsValue.getProp author "date") as [date|]; [|discriminate].
  cbn [fst]. intros [= <-]. exists sha, msg, name, date.
  repeat split. destruct sha, msg, name, date; reflexivity.
Qed.

Ltac early_effects := split; [reflexivity | left; reflexivity].

Ltac late_effects processed A1 A2 :=
  split;
  [ cbn [firstn skipn map fst]; rewrite ?reads_app, ?reads_read;
    cbn [reads flat_map app map]; rewrite ?app_nil_r, <- ?app_assoc; reflexivity
  | right; eexists processed, _, _, _;
    split; [reflexivity|]; split; [reflexivity|];
    split; [exact A1|]; split; [exact A2|];
    rewrite ?reads_app, ?reads_read; cbn [reads flat_map app];
    rewrite ?app_nil_r; reflexivity ].

Ltac no_summary := let H := fresh in intros ? H; discriminate H.

Ltac reads_done :=
  intros _; split; [reflexivity|];
  rewrite ?reads_app; simpl; rewrite ?app_nil_r; assumption.

(** *** The run of a mutation

    Whatever the store answers, a mutation performs a legal transcript;
    it returns a result only after all five calls were accepted, and
    when the last call failed it ends with that failure. *)
Lemma mutation_run (prepare : Result (list string))
    (entriesOf : list string -> M (list Json))
    (pure : list string -> Result (list Json))
    (local : list string -> list string) (key message : string) (w : World Store) :
  (forall ps, Offline (entriesOf ps) (pure ps) (local ps)) ->
  exists evs calls,
    Steps w (snd (mutation prepare entriesOf key message w)) evs calls
    /\ Effects local prepare evs calls
    /\ (forall r', fst (mutation prepare entriesOf key message w) = Ok r' ->
          Summary key prepare calls r')
    /\ match credential, prepare with
       | Some githubToken, Ok processed =>
           exists treeEntries,
             Transcript githubToken message treeEntries calls
             /\ calls <> []
             /\ (2 < length calls ->
                 pure processed = Ok treeEntries /\ reads evs = local processed)
       | _, _ => calls = []
       end
    /\ match fst (mutation prepare entriesOf key message w) with
       | Ok _ => length calls = 5 /\ allAccepted calls
       | Throw e =>
           match credential, prepare with
           | None, _ => e = JsError "GITHUB_TOKEN environment variable is required"
           | Some _, Throw e0 => e = e0
           | Some _, Ok processed =>
               (forall e', failure calls = Some e' -> e = e')
               /\ (forall e', readyForEntries calls ->
                     pure processed = Throw e' -> e = e')
           end
       end.
Proof.
  intros Hoff. unfold mutation, credential, requireToken.
  destruct (GITHUB_TOKEN env) as [t|];
    [destruct (String.eqb t "")|];
    try (exists [], []; unfold bind, throw; simpl;
         split; [apply Steps_refl|]; split; [early_effects|];
         split; [no_summary | split; reflexivity]).
  rewrite bind_ret, bind_lift.
  destruct prepare as [processed | e0];
    [| exists [], []; simpl; split; [apply Steps_refl|]; split; [early_effects|];
       split; [no_summary | split; reflexivity]].
  (* 1. get-ref *)
  rewrite bind_eq.
  destruct (getBranchReference_run t w) as (a1 & S1 & P1).
  destruct (getBranchReference t w) as [[baseSha | e1] w1]; cbn [fst snd] in *.
  2:{ eexists _, _. split; [exact S1|]. split; [early_effects|].
      split; [no_summary|]. split.
      - exists []. split; [constructor|]. split; [discriminate | simpl; lia].
      - split; [exact P1 | not_ready]. }
  destruct P1 as [A1 B1].
  (* 2. get-commit *)
  rewrite bind_eq.
  destruct (getBaseCommit_run t baseSha w1) as (a2 & S2 & P2).
  destruct (getBaseCommit t baseSha w1) as [[baseTreeSha | e2] w2]; cbn [fst snd] in *.
  2:{ eexists _, _. split; [exact (Steps_trans S1 S2)|]. split; [early_effects|].
      split; [no_summary|]. split.
      - exists []. split; [econstructor; eassumption|].
        split; [discriminate | simpl; lia].
      - split; [exact (proj1 P2)|].
        intros e' (c1 & r2 & a2' & v & Hc & Ha & Hv) _. simpl in Hc.
        injection Hc as _ _ <-. rewrite (proj2 P2 Ha) in Hv. discriminate. }
  destruct P2 as [A2 B2].
  (* 3. tree entries *)
  rewrite bind_eq.
  destruct (Hoff processed w2) as (evs3 & E3 & R3 & L3). rewrite E3.
  pose proof (offline_events _ R3) as V3. rewrite L3 in V3. subst evs3.
  pose proof (Steps_trans (Steps_trans S1 S2) (Steps_offline w2 _ R3)) as S3.
  set (w3 := {| store := store w2;
                trace := (trace w2 ++ map ReadFile (local processed))%list |}) in *.
  destruct (pure processed) as [treeEntries | e3].
  2:{ eexists _, _. split; [exact S3|]. split; [late_effects processed A1 A2|].
      split; [no_summary|]. split.
      - exists []. split; [econstructor; eassumption|].
        split; [discriminate | simpl; lia].
      - split; [|intros e' _ [= <-]; reflexivity].
        simpl. unfold failure. simpl. rewrite failureOf_accepted by exact A2.
        discriminate. }
  (* 4. create-tree *)
  rewrite bind_eq.
  destruct (createTree_run t baseTreeSha treeEntries w3) as (a3 & S4 & P4).
  destruct (createTree t baseTreeSha treeEntries w3) as [[treeData | e4] w4];
    cbn [fst snd] in *.
  2:{ eexists _, _. split; [exact (Steps_trans S3 S4)|]. split; [late_effects processed A1 A2|].
      split; [no_summary|]. split.
      - exists treeEntries. split; [econstructor; eassumption|].
        split; [discriminate | reads_done].
      - split; [exact P4 | not_ready]. }
  destruct P4 as [A3 B3].
  pose proof (Steps_trans S3 S4) as S4'.
  (* 5. create-commit *)
  rewrite bind_eq.
  pose proof (createCommit_run t message treeData baseSha w4) as P5.
  destruct (JsValue.getProp treeData "sha") as [treeSha | e5] eqn:G5.
  2:{ rewrite P5. eexists _, _. split; [exact S4'|]. split; [late_effects processed A1 A2|].
      split; [no_summary|]. split.
      - exists treeEntries. split; [econstructor; eassumption|].
        split; [discriminate | reads_done].
      - split; [|not_ready].
        simpl. unfold failure. simpl. rewrite failureOf_accepted by exact A3.
        discriminate. }
  destruct P5 as (a4 & S5 & P5).
  destruct (createCommit t message treeData baseSha w4) as [[newCommitData | e5] w5];
    cbn [fst snd] in *.
  2:{ eexists _, _. split; [exact (Steps_trans S4' S5)|]. split; [late_effects processed A1 A2|].
      split; [no_summary|]. split.
      - exists treeEntries. split.
        + econstructor; try eassumption. eapply answered_sha; eassumption.
        + split; [discriminate | reads_done].
      - split; [exact P5 | not_ready]. }
  destruct P5 as [A4 B4].
  pose proof (Steps_trans S4' S5) as S5'.
  pose proof (answered_sha _ B3 G5) as B3'.
  (* 6. update-ref *)
  rewrite bind_eq.
  pose proof (updateReference_run t newCommitData w5) as P6.
  destruct (JsValue.getProp newCommitData "sha") as [newSha | e6] eqn:G6.
  2:{ rewrite P6. eexists _, _. split; [exact S5'|]. split; [late_effects processed A1 A2|].
      split; [no_summary|]. split.
      - exists treeEntries. split; [econstructor; eassumption|].
        split; [discriminate | reads_done].
      - split; [|not_ready].
        simpl. unfold failure. simpl. rewrite failureOf_accepted by exact A4.
        discriminate. }
  destruct P6 as (a5 & S6 & P6).
  pose proof (Steps_trans S5' S6) as S6'.
  pose proof (answered_sha _ B4 G6) as B4'.
  assert (T : Transcript t message treeEntries
                [(getRefRequest t, a1); (getCommitRequest t baseSha, a2);
                 (createTreeRequest t baseTreeSha treeEntries, a3);
                 (createCommitRequest t message treeSha baseSha, a4);
                 (updateRefRequest t newSha, a5)])
    by (econstructor; eassumption).
  destruct (updateReference t newCommitData w5) as [[[] | e6] w6]; cbn [fst snd] in *.
  2:{ eexists _, _. split; [exact S6'|]. split; [late_effects processed A1 A2|].
      split; [no_summary|]. split.
      - exists treeEntries. split; [exact T|].
        split; [discriminate | reads_done].
      - split; [exact P6 | not_ready]. }
  (* the summary *)
  rewrite bind_eq.
  pose proof (commitSummary_world newCommitData w6) as W7.
  pose proof (fun c => @commitSummary_value newCommitData c w6) as V7.
  destruct (commitSummary newCommitData w6) as [r7 w7]. cbn [fst snd] in W7, V7. subst w7.
  assert (A : allAccepted
                [(getRefRequest t, a1); (getCommitRequest t baseSha, a2);
                 (createTreeRequest t baseTreeSha treeEntries, a3);
                 (createCommitRequest t message treeSha baseSha, a4);
                 (updateRefRequest t newSha, a5)])
    by (repeat constructor; assumption).
  assert (F : forall e', failure
                [(getRefRequest t, a1); (getCommitRequest t baseSha, a2);
                 (createTreeRequest t baseTreeSha treeEntries, a3);
                 (createCommitRequest t message treeSha baseSha, a4);
                 (updateRefRequest t newSha, a5)] = Some e' -> False).
  { intros e'. unfold failure. simpl. rewrite failureOf_accepted by exact P6. discriminate. }
  destruct r7 as [commit | e7].
  2:{ eexists _, _. split; [exact S6'|]. split; [late_effects processed A1 A2|].
      split; [no_summary|]. split.
      - exists treeEntries. split; [exact T|]. split; [discriminate | reads_done].
      - split; [|not_ready]. simpl. intros e' H. destruct (F e' H). }
  unfold get. rewrite bind_lift, G5. unfold ret.
  eexists _, _. split; [exact S6'|]. split; [late_effects processed A1 A2|].
  split.
  { cbn [fst]. intros r' [= <-].
    destruct (V7 commit eq_refl) as (sha & msg & name & date & Vs & Vm & Vn & Vd & ->).
    exists processed, (getRefRequest t, a1), (getCommitRequest t baseSha, a2),
      (createTreeRequest t baseTreeSha treeEntries), a3,
      (createCommitRequest t message treeSha baseSha), a4,
      (updateRefRequest t newSha, a5), sha, msg, name, date, treeSha.
    split; [reflexivity|]. split; [reflexivity|].
    split; [exact (@answered_path _ _ _ _ B4 Vs)|].
    split; [exact (@answered_path _ _ _ _ B4 Vm)|].
    split; [exact (@answered_path _ _ _ _ B4 Vn)|].
    split; [exact (@answered_path _ _ _ _ B4 Vd)|].
    split; [exact B3'|].
    destruct treeSha; reflexivity. }
  split.
  - exists treeEntries. split; [exact T|]. split; [discriminate | reads_done].
  - simpl. split; [reflexivity | exact A].
Qed.

(** *** The two ways of obtaining tree entries make no request *)

Lemma readTreeEntries_offline (ps : list string) :
  Offline (readTreeEntries ps) (allRead ps) (map fullPath ps).
Proof.
  intros w. exists (map (fun p => ReadFile (fullPath p)) ps). split; [reflexivity|].
  unfold requests, reads. split; induction ps as [|p ps IH]; simpl; auto.
  rewrite IH. reflexivity.
Qed.

Lemma ret_offline {A : Type} (a : A) : Offline (ret a) (Ok a) [].
Proof.
  intros w. exists []. split; [|split; reflexivity].
  unfold ret. rewrite app_nil_r. destruct w; reflexivity.
Qed.

(** *** [Promise.all] *)

Lemma firstRejection_none {A : Type} (promises : list (nat * Result A)) :
  firstRejection promises = None ->
  Forall2 (fun p a => snd p = Ok a) promises (fulfilled promises).
Proof.
  induction promises as [|[moment [a|e]] rest IH]; simpl; intros H.
  - constructor.
  - constructor; [reflexivity | exact (IH H)].
  - destruct (firstRejection rest) as [[moment' e']|]; [|discriminate].
    destruct (Nat.ltb moment' moment); discriminate.
Qed.

Lemma firstRejection_some {A : Type} (promises : list (nat * Result A))
    (moment : nat) (e : Exn) :
  firstRejection promises = Some (moment, e) ->
  In (moment, Throw e) promises
  /\ forall moment' e', In (moment', Throw e') promises -> moment <= moment'.
Proof.
  revert moment e.
  induction promises as [|[m [a|e0]] rest IH]; simpl; intros moment e H.
  - discriminate.
  - destruct (IH _ _ H) as [I L]. split; [right; exact I|].
    intros moment' e' [X | X]; [discriminate | eauto].
  - destruct (firstRejection rest) as [[m1 e1]|] eqn:F.
    + destruct (IH _ _ eq_refl) as [I L].
      destruct (Nat.ltb m1 m) eqn:C; injection H as <- <-.
      * apply Nat.ltb_lt in C. split; [right; exact I|].
        intros moment' e' [[= <- <-] | X]; [lia | eauto].
      * apply Nat.ltb_ge in C. split; [left; reflexivity|].
        intros moment' e' [[= <- <-] | X]; [lia|].
        specialize (L _ _ X). lia.
    + injection H as <- <-. split; [left; reflexivity|].
      intros moment' e' [[= <- <-] | X]; [lia|].
      exfalso. clear IH. induction rest as [|[m2 [a2|e2]] rest IH2]; simpl in *.
      * contradiction.
      * destruct X as [X | X]; [discriminate | auto].
      * destruct (firstRejection rest) as [[m3 e3]|]; [|discriminate].
        destruct (Nat.ltb m3 m2); discriminate.
Qed.

(** When [Promise.all] is fulfilled every promise was, and the values
    come in the order of the promises. *)
Lemma Promise_all_fulfilled {A : Type} (promises : list (nat * Result A)) (l : list A) :
  Promise_all promises = Ok l -> Forall2 (fun p a => snd p = Ok a) promises l.
Proof.
  unfold Promise_all. destruct (firstRejection promises) as [[moment e]|] eqn:F;
    [discriminate|].
  intros [= <-]. apply firstRejection_none. exact F.
Qed.

(** When [Promise.all] is rejected, it is with the rejection of one of
    the promises, and no promise was rejected before that one. *)
Lemma Promise_all_rejected {A : Type} (promises : list (nat * Result A)) (e : Exn) :
  Promise_all promises = Throw e ->
  exists moment,
    In (moment, Throw e) promises
    /\ forall moment' e', In (moment', Throw e') promises -> moment <= moment'.
Proof.
  unfold Promise_all. destruct (firstRejection promises) as [[moment e0]|] eqn:F;
    [|discriminate].
  intros [= <-]. exists moment. apply firstRejection_some. exact F.
Qed.

(** One rejected promise is enough for [Promise.all] to be rejected. *)
Lemma Promise_all_rejects {A : Type} (promises : list (nat * Result A))
    (moment : nat) (e : Exn) :
  In (moment, Throw e) promises -> exists e', Promise_all promises = Throw e'.
Proof.
  intros I. destruct (Promise_all promises) as [l|e'] eqn:P; [|eauto].
  apply Promise_all_fulfilled in P. exfalso. revert I.
  induction P as [|p a ps l' Hp P IH]; simpl; [tauto|].
  intros [-> | I]; [discriminate | auto].
Qed.

(** What [commit_files] has in hand when all the reads are fulfilled:
    one entry for each processed path, in order, holding the path and
    the content of the file read for it. *)
Lemma allRead_entries (ps : list string) (entries : list Json) :
  allRead ps = Ok entries ->
  Forall2 (fun p entry => exists content,
             fs (fullPath p) = Ok content /\ entry = writeEntry p content)
    ps entries.
Proof.
  intros H. apply Promise_all_fulfilled in H. revert entries H.
  induction ps as [|p ps IH]; intros entries H; inversion H; subst; constructor.
  - unfold startRead, readEntry in *. cbn [snd] in *.
    destruct (fs (fullPath p)) as [content|]; [|discriminate].
    exists content. split; [reflexivity | congruence].
  - apply IH. assumption.
Qed.

Lemma catch_fst (body : M ToolResult) (w : World Store) :
  fst (catch body w)
  = match fst (body w) with
    | Ok r => r
    | Throw e => errorResult e
    end.
Proof. unfold catch. destruct (body w) as [[r|e] w']; reflexivity. Qed.

Lemma catch_snd (body : M ToolResult) (w : World Store) :
  snd (catch body w) = snd (body w).
Proof. unfold catch. destruct (body w) as [[r|e] w']; reflexivity. Qed.

(** *** Facts about transcripts *)

Lemma Transcript_length (githubToken message : string) (treeEntries : list Json)
    (calls : list Call) :
  Transcript githubToken message treeEntries calls -> length calls <= 5.
Proof. intros T; inversion T; simpl; lia. Qed.

(** *** The run of each handler *)

Lemma mutation_handler_run (prepare : Result (list string))
    (entriesOf : list string -> M (list Json))
    (pure : list string -> Result (list Json))
    (local : list string -> list string) (key message : string) (w : World Store) :
  (forall ps, Offline (entriesOf ps) (pure ps) (local ps)) ->
  Run prepare pure local key message (mutation prepare entriesOf key message) w
    (fst (catch (mutation prepare entriesOf key message) w))
    (snd (catch (mutation prepare entriesOf key message) w)).
Proof.
  intros Hoff.
  destruct (@mutation_run prepare entriesOf pure local key message w Hoff)
    as (evs & calls & S & E & U & P & Q).
  rewrite catch_fst, catch_snd. exists evs, calls.
  split; [exact S|]. split; [exact E|]. split; [exact U|]. split; [exact P|].
  destruct (fst (mutation prepare entriesOf key message w)); auto.
Qed.

Lemma commit_files_run (files : list string) (message : string) (w : World Store) :
  Run (Ok (map processFile files)) allRead (map fullPath) "files" message
    (commit_files_try files message) w
    (fst (commit_files files message w)) (snd (commit_files files message w)).
Proof.
  unfold commit_files. rewrite commit_files_is_mutation.
  apply mutation_handler_run. apply readTreeEntries_offline.
Qed.

Lemma delete_files_run (paths : list string) (message : string) (w : World Store) :
  Run (processPaths paths) (fun ps => Ok (map deleteEntry ps))
    (fun _ => []) "deletedFiles" message (delete_files_try paths message) w
    (fst (delete_files paths message w)) (snd (delete_files paths message w)).
Proof.
  unfold delete_files. rewrite delete_files_is_mutation.
  apply mutation_handler_run. intros ps. apply ret_offline.
Qed.

Lemma failure_last (calls : list Call) (req : Request) (a : Result Response) :
  failure (calls ++ [(req, a)]) = failureOf (length calls + 1) a.
Proof.
  unfold failure. rewrite rev_app_distr, length_app. reflexivity.
Qed.

(** *** Failures are what the handler reports *)

Lemma allAccepted_failure (calls : list Call) :
  allAccepted calls -> failure calls = None.
Proof.
  intros A. unfold failure.
  assert (R : Forall (fun c : Call => accepted (snd c) = true) (List.rev calls))
    by (apply Forall_rev; exact A).
  destruct (List.rev calls) as [|[req a] rest]; [reflexivity|].
  apply failureOf_accepted. inversion R; assumption.
Qed.

Lemma Run_failure (prepare : Result (list string))
    (pure : list string -> Result (list Json))
    (local : list string -> list string) (key message : string)
    (body : M ToolResult) (w : World Store) (r : ToolResult) (w' : World Store) :
  Run prepare pure local key message body w r w' ->
  match fst (body w) with
  | Ok r' => r = r'
  | Throw e => r = errorResult e
  end.
Proof.
  intros (evs & calls & _ & _ & _ & _ & Q).
  destruct (fst (body w)); destruct Q as (-> & _); reflexivity.
Qed.

(** *** Path processing *)

Lemma startsWith_slash (p : string) : Js.startsWith (String "/" p) "/" = true.
Proof. unfold Js.startsWith. simpl. destruct p; reflexivity. Qed.

Lemma processFile_absolute (p : string) : processFile (String "/" p) = p.
Proof. unfold processFile. rewrite startsWith_slash. destruct p; reflexivity. Qed.



Lemma prefix_append (a b : string) : String.prefix a (a ++ b) = true.
Proof.
  induction a as [|c a IH]; simpl.
  - destruct b; reflexivity.
  - destruct (ascii_dec c c); [exact IH | congruence].
Qed.

Lemma slice_append (a b : string) : Js.slice (a ++ b) (String.length a) = b.
Proof. induction a as [|c a IH]; simpl; [destruct b; reflexivity | exact IH]. Qed.

Lemma prefix_append_r (p a b : string) :
  String.prefix p a = true -> String.prefix p (a ++ b) = true.
Proof.
  revert p. induction a as [|c a IH]; intros [|x p]; simpl; try discriminate.
  - destruct b; reflexivity.
  - reflexivity.
  - destruct (ascii_dec x c); [apply IH | discriminate].
Qed.

Lemma length_append (a b : string) :
  String.length (a ++ b) = String.length a + String.length b.
Proof. induction a as [|x a IH]; simpl; [reflexivity | rewrite IH; reflexivity]. Qed.

Lemma append_assoc (a b c : string) : (a ++ b) ++ c = a ++ (b ++ c).
Proof. induction a as [|x a IH]; simpl; [reflexivity | rewrite IH; reflexivity]. Qed.

(** An absolute path below the working directory loses the directory
    and the separator after it. *)
Lemma processPath_below_cwd (rest : string) :
  Js.startsWith (cwd env) "/" = true ->
  processPath (cwd env ++ "/" ++ rest) = Ok rest.
Proof.
  intros A. unfold processPath, Js.startsWith in *.
  rewrite prefix_append_r by exact A. rewrite prefix_append.
  rewrite <- append_assoc.
  replace (String.length (cwd env) + 1) with (String.length (cwd env ++ "/"))
    by (rewrite length_append; reflexivity).
  rewrite slice_append. reflexivity.
Qed.

(** An absolute path that does not begin with the working directory is
    rejected, and the handler makes no request. *)
Lemma delete_files_rejects_outside (githubToken filePath message : string)
    (w : World Store) :
  credential = Some githubToken ->
  Js.startsWith filePath "/" = true ->
  Js.startsWith filePath (cwd env) = false ->
  processPath filePath = Throw (pathError filePath)
  /\ delete_files [filePath] message w = (errorResult (pathError filePath), w).
Proof.
  intros C A B.
  assert (P : processPath filePath = Throw (pathError filePath))
    by (unfold processPath; rewrite A, B; reflexivity).
  split; [exact P|].
  unfold delete_files, catch, delete_files_try, requireToken.
  unfold credential in C.
  destruct (GITHUB_TOKEN env) as [t|]; [|discriminate].
  destruct (String.eqb t ""); [discriminate|].
  rewrite bind_ret, bind_lift. simpl. rewrite P. reflexivity.
Qed.

(** *** The requests as the handlers build them *)

Lemma getRefRequest_is (githubToken : string) :
  IsGetRef githubToken (getRefRequest githubToken).
Proof. repeat split. Qed.

Lemma getCommitRequest_is (githubToken : string) (baseSha : JsVal) :
  IsGetCommit githubToken baseSha (getCommitRequest githubToken baseSha).
Proof. repeat split. Qed.

Lemma createTreeRequest_is (githubToken : string) (baseTreeSha : JsVal)
    (entries : list Json) :
  IsCreateTree githubToken baseTreeSha entries
    (createTreeRequest githubToken baseTreeSha entries).
Proof. repeat split. destruct baseTreeSha; reflexivity. Qed.

Lemma createCommitRequest_is (githubToken message : string) (treeSha baseSha : JsVal) :
  IsCreateCommit githubToken message treeSha baseSha
    (createCommitRequest githubToken message treeSha baseSha).
Proof. repeat split. destruct treeSha, baseSha; reflexivity. Qed.

Lemma updateRefRequest_is (githubToken : string) (newSha : JsVal) :
  IsUpdateRef githubToken newSha (updateRefRequest githubToken newSha).
Proof. repeat split. destruct newSha; reflexivity. Qed.

Lemma Transcript_in_sequence (githubToken message : string) (entries : list Json)
    (calls : list Call) :
  Transcript githubToken message entries calls ->
  InSequence githubToken message entries calls.
Proof.
  intros T earlier r a later E. rewrite E in T. clear E calls.
  unfold allAccepted.
  destruct earlier as [|c1 [|c2 [|c3 [|c4 [|c5 rest]]]]]; simpl in T;
    inversion T; subst;
    try match goal with
        | H : [] = (_ ++ _ :: _)%list |- _ => destruct (app_cons_not_nil _ _ _ H)
        end;
    (split; [repeat (constructor; try assumption)|]); simpl.
  all: repeat match goal with
              | |- exists _, _ => eexists
              | |- _ /\ _ => split
              end; try eassumption;
       auto using getRefRequest_is, getCommitRequest_is, createTreeRequest_is,
         createCommitRequest_is, updateRefRequest_is.
Qed.

Lemma errorResult_reports (e : Exn) : ReportsThrown (errorResult e) e.
Proof. destruct e; reflexivity. Qed.

(** *** What a run is, request by request *)

Lemma Run_rejection (prepare : Result (list string))
    (pure : list string -> Result (list Json))
    (local : list string -> list string) (key message : string)
    (body : M ToolResult) (w : World Store) (r : ToolResult) (w' : World Store) :
  Run prepare pure local key message body w r w' ->
  exists evs calls, Steps w w' evs calls /\ RejectionReported r calls.
Proof.
  intros (evs & calls & S & _ & _ & P & Q). exists evs, calls. split; [exact S|].
  assert (F : forall e, failure calls = Some e -> r = errorResult e).
  { intros e F. destruct (fst (body w)) as [r'|e0].
    - destruct Q as (_ & _ & A). rewrite (allAccepted_failure A) in F. discriminate.
    - destruct Q as (-> & Q).
      destruct credential; [destruct prepare|]; try (subst calls; discriminate).
      destruct Q as (Q & _). rewrite (Q e F). reflexivity. }
  split.
  - intros earlier req resp -> O. apply F. rewrite failure_last, length_app.
    simpl. rewrite O. reflexivity.
  - intros earlier req e ->. apply F. rewrite failure_last. reflexivity.
Qed.

Lemma RejectionReported_explicit (r : ToolResult) (calls : list Call) :
  length calls <= 5 -> RejectionReported r calls -> CallFailureReported r calls.
Proof.
  intros L [R1 R2]. split.
  - intros earlier req e E. rewrite (R2 _ _ _ E). apply errorResult_reports.
  - intros earlier req resp E O. rewrite (R1 _ _ _ E O).
    rewrite E, length_app in *. simpl in *.
    destruct (length earlier) as [|[|[|[|[|n]]]]]; simpl; try lia;
      try reflexivity; unfold rejectionError; simpl;
      destruct (text resp) as [t|e]; try reflexivity; apply errorResult_reports.
Qed.

(** One run, as it shows on the wire and in the result. *)
Lemma Run_explicit (prepare : Result (list string))
    (pure : list string -> Result (list Json))
    (local : list string -> list string) (key message : string)
    (body : M ToolResult) (w : World Store) (r : ToolResult) (w' : World Store) :
  Run prepare pure local key message body w r w' ->
  exists evs calls githubToken entries,
    Steps w w' evs calls
    /\ Effects local prepare evs calls
    /\ (forall r', fst (body w) = Ok r' -> r = r' /\ Summary key prepare calls r')
    /\ InSequence githubToken message entries calls
    /\ length calls <= 5
    /\ (2 < length calls ->
        exists processed,
          prepare = Ok processed /\ pure processed = Ok entries
          /\ reads evs = local processed)
    /\ CallFailureReported r calls
    /\ (isError r = Some true
        \/ (fst (body w) = Ok r /\ length calls = 5 /\ allAccepted calls))
    /\ (forall e, fst (body w) = Throw e -> ReportsThrown r e)
    /\ match credential with
       | None =>
           calls = [] /\ Reports r "GITHUB_TOKEN environment variable is required"
       | Some t =>
           githubToken = t
           /\ match prepare with
              | Throw e => calls = [] /\ ReportsThrown r e
              | Ok processed =>
                  calls <> []
                  /\ forall e, readyForEntries calls -> pure processed = Throw e ->
                               ReportsThrown r e
              end
       end.
Proof.
  intros R. pose proof (Run_failure R) as F.
  destruct (Run_rejection R) as (evs0 & calls0 & S0 & J0).
  destruct R as (evs & calls & S & E & U & P & Q).
  assert (calls0 = calls) as ->.
  { destruct S0 as (T0 & Q0 & X0), S as (T1 & Q1 & X1).
    rewrite T1 in T0. apply app_inv_head in T0. subst evs0.
    rewrite Q0 in Q1. rewrite Q1, X1 in X0. congruence. }
  assert (T : exists githubToken entries,
             Transcript githubToken message entries calls
             /\ (2 < length calls ->
                 exists processed,
                   prepare = Ok processed /\ pure processed = Ok entries
                   /\ reads evs = local processed)
             /\ match credential with Some t => githubToken = t | None => True end).
  { destruct credential as [t|]; [destruct prepare as [processed|e0]|].
    - destruct P as (entries & T & _ & K). exists t, entries.
      split; [exact T|]. split; [|reflexivity].
      intros L. exists processed. split; [reflexivity | apply K; exact L].
    - subst calls. exists t, []. split; [constructor|]. split; [simpl; lia | reflexivity].
    - subst calls. exists "", []. split; [constructor|]. split; [simpl; lia | exact I]. }
  destruct T as (githubToken & entries & T & K & G).
  pose proof (Transcript_length T) as L.
  exists evs, calls, githubToken, entries.
  split; [exact S|]. split; [exact E|].
  split.
  { intros r' B. split; [rewrite B in F; exact F | exact (U r' B)]. }
  split; [exact (Transcript_in_sequence T)|].
  split; [exact L|]. split; [exact K|].
  split; [exact (RejectionReported_explicit L J0)|].
  split.
  { destruct (fst (body w)) as [r'|e0].
    - right. destruct Q as (-> & Q). split; [reflexivity | exact Q].
    - left. rewrite F. reflexivity. }
  split.
  { intros e B. rewrite B in F. rewrite F. apply errorResult_reports. }
  destruct credential as [t|]; [split; [exact G|]; destruct prepare as [processed|e0]|].
  - destruct P as (entries' & _ & N & _). split; [exact N|].
    intros e Y Z. destruct (fst (body w)) as [r'|e0].
    + destruct Q as (_ & L5 & _). destruct Y as (c1 & r2 & a2 & v & -> & _).
      discriminate.
    + destruct Q as (-> & _ & Q). rewrite (Q e Y Z). apply errorResult_reports.
  - split; [exact P|]. destruct (fst (body w)) as [r'|e1].
    + destruct Q as (_ & L5 & _). subst calls. discriminate.
    + destruct Q as (-> & ->). apply errorResult_reports.
  - split; [exact P|]. destruct (fst (body w)) as [r'|e1].
    + destruct Q as (_ & L5 & _). subst calls. discriminate.
    + destruct Q as (-> & ->). reflexivity.
Qed.

(** *** The tree entries of each handler *)

Lemma processFile_strips (filePath : string) :
  processFile filePath = withoutSeparator filePath.
Proof.
  unfold withoutSeparator.
  destruct filePath as [|c rest]; [reflexivity|].
  destruct c as [[] [] [] [] [] [] [] []];
    first [ apply processFile_absolute
          | unfold processFile, Js.startsWith; simpl; destruct rest; reflexivity ].
Qed.

Lemma fullPath_read (filePath : string) :
  fullPath (processFile filePath) = fileRead filePath.
Proof. unfold fileRead. rewrite <- processFile_strips. reflexivity. Qed.

Lemma allRead_written (files : list string) (entries : list Json) :
  allRead (map processFile files) = Ok entries -> Written files entries.
Proof.
  intros H. apply allRead_entries in H. revert entries H.
  induction files as [|f files IH]; intros entries H; inversion H; subst; constructor.
  - match goal with X : exists _, _ |- _ => destruct X as (content & F & ->) end.
    exists content. rewrite <- processFile_strips, <- fullPath_read.
    split; [exact F | reflexivity].
  - apply IH. assumption.
Qed.

(** A rejected [Promise.all] of the reads is the failure of one of the
    reads, and none of the reads failed before that one. *)
Lemma allRead_rejected (files : list string) (e : Exn) :
  allRead (map processFile files) = Throw e ->
  exists filePath,
    In filePath files
    /\ fs (fileRead filePath) = Throw e
    /\ forall other e', In other files -> fs (fileRead other) = Throw e' ->
         settled (fileRead filePath) <= settled (fileRead other).
Proof.
  intros H. apply Promise_all_rejected in H. destruct H as (moment & I & L).
  rewrite map_map in I, L. apply in_map_iff in I.
  destruct I as (filePath & X & I). unfold startRead, readEntry in X.
  rewrite fullPath_read in X. injection X as <- X.
  exists filePath. split; [exact I|].
  split; [destruct (fs (fileRead filePath)); [discriminate | congruence]|].
  intros other e' J F. apply (L _ e'). apply in_map_iff. exists other.
  split; [|exact J]. unfold startRead, readEntry.
  rewrite fullPath_read, F. reflexivity.
Qed.

(** One failing read is enough for the reads to be rejected. *)
Lemma allRead_rejects (files : list string) (filePath : string) (e : Exn) :
  In filePath files -> fs (fileRead filePath) = Throw e ->
  exists e', allRead (map processFile files) = Throw e'.
Proof.
  intros I F. apply Promise_all_rejects with (moment := settled (fileRead filePath)) (e := e).
  rewrite map_map. apply in_map_iff. exists filePath. split; [|exact I].
  unfold startRead, readEntry. rewrite fullPath_read, F. reflexivity.
Qed.

Lemma processPaths_relativised (paths processed : list string) :
  processPaths paths = Ok processed -> Relativised paths processed.
Proof.
  revert processed. induction paths as [|p paths IH]; simpl; intros processed H.
  - injection H as <-. constructor.
  - destruct (processPath p) as [q|] eqn:P; [|discriminate].
    destruct (processPaths paths) as [qs|]; [|discriminate].
    injection H as <-. constructor; [|apply IH; reflexivity].
    unfold processPath in P.
    destruct (Js.startsWith p "/").
    + destruct (Js.startsWith p (cwd env)); [|discriminate].
      injection P as <-. right. auto.
    + injection P as <-. left. auto.
Qed.

Lemma processPaths_deleted (paths processed : list string) :
  processPaths paths = Ok processed -> Deleted paths (map deleteEntry processed).
Proof.
  intros H. exists processed. split; [exact (processPaths_relativised _ H) | reflexivity].
Qed.

(** The paths [delete_files] rejects: the first absolute path of the
    list that does not begin with the working directory. *)
Lemma processPaths_rejected (paths : list string) (e : Exn) :
  processPaths paths = Throw e ->
  exists before filePath after,
    paths = (before ++ filePath :: after)%list
    /\ Forall (fun p => Js.startsWith p "/" = false
                        \/ Js.startsWith p (cwd env) = true) before
    /\ Js.startsWith filePath "/" = true
    /\ Js.startsWith filePath (cwd env) = false
    /\ e = JsError ("Path '" ++ filePath
                    ++ "' must be relative to repository root or within current working directory").
Proof.
  induction paths as [|p paths IH]; simpl; intros H; [discriminate|].
  destruct (processPath p) as [q|e0] eqn:P.
  - destruct (processPaths paths) as [qs|e1]; [discriminate|].
    injection H as ->. destruct (IH eq_refl) as (before & f & after & -> & B & X).
    exists (p :: before), f, after. split; [reflexivity|]. split; [|exact X].
    constructor; [|exact B]. unfold processPath in P.
    destruct (Js.startsWith p "/"); [|left; reflexivity].
    destruct (Js.startsWith p (cwd env)); [right; reflexivity | discriminate].
  - injection H as ->. exists [], p, paths. split; [reflexivity|].
    split; [constructor|]. unfold processPath in P.
    destruct (Js.startsWith p "/"); [|discriminate].
    destruct (Js.startsWith p (cwd env)); [discriminate|].
    injection P as <-. auto.
Qed.

Lemma processPaths_accepted (paths : list string) :
  Forall (fun p => Js.startsWith p "/" = false
                   \/ Js.startsWith p (cwd env) = true) paths ->
  exists processed, processPaths paths = Ok processed.
Proof.
  intros A. destruct (processPaths paths) as [processed|e] eqn:H; [eauto|].
  apply processPaths_rejected in H.
  destruct H as (before & f & after & -> & _ & X & Y & _).
  apply Forall_app in A. destruct A as [_ A]. inversion A; subst.
  match goal with Z : _ \/ _ |- _ => destruct Z; congruence end.
Qed.

(** *** Atomicity

    The store is any store whose branch, read by [tip], stays where it
    is under a [GET] and under a [POST] to the trees or the commits of
    the repository, and under a [PATCH] of the reference of the branch
    moves to the requested commit when the store accepts the request,
    and stays where it is when it does not. *)

Section Branch.

Variable tip : Store -> JsVal.

Hypothesis tip_kept :
  forall r s,
    method r = GET
    \/ (method r = POST
        /\ (url r = (GITHUB_API_URL env ++ "/repos/" ++ REPO_OWNER env ++ "/"
                       ++ REPO_NAME env) ++ "/git/trees"
            \/ url r = (GITHUB_API_URL env ++ "/repos/" ++ REPO_OWNER env ++ "/"
                          ++ REPO_NAME env) ++ "/git/commits")) ->
    tip (snd (serve r s)) = tip s.

Hypothesis tip_updated :
  forall r s,
    method r = PATCH ->
    url r = (GITHUB_API_URL env ++ "/repos/" ++ REPO_OWNER env ++ "/" ++ REPO_NAME env)
            ++ "/git/refs/heads/" ++ BRANCH_NAME env ->
    tip (snd (serve r s))
    = if accepted (fst (serve r s)) then requestedSha r else tip s.

Lemma exchange_keeps (rs : list Request) (s : Store) :
  Forall (fun r => tip (snd (serve r s)) = tip s
                   /\ forall s', tip (snd (serve r s')) = tip s') rs ->
  tip (snd (exchange rs s)) = tip s.
Proof.
  revert s. induction rs as [|r rs IH]; intros s F; [reflexivity|].
  inversion F as [|? ? [_ K] F']; subst. simpl.
  pose proof (K s) as K1. destruct (serve r s) as [a s1]. simpl in K1.
  assert (F1 : Forall (fun r => tip (snd (serve r s1)) = tip s1
                       /\ forall s', tip (snd (serve r s')) = tip s') rs).
  { apply Forall_forall. intros x I. rewrite Forall_forall in F'.
    destruct (F' x I) as [_ X]. split; [apply X | exact X]. }
  specialize (IH s1 F1). destruct (exchange rs s1) as [cs s2]. simpl in *. congruence.
Qed.

Lemma In_firstn {A : Type} (n : nat) (l : list A) (x : A) :
  In x (firstn n l) ->
  exists earlier later, l = (earlier ++ x :: later)%list /\ length earlier < n.
Proof.
  revert l. induction n as [|n IH]; intros [|y l]; simpl; try tauto.
  intros [-> | I].
  - exists [], l. split; [reflexivity | simpl; lia].
  - destruct (IH l I) as (earlier & later & -> & L).
    exists (y :: earlier), later. split; [reflexivity | simpl; lia].
Qed.

(** The first four requests of a run leave the branch where it is. *)
Lemma InSequence_keeps (githubToken message : string) (entries : list Json)
    (calls : list Call) (n : nat) (s : Store) :
  InSequence githubToken message entries calls -> n <= 4 ->
  tip (snd (exchange (map fst (firstn n calls)) s)) = tip s.
Proof.
  intros Q N. apply exchange_keeps. apply Forall_forall. intros r I.
  apply in_map_iff in I. destruct I as ([r' a] & <- & I). simpl.
  apply In_firstn in I. destruct I as (earlier & later & E & L).
  destruct (Q _ _ _ _ E) as [_ K].
  assert (X : forall s', tip (snd (serve r' s')) = tip s').
  { intros s'. apply tip_kept.
    destruct earlier as [|c1 [|c2 [|c3 [|c4 rest]]]]; simpl in K, L; try lia.
    - destruct K as (M & _). left. exact M.
    - destruct K as (v & _ & M & _). left. exact M.
    - destruct K as (v & _ & M & U & _). right. split; [exact M | left; exact U].
    - destruct K as (v & v' & _ & _ & M & U & _). right.
      split; [exact M | right; exact U]. }
  split; [apply X | exact X].
Qed.

Lemma IsUpdateRef_sha (githubToken : string) (sha : JsVal) (r : Request) :
  IsUpdateRef githubToken sha r -> requestedSha r = sha.
Proof.
  intros (_ & _ & _ & B). unfold requestedSha, bodyProp. rewrite B.
  destruct sha; reflexivity.
Qed.

Lemma mutation_atomic (prepare : Result (list string))
    (entriesOf : list string -> M (list Json))
    (pure : list string -> Result (list Json))
    (local : list string -> list string) (key message : string)
    (holds : list Json -> Prop) (w : World Store) :
  (forall ps, Offline (entriesOf ps) (pure ps) (local ps)) ->
  (forall processed entries,
     prepare = Ok processed -> pure processed = Ok entries -> holds entries) ->
  Atomic tip holds message w
    (fst (catch (mutation prepare entriesOf key message) w))
    (snd (catch (mutation prepare entriesOf key message) w)).
Proof.
  intros Hoff Hent.
  destruct (Run_explicit (@mutation_handler_run prepare entriesOf pure local key message w Hoff))
    as (evs & calls & githubToken & entries & S & _ & _ & Q & L & K & _ & F & _).
  exists evs, calls, githubToken, entries.
  split; [exact S|]. split; [exact Q|]. split; [exact L|].
  split; [intros n N; exact (@InSequence_keeps _ _ _ _ n (store w) Q N)|].
  set (w' := snd (catch (mutation prepare entriesOf key message) w)) in *.
  assert (B : (~ (length calls = 5 /\ allAccepted calls) -> tip (store w') = tip (store w))
              /\ (length calls = 5 -> allAccepted calls ->
                  exists c1 c2 c3 r4 a4 c5 newSha,
                    calls = [c1; c2; c3; (r4, a4); c5]
                    /\ holds entries
                    /\ answered a4 ["sha"] = Ok newSha
                    /\ tip (store w') = newSha)).
  { destruct S as (_ & _ & X).
    destruct (Nat.eq_dec (length calls) 5) as [L5 | L5].
    - destruct calls as [|c1 [|c2 [|c3 [|[r4 a4] [|[r5 a5] [|]]]]]]; try discriminate.
      destruct (Q [c1; c2; c3; (r4, a4)] r5 a5 [] eq_refl) as [A (newSha & N & U)].
      pose proof (@InSequence_keeps _ _ _ _ 4 (store w) Q (le_n 4)) as T4.
      change (map fst [c1; c2; c3; (r4, a4); (r5, a5)])
        with (map fst [c1; c2; c3; (r4, a4)] ++ [r5])%list in X.
      rewrite exchange_app in X. simpl firstn in T4.
      destruct (exchange (map fst [c1; c2; c3; (r4, a4)]) (store w)) as [cs4 s4].
      cbn [fst snd exchange] in X, T4.
      pose proof (tip_updated r5 s4) as P.
      destruct U as (M & V & U). specialize (P M V).
      rewrite (@IsUpdateRef_sha githubToken newSha r5 (conj M (conj V U))) in P.
      destruct (serve r5 s4) as [a5' s5]. cbn [fst snd] in X, P.
      injection X as X1 X2. subst s5.
      change [c1; c2; c3; (r4, a4); (r5, a5)]
        with ([c1; c2; c3; (r4, a4)] ++ [(r5, a5)])%list in X1.
      apply app_inj_tail in X1. destruct X1 as [_ X1]. injection X1 as ->.
      destruct (accepted a5) eqn:A5.
      + split.
        * intros N'. exfalso. apply N'. split; [reflexivity|].
          change (allAccepted ([c1; c2; c3; (r4, a4)] ++ [(r5, a5)])).
          apply Forall_app. split; [exact A | repeat constructor; exact A5].
        * intros _ _. exists c1, c2, c3, r4, a4, (r5, a5), newSha.
          split; [reflexivity|].
          split.
          { destruct K as (processed & K1 & K2 & _); [simpl; lia|].
            exact (Hent _ _ K1 K2). }
          split; [exact N | exact P].
      + split; [intros _; rewrite P; exact T4|].
        intros _ A'. change (allAccepted ([c1; c2; c3; (r4, a4)] ++ [(r5, a5)])) in A'.
        apply Forall_app in A'. destruct A' as [_ A'].
        inversion A' as [|? ? A5' _]; subst. simpl in A5'. congruence.
    - split; [|intros L5'; contradiction].
      intros _. pose proof (@InSequence_keeps _ _ _ _ (length calls) (store w) Q) as T.
      rewrite firstn_all, X in T. apply T. lia. }
  split; [exact (proj1 B)|]. split; [exact (proj2 B)|].
  destruct F as [F | (_ & F)]; auto.
Qed.

(** C1. Atomicity.  For every store of the kind described above, one
    run of [commit_files] and one run of [delete_files] make their
    calls in strict sequence, each the request of its step and made
    only when every earlier call was accepted; the branch stays where
    it is while the first four calls are made; at the end the branch is
    where it was unless all five calls were made and accepted, and then
    it is at the commit the store created in answer to the fourth
    call, whose tree it built from the entries of the third: for
    [commit_files] one entry with the content of the local file for
    each path, for [delete_files] one entry with a null hash for each
    path.  A run that does not end with an error result made all five
    calls and had them all accepted. *)
Theorem mutation_is_atomic (paths : list string) (message : string) (w : World Store) :
  Atomic tip (Written paths) message w
    (fst (commit_files paths message w)) (snd (commit_files paths message w))
  /\ Atomic tip (Deleted paths) message w
       (fst (delete_files paths message w)) (snd (delete_files paths message w)).
Proof.
  split.
  - unfold commit_files. rewrite commit_files_is_mutation.
    apply mutation_atomic with (pure := allRead) (local := map fullPath).
    + apply readTreeEntries_offline.
    + intros processed entries [= <-] H. exact (allRead_written _ H).
  - unfold delete_files. rewrite delete_files_is_mutation.
    apply mutation_atomic with (pure := fun ps => Ok (map deleteEntry ps))
                               (local := fun _ : list string => @nil string).
    + intros ps. apply ret_offline.
    + intros processed entries P [= <-]. exact (processPaths_deleted _ P).
Qed.

End Branch.

(** *** The single-request tools *)

Lemma requireToken_run (w : World Store) :
  requireToken w
  = match credential with
    | Some t => (Ok t, w)
    | None => (Throw (JsError "GITHUB_TOKEN environment variable is required"), w)
    end.
Proof.
  unfold requireToken, credential.
  destruct (GITHUB_TOKEN env) as [t|]; [destruct (String.eqb t "")|]; reflexivity.
Qed.

Ltac one_request :=
  intros; unfold catch, oneRequest;
  rewrite bind_eq, requireToken_run;
  destruct credential; [|reflexivity];
  rewrite bind_eq; unfold fetch;
  match goal with |- context [serve ?r ?s] => destruct (serve r s) as [[?|?] ?] end;
  [|reflexivity];
  rewrite bind_eq; unfold throwIf;
  match goal with |- context [ok ?r] => destruct (ok r) end; simpl;
  [| rewrite bind_eq; unfold errorText, lift;
     match goal with |- context [text ?r] => destruct (text r) end; reflexivity ];
  unfold ret; rewrite bind_eq; unfold parsed;
  match goal with |- context [json ?r] => destruct (json r) end; [|reflexivity];
  unfold ret, get; rewrite ?bind_lift;
  repeat match goal with
    | |- context [match JsValue.getProp ?v ?k with _ => _ end] =>
        destruct (JsValue.getProp v k); rewrite ?bind_lift; [|reflexivity]
    end;
  try reflexivity.

Lemma create_issue_run (owner repo title issueBody : string)
    (assignees labels : option (list string)) (milestone : option string)
    (w : World Store) :
  create_issue owner repo title issueBody assignees labels milestone w
  = match credential with
    | None => (noToken, w)
    | Some githubToken =>
        oneRequest (createIssueRequest githubToken owner repo title issueBody
                      assignees labels milestone)
          "Failed to create issue: " issueSummary w
    end.
Proof.
  unfold create_issue, create_issue_try, issueSummary. one_request.
Qed.

Lemma create_pull_request_run (owner repo title prBody head base : string)
    (draft maintainer_can_modify : option bool) (w : World Store) :
  create_pull_request owner repo title prBody head base draft maintainer_can_modify w
  = match credential with
    | None => (noToken, w)
    | Some githubToken =>
        oneRequest (createPullRequestRequest githubToken owner repo title prBody
                      head base draft maintainer_can_modify)
          "Failed to create pull request: " pullRequestSummary w
    end.
Proof.
  unfold create_pull_request, create_pull_request_try, pullRequestSummary. one_request.
Qed.

Lemma github__update_issue_comment_run (owner repo commentId commentBody : string)
    (w : World Store) :
  github__update_issue_comment owner repo commentId commentBody w
  = match credential with
    | None => (noToken, w)
    | Some githubToken =>
        oneRequest (commentRequest "issues" githubToken owner repo commentId commentBody)
          "Failed to update comment: "
          (acknowledged ("Comment " ++ commentId ++ " updated successfully")) w
    end.
Proof.
  unfold github__update_issue_comment, github__update_issue_comment_try, acknowledged.
  one_request.
Qed.

Lemma github__update_pull_request_comment_run (owner repo commentId commentBody : string)
    (w : World Store) :
  github__update_pull_request_comment owner repo commentId commentBody w
  = match credential with
    | None => (noToken, w)
    | Some githubToken =>
        oneRequest (commentRequest "issues" githubToken owner repo commentId commentBody)
          "Failed to update PR comment: "
          (acknowledged ("PR comment " ++ commentId ++ " updated successfully")) w
    end.
Proof.
  unfold github__update_pull_request_comment, github__update_pull_request_comment_try,
    acknowledged.
  one_request.
Qed.

Lemma update_pull_request_review_comment_run (owner repo commentId commentBody : string)
    (w : World Store) :
  update_pull_request_review_comment owner repo commentId commentBody w
  = match credential with
    | None => (noToken, w)
    | Some githubToken =>
        oneRequest (commentRequest "pulls" githubToken owner repo commentId commentBody)
          "Failed to update PR review comment: "
          (acknowledged ("PR review comment " ++ commentId ++ " updated successfully")) w
    end.
Proof.
  unfold update_pull_request_review_comment, update_pull_request_review_comment_try,
    acknowledged.
  one_request.
Qed.

Arguments arrayMap : simpl never.

Lemma list_issues_run (owner repo : string) (state : option IssueState)
    (labels assignee creator : option string) (sort : option IssueSort)
    (direction : option SortDirection) (per_page page : option string)
    (w : World Store) :
  list_issues owner repo state labels assignee creator sort direction per_page page w
  = match credential with
    | None => (noToken, w)
    | Some githubToken =>
        oneRequest (listIssuesRequest githubToken owner repo
                      (issueParams state labels assignee creator sort direction
                         per_page page))
          "Failed to list issues: " issueList w
    end.
Proof.
  unfold list_issues, list_issues_try, issueList. one_request.
  match goal with |- context [arrayMap ?a ?b ?c] => destruct (arrayMap a b c) end;
    reflexivity.
Qed.

(** A tool of this shape makes its one request whatever the store
    answers, and nothing else. *)
Lemma oneRequest_world (req : Request) (failed : string)
    (finish : Response -> Result ToolResult) (w : World Store) :
  snd (oneRequest req failed finish w)
  = {| store := snd (serve req (store w));
       trace := (trace w ++ [Fetched req])%list |}.
Proof.
  unfold oneRequest. destruct (serve req (store w)) as [[resp|e] s']; simpl;
    [|reflexivity].
  destruct (ok resp); [destruct (finish resp) | destruct (text resp)]; reflexivity.
Qed.

(** Its result, by the answer. *)
Lemma oneRequest_result (req : Request) (failed : string)
    (finish : Response -> Result ToolResult) (w : World Store) :
  fst (oneRequest req failed finish w)
  = match fst (serve req (store w)) with
    | Throw e => errorResult e
    | Ok response =>
        if ok response then
          match finish response with
          | Ok r => r
          | Throw e => errorResult e
          end
        else
          match text response with
          | Ok t => errorResult (JsError (failed ++ Js.ofNat (status response)
                                          ++ " - " ++ t))
          | Throw e => errorResult e
          end
    end.
Proof.
  unfold oneRequest. destruct (serve req (store w)) as [[resp|e] s']; simpl;
    [|reflexivity].
  destruct (ok resp); [destruct (finish resp) | destruct (text resp)]; reflexivity.
Qed.

(** *** Further facts about [commit_files] and [delete_files] *)

Lemma mutation_no_token (prepare : Result (list string))
    (entriesOf : list string -> M (list Json)) (key message : string) (w : World Store) :
  credential = None ->
  catch (mutation prepare entriesOf key message) w = (noToken, w).
Proof.
  intros C. unfold catch, mutation. rewrite bind_eq, requireToken_run, C. reflexivity.
Qed.

Lemma mutation_rejected (e : Exn) (entriesOf : list string -> M (list Json))
    (key message githubToken : string) (w : World Store) :
  credential = Some githubToken ->
  catch (mutation (Throw e) entriesOf key message) w = (errorResult e, w).
Proof.
  intros C. unfold catch, mutation.
  rewrite bind_eq, requireToken_run, C, bind_lift. reflexivity.
Qed.

(** The first path that is rejected decides the outcome of the whole
    list. *)
Lemma processPaths_first_rejected (before after : list string) (p : string) (e : Exn) :
  Forall (fun q => exists r, processPath q = Ok r) before ->
  processPath p = Throw e ->
  processPaths (before ++ p :: after) = Throw e.
Proof.
  intros B P. induction B as [|q before (r & Q) _ IH]; simpl.
  - rewrite P. reflexivity.
  - rewrite Q, IH. reflexivity.
Qed.

Lemma processPath_accepts (q : string) :
  Js.startsWith q "/" = false \/ Js.startsWith q (cwd env) = true ->
  exists r, processPath q = Ok r.
Proof.
  unfold processPath. intros [R | A].
  - rewrite R. eauto.
  - rewrite A. destruct (Js.startsWith q "/"); eauto.
Qed.

(** *** The two handlers, request by request *)

Lemma credential_some (githubToken : string) :
  GITHUB_TOKEN env = Some githubToken -> githubToken <> "" ->
  credential = Some githubToken.
Proof.
  intros G N. unfold credential. rewrite G.
  destruct (String.eqb_spec githubToken ""); [contradiction | reflexivity].
Qed.

Lemma credential_none :
  GITHUB_TOKEN env = None \/ GITHUB_TOKEN env = Some "" -> credential = None.
Proof. unfold credential. intros [-> | ->]; reflexivity. Qed.

Lemma InSequence_patches (githubToken message : string) (entries : list Json)
    (calls : list Call) :
  InSequence githubToken message entries calls -> length calls <= 5 ->
  PatchesLast calls.
Proof.
  intros Q L earlier r a later E M. destruct (Q _ _ _ _ E) as [_ K].
  rewrite E, length_app in L. simpl in L.
  destruct earlier as [|c1 [|c2 [|c3 [|c4 [|c5 rest]]]]]; simpl in K, L; try lia.
  - destruct K as (G & _). congruence.
  - destruct K as (v & _ & G & _). congruence.
  - destruct K as (v & _ & G & _). congruence.
  - destruct K as (v & v' & _ & _ & G & _). congruence.
  - split; [reflexivity|]. destruct later; [reflexivity | simpl in L; lia].
Qed.

Lemma InSequence_single_parent (githubToken message : string) (entries : list Json)
    (calls : list Call) :
  InSequence githubToken message entries calls -> SingleParent calls.
Proof.
  intros Q [r a] ps I P. apply in_split in I. destruct I as (earlier & later & E).
  destruct (Q _ _ _ _ E) as [_ K]. simpl in P. unfold parentsOf, bodyProp in P.
  destruct earlier as [|c1 [|c2 [|c3 [|c4 [|c5 rest]]]]]; simpl in K.
  - destruct K as (_ & _ & _ & B). rewrite B in P. discriminate.
  - destruct K as (v & _ & _ & _ & _ & B). rewrite B in P. discriminate.
  - destruct K as (v & _ & _ & _ & _ & B). rewrite B in P.
    destruct v; discriminate.
  - destruct K as (baseSha & treeSha & A & _ & _ & _ & _ & B). rewrite B in P.
    exists c1, ([c2; c3] ++ (r, a) :: later)%list, baseSha.
    split; [exact E|]. split; [exact A|].
    destruct treeSha; simpl in P; congruence.
  - destruct K as (v & _ & _ & _ & _ & B). rewrite B in P.
    destruct v; discriminate.
  - contradiction.
Qed.

Lemma Summary_reported (key : string) (prepare : Result (list string))
    (calls : list Call) (r : ToolResult) :
  Summary key prepare calls r ->
  exists processed, prepare = Ok processed /\ Reported key processed calls r.
Proof.
  intros (processed & c1 & c2 & r3 & a3 & r4 & a4 & c5 & sha & msg & name & date
          & treeSha & P & H).
  exists processed. split; [exact P|].
  exists c1, c2, r3, a3, r4, a4, c5, sha, msg, name, date, treeSha. exact H.
Qed.

Lemma map_processFile (files : list string) :
  map processFile files = map withoutSeparator files.
Proof. apply map_ext. exact processFile_strips. Qed.

Lemma map_fullPath (files : list string) :
  map fullPath (map processFile files) = map fileRead files.
Proof. rewrite map_map. apply map_ext. exact fullPath_read. Qed.

(** One run of [commit_files]. *)
Lemma commit_files_explicit (files : list string) (message : string) (w : World Store) :
  exists evs calls githubToken entries,
    Steps w (snd (commit_files files message w)) evs calls
    /\ InSequence githubToken message entries calls
    /\ length calls <= 5
    /\ evs = (map Fetched (map fst (firstn 2 calls)) ++ map ReadFile (reads evs)
              ++ map Fetched (map fst (skipn 2 calls)))%list
    /\ (reads evs = []
        \/ exists c1 c2 rest,
             calls = c1 :: c2 :: rest
             /\ accepted (snd c1) = true /\ accepted (snd c2) = true
             /\ reads evs = map fileRead files)
    /\ (2 < length calls -> Written files entries /\ reads evs = map fileRead files)
    /\ (forall r', fst (commit_files_try files message w) = Ok r' ->
          fst (commit_files files message w) = r'
          /\ Reported "files" (map withoutSeparator files) calls r')
    /\ CallFailureReported (fst (commit_files files message w)) calls
    /\ (isError (fst (commit_files files message w)) = Some true
        \/ (length calls = 5 /\ allAccepted calls
            /\ Reported "files" (map withoutSeparator files) calls
                 (fst (commit_files files message w))))
    /\ (forall e, fst (commit_files_try files message w) = Throw e ->
          ReportsThrown (fst (commit_files files message w)) e)
    /\ (GITHUB_TOKEN env = None \/ GITHUB_TOKEN env = Some "" ->
        calls = []
        /\ Reports (fst (commit_files files message w))
             "GITHUB_TOKEN environment variable is required")
    /\ (forall t, GITHUB_TOKEN env = Some t -> t <> "" ->
          githubToken = t
          /\ calls <> []
          /\ forall c1 c2 rest,
               calls = c1 :: c2 :: rest ->
               accepted (snd c2) = true ->
               (exists baseTreeSha, answered (snd c2) ["tree"; "sha"] = Ok baseTreeSha) ->
               (exists filePath e, In filePath files /\ fs (fileRead filePath) = Throw e) ->
               rest = []
               /\ exists filePath e,
                    In filePath files
                    /\ fs (fileRead filePath) = Throw e
                    /\ (forall other e',
                          In other files -> fs (fileRead other) = Throw e' ->
                          settled (fileRead filePath) <= settled (fileRead other))
                    /\ ReportsThrown (fst (commit_files files message w)) e).
Proof.
  destruct (Run_explicit (commit_files_run files message w))
    as (evs & calls & githubToken & entries & S & [E1 E2] & U & Q & L & K & CF & F & TH & C).
  exists evs, calls, githubToken, entries.
  split; [exact S|]. split; [exact Q|]. split; [exact L|]. split; [exact E1|].
  split.
  { destruct E2 as [N | (processed & c1 & c2 & rest & [= <-] & X & A1 & A2 & R)];
      [left; exact N | right].
    exists c1, c2, rest. rewrite map_fullPath in R. auto. }
  split.
  { intros G. destruct (K G) as (processed & [= <-] & K2 & K3).
    rewrite map_fullPath in K3. split; [exact (allRead_written _ K2) | exact K3]. }
  assert (RP : forall r', fst (commit_files_try files message w) = Ok r' ->
                 fst (commit_files files message w) = r'
                 /\ Reported "files" (map withoutSeparator files) calls r').
  { intros r' B. destruct (U r' B) as [X Y]. split; [exact X|].
    destruct (Summary_reported Y) as (processed & [= <-] & Z).
    rewrite map_processFile in Z. exact Z. }
  split; [exact RP|]. split; [exact CF|].
  split.
  { destruct F as [F | (B & L5 & A)]; [left; exact F | right].
    split; [exact L5|]. split; [exact A|]. exact (proj2 (RP _ B)). }
  split; [exact TH|].
  split.
  { intros G. rewrite (credential_none G) in C. exact C. }
  intros t G N. rewrite (credential_some G N) in C. destruct C as (-> & C1 & C2).
  split; [reflexivity|]. split; [exact C1|].
  intros c1 c2 rest X A2 (v & V) (filePath & e & I & R).
  destruct (@allRead_rejects _ _ _ I R) as (e0 & P).
  assert (rest = []) as ->.
  { destruct rest as [|c3 rest]; [reflexivity|]. exfalso.
    destruct K as (processed & [= <-] & K2 & _); [rewrite X; simpl; lia|]. congruence. }
  split; [reflexivity|].
  destruct (@allRead_rejected _ _ P) as (f & I' & R' & M).
  exists f, e0. split; [exact I'|]. split; [exact R'|]. split; [exact M|].
  apply C2; [|exact P]. destruct c2 as [r2 a2]. exists c1, r2, a2, v. auto.
Qed.

(** One run of [delete_files]. *)
Lemma delete_files_explicit (paths : list string) (message : string) (w : World Store) :
  exists evs calls githubToken entries,
    Steps w (snd (delete_files paths message w)) evs calls
    /\ InSequence githubToken message entries calls
    /\ length calls <= 5
    /\ evs = map Fetched (map fst calls)
    /\ (2 < length calls -> Deleted paths entries)
    /\ (forall r', fst (delete_files_try paths message w) = Ok r' ->
          fst (delete_files paths message w) = r'
          /\ exists processed,
               Relativised paths processed
               /\ Reported "deletedFiles" processed calls r')
    /\ CallFailureReported (fst (delete_files paths message w)) calls
    /\ (isError (fst (delete_files paths message w)) = Some true
        \/ (length calls = 5 /\ allAccepted calls
            /\ exists processed,
                 Relativised paths processed
                 /\ Reported "deletedFiles" processed calls
                      (fst (delete_files paths message w))))
    /\ (forall e, fst (delete_files_try paths message w) = Throw e ->
          ReportsThrown (fst (delete_files paths message w)) e)
    /\ (GITHUB_TOKEN env = None \/ GITHUB_TOKEN env = Some "" ->
        calls = []
        /\ Reports (fst (delete_files paths message w))
             "GITHUB_TOKEN environment variable is required")
    /\ (forall t, GITHUB_TOKEN env = Some t -> t <> "" ->
          githubToken = t
          /\ (Forall (fun p => Js.startsWith p "/" = false
                               \/ Js.startsWith p (cwd env) = true) paths ->
              calls <> [])
          /\ forall before filePath after,
               paths = (before ++ filePath :: after)%list ->
               Forall (fun p => Js.startsWith p "/" = false
                                \/ Js.startsWith p (cwd env) = true) before ->
               Js.startsWith filePath "/" = true ->
               Js.startsWith filePath (cwd env) = false ->
               calls = []
               /\ Reports (fst (delete_files paths message w))
                    ("Path '" ++ filePath
                     ++ "' must be relative to repository root or within current working directory")).
Proof.
  destruct (Run_explicit (delete_files_run paths message w))
    as (evs & calls & githubToken & entries & S & [E1 E2] & U & Q & L & K & CF & F & TH & C).
  exists evs, calls, githubToken, entries.
  split; [exact S|]. split; [exact Q|]. split; [exact L|].
  split.
  { assert (N : reads evs = [])
      by (destruct E2 as [N | (processed & c1 & c2 & rest & _ & _ & _ & _ & N)]; exact N).
    rewrite N in E1.
    change (evs = (map Fetched (map fst (firstn 2 calls))
                   ++ map Fetched (map fst (skipn 2 calls)))%list) in E1.
    rewrite <- map_app, <- map_app, firstn_skipn in E1.
    exact E1. }
  split.
  { intros G. destruct (K G) as (processed & P & [= <-] & _).
    exact (processPaths_deleted _ P). }
  assert (RP : forall r', fst (delete_files_try paths message w) = Ok r' ->
                 fst (delete_files paths message w) = r'
                 /\ exists processed,
                      Relativised paths processed
                      /\ Reported "deletedFiles" processed calls r').
  { intros r' B. destruct (U r' B) as [X Y]. split; [exact X|].
    destruct (Summary_reported Y) as (processed & P & Z).
    exists processed. split; [exact (processPaths_relativised _ P) | exact Z]. }
  split; [exact RP|]. split; [exact CF|].
  split.
  { destruct F as [F | (B & L5 & A)]; [left; exact F | right].
    split; [exact L5|]. split; [exact A|]. exact (proj2 (RP _ B)). }
  split; [exact TH|].
  split.
  { intros G. rewrite (credential_none G) in C. exact C. }
  intros t G N. rewrite (credential_some G N) in C. destruct C as (-> & C).
  split; [reflexivity|]. split.
  - intros A. destruct (processPaths_accepted A) as (processed & P).
    rewrite P in C. exact (proj1 C).
  - intros before filePath after -> B A1 A2.
    assert (P : processPaths (before ++ filePath :: after) = Throw (pathError filePath)).
    { apply processPaths_first_rejected.
      - eapply Forall_impl; [|exact B]. intros q. apply processPath_accepts.
      - unfold processPath. rewrite A1, A2. reflexivity. }
    rewrite P in C. exact C.
Qed.


(** Up to the second call every request is a [GET]. *)
Lemma Transcript_reads_only (githubToken message : string) (treeEntries : list Json)
    (calls : list Call) :
  Transcript githubToken message treeEntries calls -> length calls <= 2 ->
  Forall (fun c => method (fst c) = GET /\ body (fst c) = None) calls.
Proof.
  intros T L. inversion T; subst; simpl in L; try lia; repeat constructor.
Qed.

Lemma oneRequest_rejection (req : Request) (failed : string)
    (finish : Response -> Result ToolResult) (w : World Store) :
  ReportsRejection (oneRequest req failed finish) req failed w.
Proof.
  intros resp t A O X. rewrite oneRequest_result, A, O, X. reflexivity.
Qed.

Lemma oneRequest_acknowledges (req : Request) (failed message : string) (w : World Store) :
  Acknowledges (oneRequest req failed (acknowledged message)) req message w.
Proof.
  intros resp A O. rewrite oneRequest_result, A, O. unfold acknowledged.
  destruct (json resp); reflexivity.
Qed.

Lemma mapElements_length (f : Json -> Result Json) (items js : list Json) :
  mapElements f items = Ok js -> length js = length items.
Proof.
  revert js. induction items as [|i items IH]; simpl; intros js H.
  - injection H as <-. reflexivity.
  - destruct (f i); [|discriminate].
    destruct (mapElements f items) as [l|]; [|discriminate].
    injection H as <-. simpl. f_equal. apply IH. reflexivity.
Qed.

Lemma appendString_cases (k : string) (v : option string) :
  appendString k v = []
  \/ exists x, appendString k v = [(k, x)] /\ x <> "" /\ v = Some x.
Proof.
  unfold appendString. destruct v as [x|]; [|left; reflexivity].
  destruct (String.eqb x "") eqn:E; [left; reflexivity|].
  right. exists x. repeat split. intros ->. discriminate.
Qed.

Lemma appendNumber_cases (k : string) (n : option string) :
  appendNumber k n = []
  \/ exists x, appendNumber k n = [(k, x)] /\ x <> "0" /\ n = Some x.
Proof.
  unfold appendNumber. destruct n as [x|]; [|left; reflexivity].
  destruct (String.eqb x "0") eqn:E; [left; reflexivity|].
  right. exists x. repeat split. intros ->. discriminate.
Qed.

Lemma In_appendString (k k' x : string) (v : option string) :
  In (k', x) (appendString k v) <-> k' = k /\ v = Some x /\ x <> "".
Proof.
  unfold appendString. destruct v as [y|]; [destruct (String.eqb y "") eqn:E|]; simpl.
  - apply String.eqb_eq in E. subst y. split; [contradiction|].
    intros (_ & [= <-] & N). apply N. reflexivity.
  - apply String.eqb_neq in E. split.
    + intros [[= <- <-] | []]. auto.
    + intros (-> & [= ->] & _). left. reflexivity.
  - split; [contradiction|]. intros (_ & [=] & _).
Qed.

Lemma In_appendNumber (k k' x : string) (n : option string) :
  In (k', x) (appendNumber k n) <-> k' = k /\ n = Some x /\ x <> "0".
Proof.
  unfold appendNumber. destruct n as [y|]; [destruct (String.eqb y "0") eqn:E|]; simpl.
  - apply String.eqb_eq in E. subst y. split; [contradiction|].
    intros (_ & [= <-] & N). apply N. reflexivity.
  - apply String.eqb_neq in E. split.
    + intros [[= <- <-] | []]. auto.
    + intros (-> & [= ->] & _). left. reflexivity.
  - split; [contradiction|]. intros (_ & [=] & _).
Qed.

Lemma enum_not_empty (state : option IssueState) (sort : option IssueSort)
    (direction : option SortDirection) (x : string) :
  option_map stateName state = Some x \/ option_map sortName sort = Some x
  \/ option_map directionName direction = Some x ->
  x <> "".
Proof.
  intros [H | [H | H]]; intros ->;
    [destruct state as [[]|] | destruct sort as [[]|] | destruct direction as [[]|]];
    discriminate.
Qed.






End Handlers.

(** * The claims of the specification *)

(** ** The happy path and the single parent *)

(** C7. Committing [a.txt] and [b/c.txt] with message [init] on branch
    [main] at commit [H0] with tree [T0], the store answering with tree
    [T1] and commit [H1], whatever the order in which the two reads
    settle: the handler issues get-ref(main), get-commit(H0),
    create-tree(base [T0], one entry per path), create-commit(tree
    [T1], parents [[H0]]) and update-ref(main, [H1], force false), in
    that order and nothing else on the network, the two files being
    read between get-commit and create-tree; the branch ends at [H1];
    the result carries [H1], [T1] and both paths.  And in every run of
    either handler the calls are the steps of their positions, so the
    fourth creates a commit with the one parent the first answer gave,
    and no request names parents otherwise. *)
Theorem commit_two_files_scenario
    (H0 T0 T1 H1 contentA contentC author date : string) (settled : string -> nat) :
  commit_files serveRemote (scenarioFs contentA contentC) settled scenarioEnv
    ["a.txt"; "b/c.txt"] "init"
    (startWorld H0 (happyScript H0 T0 T1 H1 "init" author date))
  = ( {| content :=
           [TextContent (JSON_stringify (JObj
              [ ("commit", JObj [ ("sha", JStr H1); ("message", JStr "init");
                                  ("author", JStr author); ("date", JStr date) ]);
                ("files", JArr [ JObj [("path", JStr "a.txt")];
                                 JObj [("path", JStr "b/c.txt")] ]);
                ("tree", JObj [("sha", JStr T1)]) ]))];
         error := None; isError := None |},
      {| store := {| branchTip := Some (JStr H1); script := [] |};
         trace :=
           [ Fetched
               {| url := "https://api.github.com/repos/acme/site/git/refs/heads/main";
                  method := GET;
                  headers := [ ("Accept", "application/vnd.github+json");
                               ("Authorization", "Bearer secret");
                               ("X-GitHub-Api-Version", "2022-11-28") ];
                  body := None |};
             Fetched
               {| url := "https://api.github.com/repos/acme/site/git/commits/" ++ H0;
                  method := GET;
                  headers := [ ("Accept", "application/vnd.github+json");
                               ("Authorization", "Bearer secret");
                               ("X-GitHub-Api-Version", "2022-11-28") ];
                  body := None |};
             ReadFile "/work/repo/a.txt";
             ReadFile "/work/repo/b/c.txt";
             Fetched
               {| url := "https://api.github.com/repos/acme/site/git/trees";
                  method := POST;
                  headers := [ ("Accept", "application/vnd.github+json");
                               ("Authorization", "Bearer secret");
                               ("X-GitHub-Api-Version", "2022-11-28");
                               ("Content-Type", "application/json") ];
                  body := Some (JObj
                    [ ("base_tree", JStr T0);
                      ("tree", JArr
                         [ JObj [ ("path", JStr "a.txt"); ("mode", JStr "100644");
                                  ("type", JStr "blob"); ("content", JStr contentA) ];
                           JObj [ ("path", JStr "b/c.txt"); ("mode", JStr "100644");
                                  ("type", JStr "blob"); ("content", JStr contentC) ] ]) ])
               |};
             Fetched
               {| url := "https://api.github.com/repos/acme/site/git/commits";
                  method := POST;
                  headers := [ ("Accept", "application/vnd.github+json");
                               ("Authorization", "Bearer secret");
                               ("X-GitHub-Api-Version", "2022-11-28");
                               ("Content-Type", "application/json") ];
                  body := Some (JObj [ ("message", JStr "init"); ("tree", JStr T1);
                                       ("parents", JArr [JStr H0]) ]) |};
             Fetched
               {| url := "https://api.github.com/repos/acme/site/git/refs/heads/main";
                  method := PATCH;
                  headers := [ ("Accept", "application/vnd.github+json");
                               ("Authorization", "Bearer secret");
                               ("X-GitHub-Api-Version", "2022-11-28");
                               ("Content-Type", "application/json") ];
                  body := Some (JObj [ ("sha", JStr H1); ("force", JBool false) ]) |} ]
      |} )
  /\ forall (Store : Type) (serve : Request -> Store -> Result Response * Store)
        (fs : string -> Result string) (settled : string -> nat) (env : Env)
        (paths : list string) (message : string) (w : World Store),
      (exists evs calls githubToken entries,
         Steps serve w (snd (commit_files serve fs settled env paths message w)) evs calls
         /\ InSequence env githubToken message entries calls
         /\ SingleParent calls)
      /\ (exists evs calls githubToken entries,
            Steps serve w (snd (delete_files serve env paths message w)) evs calls
            /\ InSequence env githubToken message entries calls
            /\ SingleParent calls).
Proof.
  split; [reflexivity|].
  intros Store serve fs settled' env paths message w. split.
  - destruct (commit_files_explicit serve fs settled' env paths message w)
      as (evs & calls & t & entries & S & Q & _).
    exists evs, calls, t, entries. split; [exact S|]. split; [exact Q|].
    exact (InSequence_single_parent Q).
  - destruct (delete_files_explicit serve env paths message w)
      as (evs & calls & t & entries & S & Q & _).
    exists evs, calls, t, entries. split; [exact S|]. split; [exact Q|].
    exact (InSequence_single_parent Q).
Qed.

(** ** Atomicity on a concrete remote *)

(** The scripted remote is a store of the kind atomicity is stated for,
    and the atomicity theorem applies to the scenario of the
    specification run against it. *)
Lemma mutation_is_atomic_witness :
  (forall r s,
     method r = GET
     \/ (method r = POST
         /\ (url r = "https://api.github.com/repos/acme/site/git/trees"
             \/ url r = "https://api.github.com/repos/acme/site/git/commits")) ->
     branchTip (snd (serveRemote r s)) = branchTip s)
  /\ (forall r s,
        method r = PATCH ->
        url r = "https://api.github.com/repos/acme/site/git/refs/heads/main" ->
        branchTip (snd (serveRemote r s))
        = if accepted (fst (serveRemote r s)) then requestedSha r else branchTip s)
  /\ (let w := startWorld "H0" (happyScript "H0" "T0" "T1" "H1" "init" "n" "d") in
      Atomic serveRemote scenarioEnv branchTip
        (Written (scenarioFs "A" "C") scenarioEnv ["a.txt"; "b/c.txt"]) "init" w
        (fst (commit_files serveRemote (scenarioFs "A" "C") inOrder scenarioEnv
                ["a.txt"; "b/c.txt"] "init" w))
        (snd (commit_files serveRemote (scenarioFs "A" "C") inOrder scenarioEnv
                ["a.txt"; "b/c.txt"] "init" w))
      /\ Atomic serveRemote scenarioEnv branchTip
           (Deleted scenarioEnv ["a.txt"; "b/c.txt"]) "init" w
           (fst (delete_files serveRemote scenarioEnv ["a.txt"; "b/c.txt"] "init" w))
           (snd (delete_files serveRemote scenarioEnv ["a.txt"; "b/c.txt"] "init" w))).
Proof.
  assert (K : forall r s,
            method r = GET
            \/ (method r = POST
                /\ (url r = "https://api.github.com/repos/acme/site/git/trees"
                    \/ url r = "https://api.github.com/repos/acme/site/git/commits")) ->
            branchTip (snd (serveRemote r s)) = branchTip s).
  { intros r s P. unfold serveRemote, movesBranch, isPatch.
    destruct (script s); simpl; [reflexivity|].
    destruct P as [-> | [-> _]]; reflexivity. }
  assert (U : forall r s,
            method r = PATCH ->
            url r = "https://api.github.com/repos/acme/site/git/refs/heads/main" ->
            branchTip (snd (serveRemote r s))
            = if accepted (fst (serveRemote r s)) then requestedSha r
              else branchTip s).
  { intros r s P V. unfold serveRemote, movesBranch, isPatch.
    destruct (script s); simpl; [reflexivity|]. rewrite P, V. reflexivity. }
  split; [exact K|]. split; [exact U|].
  exact (@mutation_is_atomic Remote serveRemote (scenarioFs "A" "C") inOrder scenarioEnv
           branchTip K U ["a.txt"; "b/c.txt"] "init"
           (startWorld "H0" (happyScript "H0" "T0" "T1" "H1" "init" "n" "d"))).
Defined.

(** ** The reference update *)

(** C2, as stated, fails on the scenario of the specification: the
    update-ref request, fifth and last on the network, names the new
    commit [H1] and nowhere the commit [H0] read in step 1. *)
Lemma update_ref_omits_expected_hash :
  let w' := snd (commit_files serveRemote (scenarioFs "A" "C") inOrder scenarioEnv
                   ["a.txt"; "b/c.txt"] "init"
                   (startWorld "H0" (happyScript "H0" "T0" "T1" "H1" "init" "n" "d"))) in
  nth_error (requests (trace w')) 4
  = Some (scenarioSend PATCH "https://api.github.com/repos/acme/site/git/refs/heads/main"
            (JObj [("sha", JStr "H1"); ("force", JBool false)]))
  /\ length (requests (trace w')) = 5
  /\ mentions (scenarioSend PATCH
                 "https://api.github.com/repos/acme/site/git/refs/heads/main"
                 (JObj [("sha", JStr "H1"); ("force", JBool false)])) "H1" = true
  /\ mentions (scenarioSend PATCH
                 "https://api.github.com/repos/acme/site/git/refs/heads/main"
                 (JObj [("sha", JStr "H1"); ("force", JBool false)])) "H0" = false.
Proof. repeat split. Qed.

(** C2, amended. In every run of either handler the calls are the
    steps of their positions and at most five, and a [PATCH] is issued
    only as the fifth and last of them.  That request goes to the
    reference of the branch and its body holds exactly the hash the
    store answered to create-commit and [force: false]: it is
    non-forcing and carries no expected-current hash.  The hash read in
    step 1 is sent in the address of get-commit and as the one parent of
    create-commit.  When the store answers the update with a response
    that is not 2xx, the handler reports "Failed to update reference:
    <status> - <body text>". *)
Theorem update_ref_is_non_forcing (Store : Type)
    (serve : Request -> Store -> Result Response * Store)
    (fs : string -> Result string) (settled : string -> nat) (env : Env)
    (paths : list string) (message : string) (w : World Store) :
  (exists evs calls githubToken entries,
     Steps serve w (snd (commit_files serve fs settled env paths message w)) evs calls
     /\ InSequence env githubToken message entries calls
     /\ length calls <= 5
     /\ PatchesLast calls
     /\ CallFailureReported (fst (commit_files serve fs settled env paths message w)) calls)
  /\ (exists evs calls githubToken entries,
        Steps serve w (snd (delete_files serve env paths message w)) evs calls
        /\ InSequence env githubToken message entries calls
        /\ length calls <= 5
        /\ PatchesLast calls
        /\ CallFailureReported (fst (delete_files serve env paths message w)) calls).
Proof.
  split.
  - destruct (commit_files_explicit serve fs settled env paths message w)
      as (evs & calls & t & entries & S & Q & L & _ & _ & _ & _ & CF & _).
    exists evs, calls, t, entries. split; [exact S|]. split; [exact Q|].
    split; [exact L|]. split; [exact (InSequence_patches Q L) | exact CF].
  - destruct (delete_files_explicit serve env paths message w)
      as (evs & calls & t & entries & S & Q & L & _ & _ & _ & CF & _).
    exists evs, calls, t, entries. split; [exact S|]. split; [exact Q|].
    split; [exact L|]. split; [exact (InSequence_patches Q L) | exact CF].
Qed.

(** ** Errors *)

(** C6 on a rejected get-ref.  The store answers get-ref with 404 and
    the body text [Not Found]: the error raised and reported is "Failed
    to get branch reference: 404"; the text of the payload is not in it,
    whereas the three writing steps of the same handler put the body
    text of a rejected response into their error. *)
Theorem get_ref_rejection_drops_payload :
  let out := commit_files serveRemote (scenarioFs "A" "C") inOrder scenarioEnv
               ["a.txt"] "init"
               (startWorld "H0"
                  [respond 404 "Not Found" (JObj [("message", JStr "Not Found")])]) in
  commit_files_try serveRemote (scenarioFs "A" "C") inOrder scenarioEnv ["a.txt"] "init"
    (startWorld "H0" [respond 404 "Not Found" (JObj [("message", JStr "Not Found")])])
  = (Throw (JsError "Failed to get branch reference: 404"), snd out)
  /\ error (fst out) = Some "Failed to get branch reference: 404"
  /\ Js.includes "Failed to get branch reference: 404" "Not Found" = false.
Proof. repeat split. Qed.

(** What each step reports.  When the store answers a call with a
    response that is not 2xx, the handler ends with the error of that
    step: for create-tree, create-commit and update-ref the message is
    the step's prefix, the status code and the body text of the
    response, verbatim; for get-ref and get-commit it is the prefix and
    the status code only.  When [fetch] itself is rejected the handler
    ends with that rejection.  In each case the error is the handler's
    result. *)
Lemma rejections_are_reported (Store : Type)
    (serve : Request -> Store -> Result Response * Store)
    (fs : string -> Result string) (settled : string -> nat) (env : Env)
    (paths : list string) (message : string) (w : World Store) :
  (exists evs calls,
     Steps serve w (snd (commit_files serve fs settled env paths message w)) evs calls
     /\ RejectionReported (fst (commit_files serve fs settled env paths message w)) calls)
  /\ (exists evs calls,
        Steps serve w (snd (delete_files serve env paths message w)) evs calls
        /\ RejectionReported (fst (delete_files serve env paths message w)) calls)
  /\ (forall resp,
        rejectionError 1 resp
        = JsError ("Failed to get branch reference: " ++ Js.ofNat (status resp))
        /\ rejectionError 2 resp
           = JsError ("Failed to get base commit: " ++ Js.ofNat (status resp)))
  /\ (forall resp t, text resp = Ok t ->
        rejectionError 3 resp
        = JsError ("Failed to create tree: " ++ Js.ofNat (status resp) ++ " - " ++ t)
        /\ rejectionError 4 resp
           = JsError ("Failed to create commit: " ++ Js.ofNat (status resp) ++ " - " ++ t)
        /\ rejectionError 5 resp
           = JsError ("Failed to update reference: " ++ Js.ofNat (status resp)
                      ++ " - " ++ t)).
Proof.
  split; [exact (Run_rejection (commit_files_run serve fs settled env paths message w))|].
  split; [exact (Run_rejection (delete_files_run serve env paths message w))|].
  split.
  - intros resp. split; reflexivity.
  - intros resp t X. unfold rejectionError, rejection. rewrite X. repeat split.
Qed.

(** C10. Whatever fails in [commit_files] or [delete_files], the
    handler returns an in-band result with [isError] true, whose text
    is "Error: " followed by the message of the failure and whose
    [error] is that message.  So it is for whatever the body of the
    [try] throws; in particular for a missing or empty token, reported
    before any request as "GITHUB_TOKEN environment variable is
    required"; for a call that fails, reported as the rejection of
    [fetch] or with the name of the step, the status code and, for the
    three writing steps, the body text; for a path [delete_files]
    rejects, before any request; and for a local read of [commit_files]
    that fails: that ends the run after get-commit, and the error
    reported is that of a failing read before which no other read
    failed.  A result that is not an error comes only after five
    accepted calls.  The calls of a run are the steps of their
    positions, each made once and only after every earlier call was
    accepted: nothing is retried. *)
Theorem failures_are_returned_in_band (Store : Type)
    (serve : Request -> Store -> Result Response * Store)
    (fs : string -> Result string) (settled : string -> nat) (env : Env)
    (paths : list string) (message : string) (w : World Store) :
  (exists evs calls githubToken entries,
     Steps serve w (snd (commit_files serve fs settled env paths message w)) evs calls
     /\ InSequence env githubToken message entries calls
     /\ length calls <= 5
     /\ (forall e, fst (commit_files_try serve fs settled env paths message w) = Throw e ->
           ReportsThrown (fst (commit_files serve fs settled env paths message w)) e)
     /\ (GITHUB_TOKEN env = None \/ GITHUB_TOKEN env = Some "" ->
         calls = []
         /\ Reports (fst (commit_files serve fs settled env paths message w))
              "GITHUB_TOKEN environment variable is required")
     /\ CallFailureReported (fst (commit_files serve fs settled env paths message w)) calls
     /\ (forall t, GITHUB_TOKEN env = Some t -> t <> "" ->
         forall c1 c2 rest,
           calls = c1 :: c2 :: rest ->
           accepted (snd c2) = true ->
           (exists baseTreeSha, answered (snd c2) ["tree"; "sha"] = Ok baseTreeSha) ->
           (exists filePath e, In filePath paths /\ fs (fileRead env filePath) = Throw e) ->
           rest = []
           /\ exists filePath e,
                In filePath paths
                /\ fs (fileRead env filePath) = Throw e
                /\ (forall other e',
                      In other paths -> fs (fileRead env other) = Throw e' ->
                      settled (fileRead env filePath) <= settled (fileRead env other))
                /\ ReportsThrown
                     (fst (commit_files serve fs settled env paths message w)) e)
     /\ (isError (fst (commit_files serve fs settled env paths message w)) = Some true
         \/ (length calls = 5 /\ allAccepted calls)))
  /\ (exists evs calls githubToken entries,
        Steps serve w (snd (delete_files serve env paths message w)) evs calls
        /\ InSequence env githubToken message entries calls
        /\ length calls <= 5
        /\ (forall e, fst (delete_files_try serve env paths message w) = Throw e ->
              ReportsThrown (fst (delete_files serve env paths message w)) e)
        /\ (GITHUB_TOKEN env = None \/ GITHUB_TOKEN env = Some "" ->
            calls = []
            /\ Reports (fst (delete_files serve env paths message w))
                 "GITHUB_TOKEN environment variable is required")
        /\ CallFailureReported (fst (delete_files serve env paths message w)) calls
        /\ (forall t, GITHUB_TOKEN env = Some t -> t <> "" ->
            forall before filePath after,
              paths = (before ++ filePath :: after)%list ->
              Forall (fun p => Js.startsWith p "/" = false
                               \/ Js.startsWith p (cwd env) = true) before ->
              Js.startsWith filePath "/" = true ->
              Js.startsWith filePath (cwd env) = false ->
              calls = []
              /\ Reports (fst (delete_files serve env paths message w))
                   ("Path '" ++ filePath
                    ++ "' must be relative to repository root or within current working directory"))
        /\ (isError (fst (delete_files serve env paths message w)) = Some true
            \/ (length calls = 5 /\ allAccepted calls))).
Proof.
  split.
  - destruct (commit_files_explicit serve fs settled env paths message w)
      as (evs & calls & t & entries & S & Q & L & _ & _ & _ & _ & CF & F & TH & NT & T).
    exists evs, calls, t, entries. split; [exact S|]. split; [exact Q|].
    split; [exact L|]. split; [exact TH|]. split; [exact NT|]. split; [exact CF|].
    split.
    + intros t' G N. exact (proj2 (proj2 (T t' G N))).
    + destruct F as [F | (L5 & A & _)]; auto.
  - destruct (delete_files_explicit serve env paths message w)
      as (evs & calls & t & entries & S & Q & L & _ & _ & _ & CF & F & TH & NT & T).
    exists evs, calls, t, entries. split; [exact S|]. split; [exact Q|].
    split; [exact L|]. split; [exact TH|]. split; [exact NT|]. split; [exact CF|].
    split.
    + intros t' G N. exact (proj2 (proj2 (T t' G N))).
    + destruct F as [F | (L5 & A & _)]; auto.
Qed.

(** ** Empty and repeated paths *)

(** C3, as stated, fails on the empty list: called with no path and
    a token, [commit_files] and [delete_files] are not refused; they
    make the five requests, among them create-tree with an empty list
    of entries, and, the store of the scenario answering as usual,
    return a result that is not an error and move the branch. *)
Lemma empty_request_reaches_the_store :
  let w := startWorld "H0" (happyScript "H0" "T0" "T1" "H1" "init" "n" "d") in
  let made :=
    [ Fetched (scenarioGet "https://api.github.com/repos/acme/site/git/refs/heads/main");
      Fetched (scenarioGet "https://api.github.com/repos/acme/site/git/commits/H0");
      Fetched (scenarioSend POST "https://api.github.com/repos/acme/site/git/trees"
                 (JObj [("base_tree", JStr "T0"); ("tree", JArr [])]));
      Fetched (scenarioSend POST "https://api.github.com/repos/acme/site/git/commits"
                 (JObj [ ("message", JStr "init"); ("tree", JStr "T1");
                         ("parents", JArr [JStr "H0"]) ]));
      Fetched (scenarioSend PATCH
                 "https://api.github.com/repos/acme/site/git/refs/heads/main"
                 (JObj [("sha", JStr "H1"); ("force", JBool false)])) ] in
  let committed := commit_files serveRemote (scenarioFs "A" "C") inOrder scenarioEnv
                     [] "init" w in
  let deleted := delete_files serveRemote scenarioEnv [] "init" w in
  trace (snd committed) = made
  /\ isError (fst committed) = None
  /\ branchTip (store (snd committed)) = Some (JStr "H1")
  /\ trace (snd deleted) = made
  /\ isError (fst deleted) = None
  /\ branchTip (store (snd deleted)) = Some (JStr "H1").
Proof. repeat split. Qed.

(** C3, amended. With a token, neither handler refuses a list of paths
    for being empty or for naming a path twice.  [commit_files] always
    makes the get-ref request and goes on with the usual sequence, and
    once it gets to create-tree it has read one local file for each
    given path and sends one entry for each, in the order given: none
    for the empty list.  So does [delete_files] on every list it finds
    no path to reject in, with one entry with a null hash for each
    given path. *)
Theorem empty_request_is_not_rejected (Store : Type)
    (serve : Request -> Store -> Result Response * Store)
    (fs : string -> Result string) (settled : string -> nat) (env : Env)
    (githubToken : string) (paths : list string) (message : string) (w : World Store) :
  GITHUB_TOKEN env = Some githubToken ->
  githubToken <> "" ->
  (exists evs calls entries r1 a1 rest,
     Steps serve w (snd (commit_files serve fs settled env paths message w)) evs calls
     /\ InSequence env githubToken message entries calls
     /\ calls = (r1, a1) :: rest
     /\ IsGetRef env githubToken r1
     /\ (2 < length calls ->
         Written fs env paths entries
         /\ length entries = length paths
         /\ reads evs = map (fileRead env) paths))
  /\ (Forall (fun p => Js.startsWith p "/" = false
                       \/ Js.startsWith p (cwd env) = true) paths ->
      exists evs calls entries r1 a1 rest,
        Steps serve w (snd (delete_files serve env paths message w)) evs calls
        /\ InSequence env githubToken message entries calls
        /\ calls = (r1, a1) :: rest
        /\ IsGetRef env githubToken r1
        /\ (2 < length calls ->
            Deleted env paths entries /\ length entries = length paths)).
Proof.
  intros G N. split.
  - destruct (commit_files_explicit serve fs settled env paths message w)
      as (evs & calls & t & entries & S & Q & _ & _ & _ & K & _ & _ & _ & _ & _ & T).
    destruct (T _ G N) as (-> & C & _).
    destruct calls as [|[r1 a1] rest]; [contradiction|].
    exists evs, ((r1, a1) :: rest), entries, r1, a1, rest.
    split; [exact S|]. split; [exact Q|]. split; [reflexivity|].
    split; [exact (proj2 (Q [] r1 a1 rest eq_refl))|].
    intros L. destruct (K L) as [W R]. split; [exact W|]. split; [|exact R].
    symmetry. exact (Forall2_length W).
  - intros A. destruct (delete_files_explicit serve env paths message w)
      as (evs & calls & t & entries & S & Q & _ & _ & K & _ & _ & _ & _ & _ & T).
    destruct (T _ G N) as (-> & C & _). specialize (C A).
    destruct calls as [|[r1 a1] rest]; [contradiction|].
    exists evs, ((r1, a1) :: rest), entries, r1, a1, rest.
    split; [exact S|]. split; [exact Q|]. split; [reflexivity|].
    split; [exact (proj2 (Q [] r1 a1 rest eq_refl))|].
    intros L. pose proof (K L) as D. split; [exact D|].
    destruct D as (processed & R & ->). rewrite length_map. symmetry.
    exact (Forall2_length R).
Qed.

Lemma empty_request_is_not_rejected_witness :
  let w := startWorld "H0" (happyScript "H0" "T0" "T1" "H1" "init" "n" "d") in
  GITHUB_TOKEN scenarioEnv = Some "secret"
  /\ "secret" <> ""
  /\ exists evs calls entries r1 a1 rest,
       Steps serveRemote w
         (snd (commit_files serveRemote (scenarioFs "A" "C") inOrder scenarioEnv
                 ["a.txt"; "a.txt"] "init" w))
         evs calls
       /\ InSequence scenarioEnv "secret" "init" entries calls
       /\ calls = (r1, a1) :: rest
       /\ IsGetRef scenarioEnv "secret" r1
       /\ (2 < length calls ->
           Written (scenarioFs "A" "C") scenarioEnv ["a.txt"; "a.txt"] entries
           /\ length entries = length ["a.txt"; "a.txt"]
           /\ reads evs = map (fileRead scenarioEnv) ["a.txt"; "a.txt"]).
Proof.
  intros w. split; [reflexivity|]. split; [discriminate|].
  exact (proj1 (@empty_request_is_not_rejected Remote serveRemote (scenarioFs "A" "C")
                  inOrder scenarioEnv "secret" ["a.txt"; "a.txt"] "init" w
                  eq_refl ltac:(discriminate))).
Defined.

(** ** Paths of [commit_files] *)

(** C4 on the example of the specification and on a path that does
    lie outside the repository.  With repository root [/work/repo],
    [commit_files] given [/etc/passwd] raises no path-validation error:
    it makes the get-ref and get-commit requests and then reads
    [/work/repo/etc/passwd], and what it reports is the failure of that
    read.  Given [//etc/passwd] it reads the file [/etc/passwd] of the
    host, outside the repository, and commits its content.
    [delete_files], given the same paths, refuses each before any
    request. *)
Theorem absolute_path_is_not_rejected :
  let w := startWorld "H0" (happyScript "H0" "T0" "T1" "H1" "init" "n" "d") in
  commit_files serveRemote hostFs inOrder scenarioEnv ["/etc/passwd"] "init" w
  = ( refusal "ENOENT: no such file or directory, open '/work/repo/etc/passwd'",
      {| store := {| branchTip := Some (JStr "H0");
                     script := skipn 2 (happyScript "H0" "T0" "T1" "H1" "init" "n" "d") |};
         trace :=
           [ Fetched (scenarioGet
                        "https://api.github.com/repos/acme/site/git/refs/heads/main");
             Fetched (scenarioGet
                        "https://api.github.com/repos/acme/site/git/commits/H0");
             ReadFile "/work/repo/etc/passwd" ] |} )
  /\ (let out := commit_files serveRemote hostFs inOrder scenarioEnv
                   ["//etc/passwd"] "init" w in
      isError (fst out) = None
      /\ branchTip (store (snd out)) = Some (JStr "H1")
      /\ firstn 4 (trace (snd out))
         = [ Fetched (scenarioGet
                        "https://api.github.com/repos/acme/site/git/refs/heads/main");
             Fetched (scenarioGet
                        "https://api.github.com/repos/acme/site/git/commits/H0");
             ReadFile "/etc/passwd";
             Fetched (scenarioSend POST
                        "https://api.github.com/repos/acme/site/git/trees"
                        (JObj [ ("base_tree", JStr "T0");
                                ("tree", JArr [blobOf "/etc/passwd" "root"]) ])) ]
      /\ Path.inside "/work/repo" "/etc/passwd" = false)
  /\ delete_files serveRemote scenarioEnv ["/etc/passwd"] "init" w
     = ( refusal ("Path '/etc/passwd' must be relative to repository root "
                  ++ "or within current working directory"), w )
  /\ delete_files serveRemote scenarioEnv ["//etc/passwd"] "init" w
     = ( refusal ("Path '//etc/passwd' must be relative to repository root "
                  ++ "or within current working directory"), w ).
Proof. repeat split. Qed.

(** C9 on a path with two leading separators.  One separator is
    stripped, the processed path [/etc/passwd] still begins with one,
    and the local file is read from that path itself, not from
    [join(REPO_DIR, processedPath)], which is [/work/repo/etc/passwd]:
    the file of the host is read and committed under the tree path
    [/etc/passwd].  A path with one leading separator and a relative
    path are read under the repository directory, as the claim says,
    also when parent segments lead out of it. *)
Theorem double_separator_is_read_as_is :
  let w := startWorld "H0" (happyScript "H0" "T0" "T1" "H1" "init" "n" "d") in
  (let out := commit_files serveRemote hostFs inOrder scenarioEnv
                ["//etc/passwd"] "init" w in
   fst out
   = {| content :=
          [TextContent (JSON_stringify (JObj
             [ ("commit", JObj [ ("sha", JStr "H1"); ("message", JStr "init");
                                 ("author", JStr "n"); ("date", JStr "d") ]);
               ("files", JArr [ JObj [("path", JStr "/etc/passwd")] ]);
               ("tree", JObj [("sha", JStr "T1")]) ]))];
        error := None; isError := None |}
   /\ firstn 4 (trace (snd out))
      = [ Fetched (scenarioGet
                     "https://api.github.com/repos/acme/site/git/refs/heads/main");
          Fetched (scenarioGet
                     "https://api.github.com/repos/acme/site/git/commits/H0");
          ReadFile "/etc/passwd";
          Fetched (scenarioSend POST
                     "https://api.github.com/repos/acme/site/git/trees"
                     (JObj [ ("base_tree", JStr "T0");
                             ("tree", JArr [blobOf "/etc/passwd" "root"]) ])) ]
   /\ Path.join "/work/repo" "/etc/passwd" = "/work/repo/etc/passwd")
  /\ reads (trace (snd (commit_files serveRemote hostFs inOrder scenarioEnv
                          ["/etc/passwd"] "init" w)))
     = ["/work/repo/etc/passwd"]
  /\ (let out := commit_files serveRemote hostFs inOrder scenarioEnv
                   ["../../etc/passwd"] "init" w in
      isError (fst out) = None
      /\ firstn 4 (trace (snd out))
         = [ Fetched (scenarioGet
                        "https://api.github.com/repos/acme/site/git/refs/heads/main");
             Fetched (scenarioGet
                        "https://api.github.com/repos/acme/site/git/commits/H0");
             ReadFile "/etc/passwd";
             Fetched (scenarioSend POST
                        "https://api.github.com/repos/acme/site/git/trees"
                        (JObj [ ("base_tree", JStr "T0");
                                ("tree", JArr [blobOf "../../etc/passwd" "root"]) ])) ]
      /\ Path.join "/work/repo" "../../etc/passwd" = "/etc/passwd").
Proof. repeat split. Qed.

(** ** The two path-processing functions *)



(** ** Absolute paths of [delete_files] *)

(** C8 on a path that begins with the text of the working directory
    without lying in it: with working directory [/work/repo],
    [delete_files] accepts [/work/repo2/x], drops the eleven leading
    characters and asks the store to delete the path [/x]; and for the
    working directory itself it asks to delete the empty path. *)
Theorem delete_accepts_sibling_of_cwd :
  let out := delete_files serveRemote scenarioEnv ["/work/repo2/x"] "init"
               (startWorld "H0" (happyScript "H0" "T0" "T1" "H1" "init" "n" "d")) in
  Js.startsWith "/work/repo2/x" (cwd scenarioEnv) = true
  /\ Js.startsWith "/work/repo2/x" (cwd scenarioEnv ++ "/") = false
  /\ processPath scenarioEnv "/work/repo2/x" = Ok "/x"
  /\ processPath scenarioEnv "/work/repo" = Ok ""
  /\ nth_error (requests (trace (snd out))) 2
     = Some (createTreeRequest scenarioEnv "secret" (Some (JStr "T0")) [deleteEntry "/x"])
  /\ isError (fst out) = None.
Proof. repeat split. Qed.

(** * Further properties of the server *)

(** ** The token *)

(** Without a token, that is with [GITHUB_TOKEN] unset or empty, each of
    the eight tools returns the same error and does nothing else: no
    request, no local read, the store untouched. *)
Theorem no_token_no_effect (Store : Type)
    (serve : Request -> Store -> Result Response * Store)
    (fs : string -> Result string) (settled : string -> nat) (env : Env) (w : World Store)
    (paths : list string) (message owner repo title text' head base commentId : string)
    (assignees labels : option (list string)) (milestone : option string)
    (draft maintainer_can_modify : option bool)
    (state : option IssueState) (filter assignee creator : option string)
    (sort : option IssueSort) (direction : option SortDirection)
    (per_page page : option string) :
  credential env = None ->
  let refused :=
    ({| content := [TextContent (Plain "Error: GITHUB_TOKEN environment variable is required")];
        error := Some "GITHUB_TOKEN environment variable is required";
        isError := Some true |}, w) in
  commit_files serve fs settled env paths message w = refused
  /\ delete_files serve env paths message w = refused
  /\ create_issue serve env owner repo title text' assignees labels milestone w = refused
  /\ github__update_issue_comment serve env owner repo commentId text' w = refused
  /\ create_pull_request serve env owner repo title text' head base
       draft maintainer_can_modify w = refused
  /\ github__update_pull_request_comment serve env owner repo commentId text' w = refused
  /\ update_pull_request_review_comment serve env owner repo commentId text' w = refused
  /\ list_issues serve env owner repo state filter assignee creator sort direction
       per_page page w = refused.
Proof.
  intros C refused. subst refused.
  split; [unfold commit_files; rewrite commit_files_is_mutation;
          apply mutation_no_token; exact C|].
  split; [unfold delete_files; rewrite delete_files_is_mutation;
          apply mutation_no_token; exact C|].
  rewrite create_issue_run, github__update_issue_comment_run, create_pull_request_run,
    github__update_pull_request_comment_run, update_pull_request_review_comment_run,
    list_issues_run, C.
  repeat split.
Qed.

Lemma no_token_no_effect_witness :
  let env := {| GITHUB_API_URL := "https://api.github.com";
                REPO_OWNER := "acme"; REPO_NAME := "site"; BRANCH_NAME := "main";
                env_REPO_DIR := None; cwd := "/work/repo";
                GITHUB_TOKEN := Some "" |} in
  let w := startWorld "H0" (happyScript "H0" "T0" "T1" "H1" "init" "n" "d") in
  credential env = None
  /\ commit_files serveRemote (scenarioFs "A" "C") inOrder env ["a.txt"] "init" w
     = (errorResult (JsError "GITHUB_TOKEN environment variable is required"), w).
Proof.
  intros env w. split; [reflexivity|].
  exact (proj1 (@no_token_no_effect Remote serveRemote (scenarioFs "A" "C") inOrder env w
                  ["a.txt"] "init" "o" "r" "t" "b" "h" "m" "1"
                  None None None None None None None None None None None None None
                  eq_refl)).
Defined.

(** ** Paths of [delete_files] *)

(** One rejected path rejects the whole request of [delete_files]: when
    the paths before it are acceptable, the handler returns the error
    naming that path and makes no request, whatever comes after it. *)
Theorem delete_files_rejects_whole_list (Store : Type)
    (serve : Request -> Store -> Result Response * Store) (env : Env)
    (githubToken : string) (before after : list string) (p message : string)
    (w : World Store) :
  credential env = Some githubToken ->
  Forall (fun q => Js.startsWith q "/" = false \/ Js.startsWith q (cwd env) = true)
    before ->
  Js.startsWith p "/" = true ->
  Js.startsWith p (cwd env) = false ->
  delete_files serve env (before ++ p :: after) message w
  = ({| content :=
          [TextContent (Plain ("Error: Path '" ++ p
             ++ "' must be relative to repository root or within current working directory"))];
        error := Some ("Path '" ++ p
             ++ "' must be relative to repository root or within current working directory");
        isError := Some true |}, w).
Proof.
  intros C B A N.
  assert (P : processPaths env (before ++ p :: after) = Throw (pathError p)).
  { apply processPaths_first_rejected.
    - eapply Forall_impl; [|exact B]. intros q. apply processPath_accepts.
    - unfold processPath. rewrite A, N. reflexivity. }
  unfold delete_files. rewrite delete_files_is_mutation, P.
  apply mutation_rejected with (githubToken := githubToken). exact C.
Qed.

Lemma delete_files_rejects_whole_list_witness :
  let w := startWorld "H0" (happyScript "H0" "T0" "T1" "H1" "init" "n" "d") in
  credential scenarioEnv = Some "secret"
  /\ Forall (fun q => Js.startsWith q "/" = false
                      \/ Js.startsWith q (cwd scenarioEnv) = true)
       ["a.txt"; "/work/repo/b.txt"]
  /\ Js.startsWith "/etc/passwd" "/" = true
  /\ Js.startsWith "/etc/passwd" (cwd scenarioEnv) = false
  /\ delete_files serveRemote scenarioEnv
       (["a.txt"; "/work/repo/b.txt"] ++ "/etc/passwd" :: ["c.txt"]) "init" w
     = (errorResult (pathError "/etc/passwd"), w).
Proof.
  intros w.
  assert (B : Forall (fun q => Js.startsWith q "/" = false
                               \/ Js.startsWith q (cwd scenarioEnv) = true)
                ["a.txt"; "/work/repo/b.txt"])
    by (constructor; [left; reflexivity|];
        constructor; [right; reflexivity|]; constructor).
  split; [reflexivity|]. split; [exact B|]. split; [reflexivity|].
  split; [reflexivity|].
  exact (@delete_files_rejects_whole_list Remote serveRemote scenarioEnv "secret"
           ["a.txt"; "/work/repo/b.txt"] ["c.txt"] "/etc/passwd" "init" w
           eq_refl B eq_refl eq_refl).
Defined.

(** ** The order of effects *)

(** [commit_files] reads local files only between get-commit and
    create-tree.  What it does is the requests of its first two calls,
    get-ref and get-commit for the commit the first answer gave, then
    its reads, then the requests of its later calls.  When get-ref or
    get-commit is not accepted the run ends there and no file is read.
    When it goes on to create-tree, it has read one file for each given
    path, in the order given, and create-tree sends one entry for each
    with the content read. *)
Theorem commit_files_reads_between_fetches (Store : Type)
    (serve : Request -> Store -> Result Response * Store)
    (fs : string -> Result string) (settled : string -> nat) (env : Env)
    (files : list string) (message : string) (w : World Store) :
  exists evs calls githubToken entries,
    Steps serve w (snd (commit_files serve fs settled env files message w)) evs calls
    /\ evs = (map Fetched (map fst (firstn 2 calls)) ++ map ReadFile (reads evs)
              ++ map Fetched (map fst (skipn 2 calls)))%list
    /\ (reads evs = [] \/ reads evs = map (fileRead env) files)
    /\ (forall r1 a1 rest,
          calls = (r1, a1) :: rest ->
          IsGetRef env githubToken r1
          /\ (accepted a1 = false -> rest = [] /\ reads evs = []))
    /\ (forall r1 a1 r2 a2 rest,
          calls = (r1, a1) :: (r2, a2) :: rest ->
          (exists baseSha,
             answered a1 ["object"; "sha"] = Ok baseSha
             /\ IsGetCommit env githubToken baseSha r2)
          /\ (accepted a2 = false -> rest = [] /\ reads evs = []))
    /\ (forall c1 r2 a2 r3 a3 rest,
          calls = c1 :: (r2, a2) :: (r3, a3) :: rest ->
          (exists baseTreeSha,
             answered a2 ["tree"; "sha"] = Ok baseTreeSha
             /\ IsCreateTree env githubToken baseTreeSha entries r3)
          /\ Written fs env files entries
          /\ reads evs = map (fileRead env) files).
Proof.
  destruct (commit_files_explicit serve fs settled env files message w)
    as (evs & calls & t & entries & S & Q & _ & E1 & E2 & K & _).
  exists evs, calls, t, entries. split; [exact S|]. split; [exact E1|].
  split.
  { destruct E2 as [N | (c1 & c2 & rest & _ & _ & _ & R)]; auto. }
  split.
  { intros r1 a1 rest ->. split; [exact (proj2 (Q [] r1 a1 rest eq_refl))|].
    intros A. assert (rest = []) as ->.
    { destruct rest as [|[r2 a2] rest]; [reflexivity|].
      destruct (Q [(r1, a1)] r2 a2 rest eq_refl) as [B _].
      inversion B; subst. simpl in *. congruence. }
    split; [reflexivity|].
    destruct E2 as [N | (c1 & c2 & rest & X & _)]; [exact N | discriminate]. }
  split.
  { intros r1 a1 r2 a2 rest ->.
    split; [exact (proj2 (Q [(r1, a1)] r2 a2 rest eq_refl))|].
    intros A. assert (rest = []) as ->.
    { destruct rest as [|[r3 a3] rest]; [reflexivity|].
      destruct (Q [(r1, a1); (r2, a2)] r3 a3 rest eq_refl) as [B _].
      inversion B as [|? ? _ B']; subst. inversion B'; subst. simpl in *. congruence. }
    split; [reflexivity|].
    destruct E2 as [N | (c1 & c2 & rest & [= <- <- <-] & _ & A2 & _)]; [exact N|].
    simpl in A2. congruence. }
  intros c1 r2 a2 r3 a3 rest ->.
  split; [exact (proj2 (Q [c1; (r2, a2)] r3 a3 rest eq_refl))|].
  apply K. simpl. lia.
Qed.

(** [delete_files] never reads a local file. *)
Theorem delete_files_reads_nothing (Store : Type)
    (serve : Request -> Store -> Result Response * Store) (env : Env)
    (paths : list string) (message : string) (w : World Store) :
  reads (trace (snd (delete_files serve env paths message w))) = reads (trace w).
Proof.
  destruct (delete_files_explicit serve env paths message w)
    as (evs & calls & t & entries & (T & _) & _ & _ & E & _).
  rewrite T, reads_app, E, reads_fetched. apply app_nil_r.
Qed.

(** ** The result of a successful mutation *)

(** When [commit_files] or [delete_files] returns a result that is not
    an error, it has made five calls, all accepted, the last of them
    the update-ref request for the commit hash it reports, and the
    result holds what the store answered: the hash, message, author
    name and date of the answer to create-commit, the hash of the answer
    to create-tree, and between them one [{path}] object for each path
    in the order given, under [files] the given paths without their
    leading separator, under [deletedFiles] the given paths made
    relative to the working directory. *)
Theorem successful_mutation_reports_what_it_did (Store : Type)
    (serve : Request -> Store -> Result Response * Store)
    (fs : string -> Result string) (settled : string -> nat) (env : Env)
    (paths : list string) (message : string) (w : World Store) :
  (isError (fst (commit_files serve fs settled env paths message w)) = None ->
   exists evs calls githubToken entries,
     Steps serve w (snd (commit_files serve fs settled env paths message w)) evs calls
     /\ InSequence env githubToken message entries calls
     /\ length calls = 5
     /\ allAccepted calls
     /\ Reported "files" (map withoutSeparator paths) calls
          (fst (commit_files serve fs settled env paths message w)))
  /\ (isError (fst (delete_files serve env paths message w)) = None ->
      exists evs calls githubToken entries processed,
        Steps serve w (snd (delete_files serve env paths message w)) evs calls
        /\ InSequence env githubToken message entries calls
        /\ length calls = 5
        /\ allAccepted calls
        /\ Relativised env paths processed
        /\ Reported "deletedFiles" processed calls
             (fst (delete_files serve env paths message w))).
Proof.
  split; intros E.
  - destruct (commit_files_explicit serve fs settled env paths message w)
      as (evs & calls & t & entries & S & Q & _ & _ & _ & _ & _ & _ & F & _).
    destruct F as [F | (L & A & R)]; [congruence|].
    exists evs, calls, t, entries. auto.
  - destruct (delete_files_explicit serve env paths message w)
      as (evs & calls & t & entries & S & Q & _ & _ & _ & _ & _ & F & _).
    destruct F as [F | (L & A & processed & V & R)]; [congruence|].
    exists evs, calls, t, entries, processed. auto 10.
Qed.

Lemma successful_mutation_reports_what_it_did_witness :
  let w := startWorld "H0" (happyScript "H0" "T0" "T1" "H1" "init" "n" "d") in
  isError (fst (delete_files serveRemote scenarioEnv
                  ["/work/repo/old.txt"; "docs/x.md"] "init" w)) = None
  /\ exists evs calls githubToken entries processed,
       Steps serveRemote w
         (snd (delete_files serveRemote scenarioEnv
                 ["/work/repo/old.txt"; "docs/x.md"] "init" w)) evs calls
       /\ InSequence scenarioEnv githubToken "init" entries calls
       /\ length calls = 5
       /\ allAccepted calls
       /\ Relativised scenarioEnv ["/work/repo/old.txt"; "docs/x.md"] processed
       /\ Reported "deletedFiles" processed calls
            (fst (delete_files serveRemote scenarioEnv
                    ["/work/repo/old.txt"; "docs/x.md"] "init" w)).
Proof.
  intros w. split; [reflexivity|].
  exact (proj2 (@successful_mutation_reports_what_it_did Remote serveRemote
                  (scenarioFs "A" "C") inOrder scenarioEnv
                  ["/work/repo/old.txt"; "docs/x.md"] "init" w) eq_refl).
Defined.

(** ** A local file that cannot be read *)

(** When one of the local files cannot be read, [commit_files] writes
    nothing to the store: it makes at most the two reading requests
    (get-ref and get-commit, both [GET] without a body) and returns an
    error. *)
Theorem unreadable_file_prevents_every_write (Store : Type)
    (serve : Request -> Store -> Result Response * Store)
    (fs : string -> Result string) (settled : string -> nat) (env : Env)
    (files : list string) (message : string) (w : World Store) (e : Exn) :
  Promise_all (map (startRead fs settled env) (map processFile files)) = Throw e ->
  exists evs calls,
    Steps serve w (snd (commit_files serve fs settled env files message w)) evs calls
    /\ length calls <= 2
    /\ Forall (fun c => method (fst c) = GET /\ body (fst c) = None) calls
    /\ isError (fst (commit_files serve fs settled env files message w)) = Some true.
Proof.
  intros U. change (allRead fs settled env (map processFile files) = Throw e) in U.
  destruct (commit_files_run serve fs settled env files message w)
    as (evs & calls & S & _ & _ & P & Q).
  exists evs, calls. split; [exact S|].
  assert (L : length calls <= 2).
  { destruct (credential env); [|subst calls; simpl; lia].
    destruct P as (treeEntries & _ & _ & G).
    destruct (Nat.le_gt_cases (length calls) 2) as [Le | Gt]; [exact Le|].
    destruct (G Gt) as (O & _). rewrite U in O. discriminate. }
  split; [exact L|]. split.
  - destruct (credential env); [|subst calls; constructor].
    destruct P as (treeEntries & T & _). exact (Transcript_reads_only T L).
  - destruct (fst (commit_files_try serve fs settled env files message w)).
    + destruct Q as (_ & F & _). lia.
    + destruct Q as (-> & _). reflexivity.
Qed.

Lemma unreadable_file_prevents_every_write_witness :
  let w := startWorld "H0" (happyScript "H0" "T0" "T1" "H1" "init" "n" "d") in
  Promise_all (map (startRead (scenarioFs "A" "C") inOrder scenarioEnv)
                 (map processFile ["a.txt"; "missing.txt"]))
  = Throw (JsError "ENOENT: no such file or directory, open '/work/repo/missing.txt'")
  /\ exists evs calls,
       Steps serveRemote w
         (snd (commit_files serveRemote (scenarioFs "A" "C") inOrder scenarioEnv
                 ["a.txt"; "missing.txt"] "init" w)) evs calls
       /\ length calls <= 2
       /\ Forall (fun c => method (fst c) = GET /\ body (fst c) = None) calls
       /\ isError (fst (commit_files serveRemote (scenarioFs "A" "C") inOrder scenarioEnv
                          ["a.txt"; "missing.txt"] "init" w)) = Some true.
Proof.
  intros w. split; [reflexivity|].
  exact (@unreadable_file_prevents_every_write Remote serveRemote (scenarioFs "A" "C")
           inOrder scenarioEnv ["a.txt"; "missing.txt"] "init" w _ eq_refl).
Defined.

(** ** Where the requests go *)


(** ** The single-request tools *)

(** With a token, each of the six other tools makes exactly one
    request, whatever the store answers, and nothing else: a [POST] to
    the issues or pulls of the repository named by the arguments, a
    [PATCH] to the comment, a [GET] of the issues.  The repository is
    the one of the arguments, not the one of the environment. *)
Theorem single_request_tools_make_one_request (Store : Type)
    (serve : Request -> Store -> Result Response * Store) (env : Env)
    (githubToken : string) (w : World Store)
    (owner repo title text' head base commentId : string)
    (assignees labels : option (list string)) (milestone : option string)
    (draft maintainer_can_modify : option bool)
    (state : option IssueState) (filter assignee creator : option string)
    (sort : option IssueSort) (direction : option SortDirection)
    (per_page page : option string) :
  credential env = Some githubToken ->
  let repository := GITHUB_API_URL env ++ "/repos/" ++ owner ++ "/" ++ repo in
  (exists req,
     MakesOnly serve (create_issue serve env owner repo title text'
                        assignees labels milestone) req w
     /\ method req = POST /\ url req = repository ++ "/issues")
  /\ (exists req,
        MakesOnly serve (create_pull_request serve env owner repo title text' head base
                           draft maintainer_can_modify) req w
        /\ method req = POST /\ url req = repository ++ "/pulls")
  /\ (exists req,
        MakesOnly serve (github__update_issue_comment serve env owner repo
                           commentId text') req w
        /\ method req = PATCH
        /\ url req = repository ++ "/issues/comments/" ++ commentId)
  /\ (exists req,
        MakesOnly serve (github__update_pull_request_comment serve env owner repo
                           commentId text') req w
        /\ method req = PATCH
        /\ url req = repository ++ "/issues/comments/" ++ commentId)
  /\ (exists req,
        MakesOnly serve (update_pull_request_review_comment serve env owner repo
                           commentId text') req w
        /\ method req = PATCH
        /\ url req = repository ++ "/pulls/comments/" ++ commentId)
  /\ (exists req,
        MakesOnly serve (list_issues serve env owner repo state filter assignee creator
                           sort direction per_page page) req w
        /\ method req = GET /\ body req = None
        /\ url req = repository ++ "/issues?"
                     ++ URLSearchParams.toString
                          (issueParams state filter assignee creator sort direction
                             per_page page)).
Proof.
  intros C repository. unfold MakesOnly.
  rewrite create_issue_run, create_pull_request_run, github__update_issue_comment_run,
    github__update_pull_request_comment_run, update_pull_request_review_comment_run,
    list_issues_run, C.
  subst repository.
  repeat split; eexists; (split; [apply oneRequest_world|]); repeat split;
    unfold createIssueRequest, createPullRequestRequest, commentRequest,
      listIssuesRequest;
    cbn [url method body]; rewrite ?append_assoc; reflexivity.
Qed.

Lemma single_request_tools_make_one_request_witness :
  let w := startWorld "H0" [respond 201 "" (JObj [("id", JNum "7")])] in
  credential scenarioEnv = Some "secret"
  /\ exists req,
       MakesOnly serveRemote
         (create_issue serveRemote scenarioEnv "octo" "demo" "t" "b" None None None) req w
       /\ method req = POST
       /\ url req = "https://api.github.com/repos/octo/demo/issues".
Proof.
  intros w. split; [reflexivity|].
  exact (proj1 (@single_request_tools_make_one_request Remote serveRemote scenarioEnv
                  "secret" w "octo" "demo" "t" "b" "h" "m" "1"
                  None None None None None None None None None None None None None
                  eq_refl)).
Defined.

(** With a token, each of the six tools reports a response that is not
    2xx with its own prefix, the status code and the body text of the
    response, verbatim. *)
Theorem single_request_tools_report_rejections (Store : Type)
    (serve : Request -> Store -> Result Response * Store) (env : Env)
    (githubToken : string) (w : World Store)
    (owner repo title text' head base commentId : string)
    (assignees labels : option (list string)) (milestone : option string)
    (draft maintainer_can_modify : option bool)
    (state : option IssueState) (filter assignee creator : option string)
    (sort : option IssueSort) (direction : option SortDirection)
    (per_page page : option string) :
  credential env = Some githubToken ->
  ReportsRejection serve
    (create_issue serve env owner repo title text' assignees labels milestone)
    (createIssueRequest env githubToken owner repo title text' assignees labels milestone)
    "Failed to create issue: " w
  /\ ReportsRejection serve
       (create_pull_request serve env owner repo title text' head base
          draft maintainer_can_modify)
       (createPullRequestRequest env githubToken owner repo title text' head base
          draft maintainer_can_modify)
       "Failed to create pull request: " w
  /\ ReportsRejection serve
       (github__update_issue_comment serve env owner repo commentId text')
       (commentRequest env "issues" githubToken owner repo commentId text')
       "Failed to update comment: " w
  /\ ReportsRejection serve
       (github__update_pull_request_comment serve env owner repo commentId text')
       (commentRequest env "issues" githubToken owner repo commentId text')
       "Failed to update PR comment: " w
  /\ ReportsRejection serve
       (update_pull_request_review_comment serve env owner repo commentId text')
       (commentRequest env "pulls" githubToken owner repo commentId text')
       "Failed to update PR review comment: " w
  /\ ReportsRejection serve
       (list_issues serve env owner repo state filter assignee creator sort direction
          per_page page)
       (listIssuesRequest env githubToken owner repo
          (issueParams state filter assignee creator sort direction per_page page))
       "Failed to list issues: " w.
Proof.
  intros C. unfold ReportsRejection.
  rewrite create_issue_run, create_pull_request_run, github__update_issue_comment_run,
    github__update_pull_request_comment_run, update_pull_request_review_comment_run,
    list_issues_run, C.
  repeat split; intros resp t A O X; rewrite oneRequest_result, A, O, X; reflexivity.
Qed.

Lemma single_request_tools_report_rejections_witness :
  let w := startWorld "H0" [respond 404 "Not Found" (JObj [])] in
  credential scenarioEnv = Some "secret"
  /\ fst (list_issues serveRemote scenarioEnv "octo" "demo"
            None None None None None None None None w)
     = errorResult (JsError "Failed to list issues: 404 - Not Found").
Proof.
  intros w. split; [reflexivity|].
  exact (proj2 (proj2 (proj2 (proj2 (proj2
    (@single_request_tools_report_rejections Remote serveRemote scenarioEnv
       "secret" w "octo" "demo" "t" "b" "h" "m" "1"
       None None None None None None None None None None None None None
       eq_refl)))))
    _ "Not Found" eq_refl eq_refl eq_refl).
Defined.

(** The two tools that update an issue comment and a pull request
    comment are the same operation on the store: with the same
    arguments they make the same request, leave the same world, and
    fail together; they differ in the words of their messages only. *)
Theorem comment_tools_share_the_endpoint (Store : Type)
    (serve : Request -> Store -> Result Response * Store) (env : Env)
    (owner repo commentId text' : string) (w : World Store) :
  snd (github__update_issue_comment serve env owner repo commentId text' w)
  = snd (github__update_pull_request_comment serve env owner repo commentId text' w)
  /\ isError (fst (github__update_issue_comment serve env owner repo commentId text' w))
     = isError (fst (github__update_pull_request_comment serve env owner repo
                       commentId text' w)).
Proof.
  rewrite github__update_issue_comment_run, github__update_pull_request_comment_run.
  destruct (credential env) as [t|]; [|split; reflexivity].
  rewrite !oneRequest_world, !oneRequest_result. split; [reflexivity|].
  destruct (fst (serve _ (store w))) as [resp|e]; [|reflexivity].
  unfold acknowledged.
  destruct (ok resp); [destruct (json resp) | destruct (text resp)]; reflexivity.
Qed.

(** With a token, once the store has accepted the request of a comment
    tool, the tool answers "... updated successfully" whatever the
    response holds, provided its body is JSON; when the body cannot be
    parsed the tool reports the parse error, although the update was
    accepted. *)
Theorem comment_tools_need_a_json_body (Store : Type)
    (serve : Request -> Store -> Result Response * Store) (env : Env)
    (githubToken owner repo commentId text' : string) (w : World Store) :
  credential env = Some githubToken ->
  Acknowledges serve
    (github__update_issue_comment serve env owner repo commentId text')
    (commentRequest env "issues" githubToken owner repo commentId text')
    ("Comment " ++ commentId ++ " updated successfully") w
  /\ Acknowledges serve
       (github__update_pull_request_comment serve env owner repo commentId text')
       (commentRequest env "issues" githubToken owner repo commentId text')
       ("PR comment " ++ commentId ++ " updated successfully") w
  /\ Acknowledges serve
       (update_pull_request_review_comment serve env owner repo commentId text')
       (commentRequest env "pulls" githubToken owner repo commentId text')
       ("PR review comment " ++ commentId ++ " updated successfully") w.
Proof.
  intros C. unfold Acknowledges.
  rewrite github__update_issue_comment_run, github__update_pull_request_comment_run,
    update_pull_request_review_comment_run, C.
  repeat split; intros resp A O; eapply oneRequest_acknowledges; eassumption.
Qed.

Lemma comment_tools_need_a_json_body_witness :
  let w := @startWorld "H0"
             [Ok {| status := 200; text := Ok "";
                    json := Throw (JsError "Unexpected end of JSON input") |}] in
  credential scenarioEnv = Some "secret"
  /\ fst (github__update_issue_comment serveRemote scenarioEnv "octo" "demo" "42" "hi" w)
     = errorResult (JsError "Unexpected end of JSON input").
Proof.
  intros w. split; [reflexivity|].
  exact (proj1 (@comment_tools_need_a_json_body Remote serveRemote scenarioEnv
                  "secret" "octo" "demo" "42" "hi" w eq_refl)
           _ eq_refl eq_refl).
Defined.

(** ** Optional arguments *)

(** [create_issue] always sends [title] and [body]; it sends
    [assignees] and [labels] whenever they are given, even empty; it
    sends [milestone] only when it is given and not zero.
    [create_pull_request] sends [draft] and [maintainer_can_modify]
    whenever they are given, [false] included. *)
Theorem optional_arguments_of_the_creating_tools (env : Env)
    (githubToken owner repo title text' head base : string)
    (assignees labels : option (list string)) (milestone : option string)
    (draft maintainer_can_modify : option bool) :
  let issue := createIssueRequest env githubToken owner repo title text'
                 assignees labels milestone in
  let pull := createPullRequestRequest env githubToken owner repo title text' head base
                draft maintainer_can_modify in
  bodyProp issue "title" = Some (JStr title)
  /\ bodyProp issue "body" = Some (JStr text')
  /\ bodyProp issue "assignees" = option_map (fun l => JArr (map JStr l)) assignees
  /\ bodyProp issue "labels" = option_map (fun l => JArr (map JStr l)) labels
  /\ bodyProp issue "milestone"
     = match milestone with
       | Some n => if String.eqb n "0" then None else Some (JNum n)
       | None => None
       end
  /\ bodyProp pull "draft" = option_map JBool draft
  /\ bodyProp pull "maintainer_can_modify" = option_map JBool maintainer_can_modify
  /\ bodyProp pull "head" = Some (JStr head)
  /\ bodyProp pull "base" = Some (JStr base).
Proof.
  intros issue pull. subst issue pull.
  unfold bodyProp, createIssueRequest, createPullRequestRequest, whenTruthyNumber.
  cbn [body].
  destruct assignees, labels, milestone as [n|], draft, maintainer_can_modify;
    try destruct (String.eqb n "0"); repeat split.
Qed.

(** ** [list_issues] *)

(** The query of [list_issues] holds its filters at most once each and
    in the fixed order state, labels, assignee, creator, sort,
    direction, per_page, page.  A string filter is sent exactly when it
    is given and not empty, a number exactly when it is given and not
    zero, and each with the value that was given. *)
Theorem list_issues_query (state : option IssueState)
    (labels assignee creator : option string) (sort : option IssueSort)
    (direction : option SortDirection) (per_page page : option string) :
  let params := issueParams state labels assignee creator sort direction per_page page in
  map fst params
  = filter (fun k => existsb (String.eqb k) (map fst params))
      ["state"; "labels"; "assignee"; "creator"; "sort"; "direction"; "per_page"; "page"]
  /\ (forall v, In ("state", v) params <-> option_map stateName state = Some v)
  /\ (forall v, In ("labels", v) params <-> labels = Some v /\ v <> "")
  /\ (forall v, In ("assignee", v) params <-> assignee = Some v /\ v <> "")
  /\ (forall v, In ("creator", v) params <-> creator = Some v /\ v <> "")
  /\ (forall v, In ("sort", v) params <-> option_map sortName sort = Some v)
  /\ (forall v, In ("direction", v) params
                <-> option_map directionName direction = Some v)
  /\ (forall v, In ("per_page", v) params <-> per_page = Some v /\ v <> "0")
  /\ (forall v, In ("page", v) params <-> page = Some v /\ v <> "0").
Proof.
  intros params. subst params. unfold issueParams. split.
  - destruct (appendString_cases "state" (option_map stateName state))
      as [-> | (x1 & -> & _)];
    destruct (appendString_cases "labels" labels) as [-> | (x2 & -> & _)];
    destruct (appendString_cases "assignee" assignee) as [-> | (x3 & -> & _)];
    destruct (appendString_cases "creator" creator) as [-> | (x4 & -> & _)];
    destruct (appendString_cases "sort" (option_map sortName sort))
      as [-> | (x5 & -> & _)];
    destruct (appendString_cases "direction" (option_map directionName direction))
      as [-> | (x6 & -> & _)];
    destruct (appendNumber_cases "per_page" per_page) as [-> | (x7 & -> & _)];
    destruct (appendNumber_cases "page" page) as [-> | (x8 & -> & _)];
    reflexivity.
  - pose proof (@enum_not_empty state sort direction) as N.
    repeat apply conj; intros v; split; intros I;
      rewrite ?in_app_iff, ?In_appendString, ?In_appendNumber in *;
      intuition (try discriminate; eauto).
Qed.



(** * The token of the action *)

(** ** [retryWithBackoff] *)

Lemma retry_filter_emit (Host : Type) (e : Token.Event) (w : Token.World Host) :
  filter Token.isRetryEvent (Token.log (Token.emit e w))
  = (filter Token.isRetryEvent (Token.log w)
     ++ (if Token.isRetryEvent e then [e] else []))%list.
Proof.
  unfold Token.emit. simpl. rewrite filter_app. simpl.
  destruct (Token.isRetryEvent e); reflexivity.
Qed.

Lemma less_ge (a b : Q) : Token.less a b = false <-> (b <= a)%Q.
Proof.
  unfold Token.less. rewrite negb_false_iff. apply Qle_bool_iff.
Qed.

Lemma floor_above (m : Q) (n : Z) : (m <= inject_Z n)%Q -> (Qfloor m <= n)%Z.
Proof.
  intros H. rewrite Zle_Qle. apply Qle_trans with m; [apply Qfloor_le | exact H].
Qed.

Lemma retryLoop_schedule (Host T : Type) (operation : Token.M Host T)
    (maxAttempts maxDelayMs backoffFactor : Q) :
  Token.Quiet operation ->
  forall (remaining : nat) (attempt : Z) (delayMs : Q) (lastError : Exn)
         (w : Token.World Host),
    Z.of_nat remaining = (Qfloor maxAttempts - attempt + 1)%Z ->
    (1 <= remaining)%nat ->
    let r := Token.retryLoop operation maxAttempts maxDelayMs backoffFactor
               remaining attempt delayMs lastError w in
    exists k : nat,
      (1 <= k <= remaining)%nat
      /\ filter Token.isRetryEvent (Token.log (snd r))
         = (filter Token.isRetryEvent (Token.log w)
            ++ Token.backoffSchedule maxAttempts maxDelayMs backoffFactor k
                 attempt delayMs
                 (match fst r with
                  | Ok _ => false
                  | Throw _ => Token.less (inject_Z (Qfloor maxAttempts)) maxAttempts
                  end))%list
      /\ match fst r with
         | Ok v => exists w0, fst (operation w0) = Ok v
         | Throw e =>
             k = remaining
             /\ exists w0 e0, fst (operation w0) = Throw e0 /\ e = Token.asError e0
         end.
Proof.
  intros Q. induction remaining as [|remaining IH]; intros attempt delayMs lastError w E L r.
  - lia.
  - subst r. cbn [Token.retryLoop].
    pose proof (Q (Token.emit (Token.Attempt attempt maxAttempts) w)) as Qw.
    rewrite retry_filter_emit in Qw. cbn [Token.isRetryEvent] in Qw.
    destruct (operation (Token.emit (Token.Attempt attempt maxAttempts) w))
      as [[v|error] w'] eqn:O; cbn [snd] in Qw.
    + exists 1%nat. split; [lia|]. split; [exact Qw|].
      exists (Token.emit (Token.Attempt attempt maxAttempts) w). rewrite O. reflexivity.
    + destruct (Token.less (inject_Z attempt) maxAttempts) eqn:A.
      * destruct remaining as [|remaining].
        -- assert (attempt = Qfloor maxAttempts) as -> by lia.
           cbn [Token.retryLoop fst snd]. exists 1%nat. split; [lia|]. split.
           ++ rewrite retry_filter_emit, Qw, A. cbn [Token.isRetryEvent Token.backoffSchedule].
              rewrite <- !app_assoc. reflexivity.
           ++ split; [reflexivity|].
              exists (Token.emit (Token.Attempt (Qfloor maxAttempts) maxAttempts) w), error.
              rewrite O. split; reflexivity.
        -- specialize (IH (attempt + 1)%Z (Qmin (delayMs * backoffFactor) maxDelayMs)
                         (Token.asError error) (Token.emit (Token.Sleep delayMs) w')).
           cbv zeta in IH.
           destruct IH as (k & K & F & R); [lia | lia |].
           exists (S k). split; [lia|]. split.
           ++ rewrite F, retry_filter_emit, Qw. cbn [Token.isRetryEvent].
              rewrite <- !app_assoc. f_equal.
              destruct k as [|k]; [lia|]. reflexivity.
           ++ destruct (fst (Token.retryLoop _ _ _ _ _ _ _ _ _)) as [v|e]; [exact R|].
              destruct R as [-> R]. split; [reflexivity | exact R].
      * pose proof (@floor_above _ _ (proj1 (less_ge _ _) A)) as A'.
        assert (remaining = 0%nat) as -> by lia.
        assert (attempt = Qfloor maxAttempts) as -> by lia.
        cbn [Token.retryLoop fst snd].
        exists 1%nat. split; [lia|]. split.
        -- rewrite Qw, A. reflexivity.
        -- split; [reflexivity|].
           exists (Token.emit (Token.Attempt (Qfloor maxAttempts) maxAttempts) w), error.
           rewrite O. split; reflexivity.
Qed.

Lemma floor_of_at_least_one (m : Q) : (1 <= m)%Q -> (1 <= Qfloor m)%Z.
Proof.
  intros H. change 1%Z with (Qfloor (inject_Z 1)) at 1. apply Qfloor_resp_le. exact H.
Qed.

Lemma floor_of_less_than_one (m : Q) : (m < 1)%Q -> (Qfloor m <= 0)%Z.
Proof.
  intros H. assert (L : (Qfloor m < 1)%Z); [|lia].
  rewrite Zlt_Qlt. eapply Qle_lt_trans; [apply Qfloor_le | exact H].
Qed.

Lemma retryWithBackoff_schedule (Host T : Type)
    (operation : Token.M Host T) (options : Token.RetryOptions) (w : Token.World Host) :
  let maxAttempts := Token.orDefault (Token.maxAttempts options) 3 in
  let r := Token.retryWithBackoff operation options w in
  Token.Quiet operation ->
  (1 <= maxAttempts)%Q ->
  exists k : nat,
    (1 <= Z.of_nat k <= Qfloor maxAttempts)%Z
    /\ filter Token.isRetryEvent (Token.log (snd r))
       = (filter Token.isRetryEvent (Token.log w)
          ++ Token.backoffSchedule maxAttempts
               (Token.orDefault (Token.maxDelayMs options) 20000)
               (Token.orDefault (Token.backoffFactor options) 2)
               k 1 (Token.orDefault (Token.initialDelayMs options) 5000)
               (match fst r with
                | Ok _ => false
                | Throw _ => Token.less (inject_Z (Qfloor maxAttempts)) maxAttempts
                end))%list
    /\ match fst r with
       | Ok v => exists w0, fst (operation w0) = Ok v
       | Throw e =>
           Z.of_nat k = Qfloor maxAttempts
           /\ exists w0 e0, fst (operation w0) = Throw e0 /\ e = Token.asError e0
       end.
Proof.
  intros maxAttempts r Q M. subst r. unfold Token.retryWithBackoff.
  fold maxAttempts. pose proof (floor_of_at_least_one M) as F1.
  destruct (@retryLoop_schedule Host T operation maxAttempts
              (Token.orDefault (Token.maxDelayMs options) 20000)
              (Token.orDefault (Token.backoffFactor options) 2) Q
              (Z.to_nat (Qfloor maxAttempts)) 1%Z
              (Token.orDefault (Token.initialDelayMs options) 5000)
              (JsThrown "undefined") w) as (k & K & F & R); [lia | lia |].
  exists k. split; [lia|]. split; [exact F|].
  destruct (fst (Token.retryLoop _ _ _ _ _ _ _ _ _)) as [v|e]; [exact R|].
  destruct R as [-> R]. split; [lia | exact R].
Qed.


Lemma retry_without_attempts_is_silent (Host T : Type)
    (operation : Token.M Host T) (options : Token.RetryOptions) (w : Token.World Host) :
  (Token.orDefault (Token.maxAttempts options) 3 < 1)%Q ->
  Token.retryWithBackoff operation options w = (Throw (JsThrown "undefined"), w).
Proof.
  intros M. unfold Token.retryWithBackoff. apply floor_of_less_than_one in M.
  destruct (Z.to_nat (Qfloor (Token.orDefault (Token.maxAttempts options) 3))) eqn:E;
    [reflexivity|].
  lia.
Qed.

(** Without any attempt to make ([maxAttempts] below one)
    [retryWithBackoff] never calls the operation and rejects with
    [undefined], which is no [Error]. *)
Theorem retry_without_attempts_throws_undefined (Host T : Type)
    (operation : Token.M Host T) (options : Token.RetryOptions) (w : Token.World Host) :
  (Token.orDefault (Token.maxAttempts options) 3 < 1)%Q ->
  Token.retryWithBackoff operation options w = (Throw (JsThrown "undefined"), w).
Proof.
  intros M. apply retry_without_attempts_is_silent. exact M.
Qed.

Lemma getOidcToken_quiet (Host : Type) (getIDToken : string -> Host -> Result string * Host) :
  Token.Quiet (Token.getOidcToken getIDToken).
Proof.
  intros w. unfold Token.getOidcToken.
  destruct (getIDToken _ (Token.host w)) as [[t|e] h]; cbn [snd Token.log];
    rewrite filter_app; apply app_nil_r.
Qed.



Lemma retry_without_attempts_throws_undefined_witness :
  let never := {| Token.maxAttempts := Some (1 # 2)%Q; Token.initialDelayMs := None;
                  Token.maxDelayMs := None; Token.backoffFactor := None |} in
  let w := {| Token.host := {| Token.idTokens := [Ok "oidc"]; Token.exchanges := [] |};
              Token.log := [] |} in
  (Token.orDefault (Token.maxAttempts never) 3 < 1)%Q
  /\ Token.retryWithBackoff (Token.getOidcToken Token.scriptedIDToken) never w
     = (Throw (JsThrown "undefined"), w).
Proof.
  intros never w. split; [reflexivity|].
  apply (@retry_without_attempts_throws_undefined Token.Scripted string
           (Token.getOidcToken Token.scriptedIDToken) never w).
  reflexivity.
Defined.

Lemma sleeps_are_retry_events (events : list Token.Event) :
  filter Token.isSleep (filter Token.isRetryEvent events) = filter Token.isSleep events.
Proof.
  induction events as [|[] events IH]; simpl; rewrite ?IH; reflexivity.
Qed.

Lemma backoffSchedule_pauses (maxAttempts maxDelayMs backoffFactor : Q) (k : nat) :
  forall (attempt : Z) (delayMs : Q) (pauseAtEnd : bool),
  exists pauses,
    filter Token.isSleep
      (Token.backoffSchedule maxAttempts maxDelayMs backoffFactor k attempt delayMs
         pauseAtEnd)
    = map Token.Sleep pauses
    /\ match pauses with
       | [] => True
       | first :: later =>
           first = delayMs /\ Forall (fun d => (d <= maxDelayMs)%Q) later
       end.
Proof.
  induction k as [|k IH]; intros attempt delayMs pauseAtEnd.
  - exists []. split; [reflexivity | exact I].
  - cbn [Token.backoffSchedule]. destruct k as [|k].
    + destruct pauseAtEnd.
      * exists [delayMs]. split; [reflexivity|]. split; [reflexivity | constructor].
      * exists []. split; [reflexivity | exact I].
    + destruct (IH (attempt + 1)%Z (Qmin (delayMs * backoffFactor) maxDelayMs) pauseAtEnd)
        as (pauses & F & P).
      exists (delayMs :: pauses). split.
      * cbn [filter Token.isSleep map]. rewrite F. reflexivity.
      * split; [reflexivity|]. destruct pauses as [|first later]; [constructor|].
        destruct P as [-> P]. constructor; [apply Q.le_min_r | exact P].
Qed.

(** The pauses of [retryWithBackoff], in the order they are taken: the
    first one is [initialDelayMs], whatever the cap; every later one is
    at most [maxDelayMs]. *)
Theorem retry_pauses_are_capped (Host T : Type)
    (operation : Token.M Host T) (options : Token.RetryOptions) (w : Token.World Host) :
  Token.Quiet operation ->
  Token.Exact options ->
  exists pauses,
    filter Token.isSleep (Token.log (snd (Token.retryWithBackoff operation options w)))
    = (filter Token.isSleep (Token.log w) ++ map Token.Sleep pauses)%list
    /\ match pauses with
       | [] => True
       | first :: later =>
           first = Token.orDefault (Token.initialDelayMs options) 5000
           /\ Forall (fun d => (d <= Token.orDefault (Token.maxDelayMs options) 20000)%Q)
                later
       end.
Proof.
  intros Q _.
  destruct (Qlt_le_dec (Token.orDefault (Token.maxAttempts options) 3) 1) as [M | M].
  - rewrite retry_without_attempts_is_silent by exact M.
    exists []. split; [symmetry; apply app_nil_r | exact I].
  - destruct (@retryWithBackoff_schedule Host T operation options w Q M)
      as (k & _ & F & _).
    match type of F with
    | _ = (_ ++ Token.backoffSchedule ?m ?d ?f ?k ?a ?i ?e)%list =>
        destruct (@backoffSchedule_pauses m d f k a i e) as (pauses & S & P)
    end.
    exists pauses. split; [|exact P].
    rewrite <- sleeps_are_retry_events, F, filter_app, sleeps_are_retry_events, S.
    reflexivity.
Qed.

Lemma retry_pauses_are_capped_witness :
  let slow := {| Token.maxAttempts := None; Token.initialDelayMs := Some 50000%Q;
                 Token.maxDelayMs := None; Token.backoffFactor := None |} in
  let down := {| Token.idTokens := []; Token.exchanges := [] |} in
  let w := {| Token.host := down; Token.log := [] |} in
  let operation := Token.getOidcToken Token.scriptedIDToken in
  Token.Quiet operation
  /\ Token.Exact slow
  /\ filter Token.isSleep (Token.log (snd (Token.retryWithBackoff operation slow w)))
     = [Token.Sleep 50000; Token.Sleep 20000]
  /\ exists pauses,
       filter Token.isSleep (Token.log (snd (Token.retryWithBackoff operation slow w)))
       = map Token.Sleep pauses
       /\ match pauses with
          | [] => True
          | first :: later =>
              first = 50000%Q /\ Forall (fun d => (d <= 20000)%Q) later
          end.
Proof.
  intros slow down w operation.
  assert (E : Token.Exact slow).
  { unfold Token.Exact, Token.safeInteger. repeat split; try (cbn; lia).
    vm_compute. discriminate. }
  split; [apply getOidcToken_quiet|]. split; [exact E|]. split; [reflexivity|].
  apply (@retry_pauses_are_capped Token.Scripted string operation slow w).
  - apply getOidcToken_quiet.
  - exact E.
Defined.

(** ** [setupGitHubToken] *)

Lemma retry_three_times (Host T : Type) (operation : Token.M Host T) (w : Token.World Host) :
  Token.retryWithBackoff operation Token.noOptions w
  = match operation (Token.emit (Token.Attempt 1 3) w) with
    | (Ok v, w1) => (Ok v, w1)
    | (Throw _, w1) =>
        match operation (Token.emit (Token.Attempt 2 3)
                           (Token.emit (Token.Sleep 5000) w1)) with
        | (Ok v, w2) => (Ok v, w2)
        | (Throw _, w2) =>
            match operation (Token.emit (Token.Attempt 3 3)
                               (Token.emit (Token.Sleep 10000) w2)) with
            | (Ok v, w3) => (Ok v, w3)
            | (Throw e, w3) => (Throw (Token.asError e), w3)
            end
        end
    end.
Proof.
  unfold Token.retryWithBackoff. cbn [Token.noOptions Token.orDefault Token.maxAttempts
    Token.initialDelayMs Token.maxDelayMs Token.backoffFactor].
  change (Z.to_nat (Qfloor 3)) with 3%nat. cbn [Token.retryLoop].
  change (Token.less (inject_Z 1) 3) with true.
  change (Token.less (inject_Z (1 + 1)) 3) with true.
  change (Token.less (inject_Z (1 + 1 + 1)) 3) with false. cbv iota.
  change (1 + 1)%Z with 2%Z. change (2 + 1)%Z with 3%Z.
  change (Qmin (5000 * 2) 20000) with 10000%Q.
  destruct (operation _) as [[v|e1] w1]; [reflexivity|].
  destruct (operation _) as [[v|e2] w2]; [reflexivity|].
  destruct (operation _) as [[v|e3] w3]; reflexivity.
Qed.

Lemma readAppToken_not_empty (response : Response) (appToken : string) :
  Token.readAppToken response = Ok appToken -> appToken <> "".
Proof.
  unfold Token.readAppToken.
  destruct (negb (ok response)); [destruct (json response); discriminate|].
  destruct (json response) as [data|]; [|discriminate].
  destruct (JsValue.getProp (Some data) "token") as [token|]; [|discriminate].
  destruct (if Token.truthy token then _ else _) as [v|]; [|discriminate].
  destruct (negb (Token.truthy v)) eqn:V; [discriminate|].
  destruct v as [[]|]; try discriminate.
  intros [= ->] ->. discriminate.
Qed.


Lemma retry_three_times_log (Host T : Type) (operation : Token.M Host T)
    (ev : Token.Event) (w : Token.World Host) :
  Token.OneShot operation ev ->
  let r := Token.retryWithBackoff operation Token.noOptions w in
  exists k : nat,
    (k = 1 \/ k = 2 \/ k = 3)%nat
    /\ Token.log (snd r) = (Token.log w ++ Token.attempts ev k)%list
    /\ match fst r with
       | Ok v => exists w0, fst (operation w0) = Ok v
       | Throw e =>
           k = 3%nat /\ exists w0 e0, fst (operation w0) = Throw e0 /\ e = Token.asError e0
       end.
Proof.
  intros O r. subst r. rewrite retry_three_times.
  pose proof (O (Token.emit (Token.Attempt 1 3) w)) as L1.
  destruct (operation (Token.emit (Token.Attempt 1 3) w)) as [[v|e1] w1] eqn:O1;
    cbn [snd fst] in *.
  { exists 1%nat. split; [auto|]. split.
    - rewrite L1. cbn [Token.emit Token.log]. rewrite <- app_assoc. reflexivity.
    - eexists. rewrite O1. reflexivity. }
  pose proof (O (Token.emit (Token.Attempt 2 3) (Token.emit (Token.Sleep 5000) w1))) as L2.
  destruct (operation (Token.emit (Token.Attempt 2 3) _)) as [[v|e2] w2] eqn:O2;
    cbn [snd fst] in *.
  { exists 2%nat. split; [auto|]. split.
    - rewrite L2. cbn [Token.emit Token.log]. rewrite L1. cbn [Token.emit Token.log].
      rewrite <- !app_assoc. reflexivity.
    - eexists. rewrite O2. reflexivity. }
  pose proof (O (Token.emit (Token.Attempt 3 3) (Token.emit (Token.Sleep 10000) w2))) as L3.
  destruct (operation (Token.emit (Token.Attempt 3 3) _)) as [[v|e3] w3] eqn:O3;
    cbn [snd fst] in *; exists 3%nat; (split; [auto|]); (split;
      [rewrite L3; cbn [Token.emit Token.log]; rewrite L2; cbn [Token.emit Token.log];
       rewrite L1; cbn [Token.emit Token.log]; rewrite <- !app_assoc; reflexivity|]).
  - eexists. rewrite O3. reflexivity.
  - split; [reflexivity|]. eexists. eexists. rewrite O3. split; reflexivity.
Qed.

Lemma getOidcToken_one_shot (Host : Type)
    (getIDToken : string -> Host -> Result string * Host) :
  Token.OneShot (Token.getOidcToken getIDToken) (Token.GetIDToken Token.audience).
Proof.
  intros w. unfold Token.getOidcToken.
  destruct (getIDToken _ (Token.host w)) as [[t|e] h]; reflexivity.
Qed.

Lemma exchangeForAppToken_one_shot (Host : Type)
    (fetch : Request -> Host -> Result Response * Host) (oidcToken : string) :
  Token.OneShot (Token.exchangeForAppToken fetch oidcToken)
    (Token.Fetch (Token.exchangeRequest oidcToken)).
Proof.
  intros w. unfold Token.exchangeForAppToken.
  destruct (fetch _ (Token.host w)) as [[t|e] h]; reflexivity.
Qed.

Lemma getOidcToken_returns (Host : Type)
    (getIDToken : string -> Host -> Result string * Host) (w : Token.World Host)
    (oidcToken : string) :
  fst (Token.getOidcToken getIDToken w) = Ok oidcToken ->
  fst (getIDToken Token.audience (Token.host w)) = Ok oidcToken.
Proof.
  unfold Token.getOidcToken, Token.audience.
  destruct (getIDToken _ (Token.host w)) as [[t|e] h]; [auto | discriminate].
Qed.

Lemma exchangeForAppToken_returns (Host : Type)
    (fetch : Request -> Host -> Result Response * Host) (oidcToken : string)
    (w : Token.World Host) (appToken : string) :
  fst (Token.exchangeForAppToken fetch oidcToken w) = Ok appToken ->
  appToken <> "".
Proof.
  unfold Token.exchangeForAppToken.
  destruct (fetch _ (Token.host w)) as [[response|e] h]; [|discriminate].
  apply readAppToken_not_empty.
Qed.

(** The log of [setupGitHubToken] when no token is provided. *)
Lemma requestAppToken_log (Host : Type)
    (getIDToken : string -> Host -> Result string * Host)
    (fetch : Request -> Host -> Result Response * Host) (w : Token.World Host) :
  let r := Token.requestAppToken getIDToken fetch w in
  exists k1 : nat,
    (k1 = 1 \/ k1 = 2 \/ k1 = 3)%nat
    /\ ((exists cause,
           fst r = Token.Exited 1
           /\ Token.log (snd r)
              = (Token.log w ++ Token.attempts (Token.GetIDToken Token.audience) 3
                 ++ [Token.SetFailed cause; Token.Exit 1])%list)
        \/ exists (oidcToken : string) (k2 : nat),
             (k2 = 1 \/ k2 = 2 \/ k2 = 3)%nat
             /\ (exists h, fst (getIDToken Token.audience h) = Ok oidcToken)
             /\ ((exists appToken,
                    fst r = Token.Returned appToken
                    /\ appToken <> ""
                    /\ Token.log (snd r)
                       = (Token.log w ++ Token.attempts (Token.GetIDToken Token.audience) k1
                          ++ Token.attempts (Token.Fetch (Token.exchangeRequest oidcToken)) k2
                          ++ [Token.SetOutput "GITHUB_TOKEN" appToken])%list)
                 \/ (exists cause,
                       fst r = Token.Exited 1
                       /\ Token.log (snd r)
                          = (Token.log w ++ Token.attempts (Token.GetIDToken Token.audience) k1
                             ++ Token.attempts (Token.Fetch (Token.exchangeRequest oidcToken)) 3
                             ++ [Token.SetFailed cause; Token.Exit 1])%list))).
Proof.
  intros r. subst r. unfold Token.requestAppToken, Token.giveUp.
  destruct (retry_three_times_log w (getOidcToken_one_shot getIDToken))
    as (k1 & K1 & L1 & R1).
  destruct (Token.retryWithBackoff (Token.getOidcToken getIDToken) Token.noOptions w)
    as [[oidcToken|e1] w1]; cbn [fst snd] in *; exists k1; (split; [exact K1|]).
  - right.
    destruct (retry_three_times_log w1 (exchangeForAppToken_one_shot fetch oidcToken))
      as (k2 & K2 & L2 & R2).
    destruct R1 as [w0 R1]. apply getOidcToken_returns in R1.
    destruct (Token.retryWithBackoff (Token.exchangeForAppToken fetch oidcToken)
                Token.noOptions w1) as [[appToken|e2] w2]; cbn [fst snd] in *.
    + exists oidcToken, k2. split; [exact K2|]. split; [eauto|]. left.
      exists appToken. split; [reflexivity|]. split.
      * destruct R2 as [w0' R2]. eapply exchangeForAppToken_returns. exact R2.
      * cbn [Token.emit Token.log]. rewrite L2, L1, <- !app_assoc. reflexivity.
    + destruct R2 as [-> _].
      exists oidcToken, 3%nat. split; [auto|]. split; [eauto|]. right.
      exists e2. split; [reflexivity|].
      cbn [Token.emit Token.log]. rewrite L2, L1, <- !app_assoc. reflexivity.
  - left. destruct R1 as [-> _]. exists e1. split; [reflexivity|].
    cbn [Token.emit Token.log]. rewrite L1, <- !app_assoc. reflexivity.
Qed.

Ltac three k := destruct k as [-> | [-> | ->]].

(** [setupGitHubToken] ends in one of two ways.  It returns a token,
    which is then not empty and was published last, as the output
    GITHUB_TOKEN; or it reports the failure and the process exits with
    code 1.  Nothing is published before a failure, and no failure is
    reported before a token is returned. *)
Theorem setup_returns_a_token_or_exits (Host : Type)
    (getIDToken : string -> Host -> Result string * Host)
    (fetch : Request -> Host -> Result Response * Host)
    (OVERRIDE_GITHUB_TOKEN : option string) (w : Token.World Host) :
  let r := Token.setupGitHubToken getIDToken fetch OVERRIDE_GITHUB_TOKEN w in
  exists before,
    forallb (fun e => negb (Token.isSetOutput e || Token.isFailure e)) before = true
    /\ match fst r with
       | Token.Returned token =>
           token <> ""
           /\ Token.log (snd r)
              = (Token.log w ++ before ++ [Token.SetOutput "GITHUB_TOKEN" token])%list
       | Token.Exited code =>
           code = 1%Z
           /\ exists cause,
                Token.log (snd r)
                = (Token.log w ++ before ++ [Token.SetFailed cause; Token.Exit 1])%list
       end.
Proof.
  intros r. subst r. unfold Token.setupGitHubToken.
  destruct OVERRIDE_GITHUB_TOKEN as [t|]; [destruct (String.eqb t "") eqn:E|].
  2: { apply String.eqb_neq in E. exists []. split; [reflexivity|]. split; [exact E|].
       reflexivity. }
  all: clear; cbv iota; destruct (requestAppToken_log getIDToken fetch w)
         as (k1 & K1 & [(cause & X1 & X2)
                       | (oidcToken & k2 & K2 & _ & [(appToken & X1 & N & X2)
                                                     | (cause & X1 & X2)])]);
    rewrite X1, X2; clear X1 X2.
  all: try (exists (Token.attempts (Token.GetIDToken Token.audience) 3); split; [reflexivity|];
            split; [reflexivity|]; exists cause; reflexivity).
  all: try (exists (Token.attempts (Token.GetIDToken Token.audience) k1
                    ++ Token.attempts (Token.Fetch (Token.exchangeRequest oidcToken)) k2)%list;
            split; [three K1; three K2; reflexivity|]; split; [exact N|];
            rewrite <- app_assoc; reflexivity).
  all: exists (Token.attempts (Token.GetIDToken Token.audience) k1
               ++ Token.attempts (Token.Fetch (Token.exchangeRequest oidcToken)) 3)%list;
    (split; [three K1; reflexivity|]); (split; [reflexivity|]); exists cause;
    rewrite <- app_assoc; reflexivity.
Qed.

(** What [setupGitHubToken] costs at most: three requests for an OIDC
    token, three requests to the exchange service and thirty seconds of
    pauses.  Every request for an OIDC token comes before the first
    exchange.  Every request it makes is a [POST] without a body to the
    exchange endpoint of Anthropic, whose only header is the
    authorization, bearing a token that [core.getIDToken] returned. *)
Theorem setup_effort_is_bounded (Host : Type)
    (getIDToken : string -> Host -> Result string * Host)
    (fetch : Request -> Host -> Result Response * Host)
    (OVERRIDE_GITHUB_TOKEN : option string) (w : Token.World Host) :
  let r := Token.setupGitHubToken getIDToken fetch OVERRIDE_GITHUB_TOKEN w in
  exists first second,
    Token.log (snd r) = (Token.log w ++ first ++ second)%list
    /\ filter Token.isFetch first = []
    /\ filter Token.isGetIDToken second = []
    /\ (length (filter Token.isGetIDToken first) <= 3)%nat
    /\ (length (filter Token.isFetch second) <= 3)%nat
    /\ (Token.slept (first ++ second) <= 30000)%Q
    /\ (forall req, In (Token.Fetch req) second ->
          exists oidcToken h,
            fst (getIDToken "claude-code-github-action" h) = Ok oidcToken
            /\ url req = "https://api.anthropic.com/api/github/github-app-token-exchange"
            /\ method req = POST
            /\ headers req = [("Authorization", "Bearer " ++ oidcToken)]
            /\ body req = None).
Proof.
  intros r. subst r. unfold Token.setupGitHubToken.
  destruct OVERRIDE_GITHUB_TOKEN as [t|]; [destruct (String.eqb t "") eqn:E|].
  2: { exists [], [Token.SetOutput "GITHUB_TOKEN" t].
       repeat apply conj; try reflexivity; try (simpl; lia);
         try (vm_compute; discriminate).
       intros req [I | []]. discriminate. }
  all: clear; cbv iota; destruct (requestAppToken_log getIDToken fetch w)
         as (k1 & K1 & [(cause & X1 & X2)
                       | (oidcToken & k2 & K2 & (h & G) & [(appToken & X1 & N & X2)
                                                           | (cause & X1 & X2)])]);
    rewrite X2; clear X1 X2.
  1,4: exists (Token.attempts (Token.GetIDToken Token.audience) 3),
              [Token.SetFailed cause; Token.Exit 1];
       repeat apply conj; try reflexivity; try (simpl; lia);
         try (vm_compute; discriminate);
       intros req I; repeat (destruct I as [I | I]; try discriminate);
       contradiction.
  1,3: exists (Token.attempts (Token.GetIDToken Token.audience) k1),
              (Token.attempts (Token.Fetch (Token.exchangeRequest oidcToken)) k2
               ++ [Token.SetOutput "GITHUB_TOKEN" appToken])%list;
       three K1; three K2;
       repeat apply conj; try reflexivity; try (simpl; lia);
         try (vm_compute; discriminate);
       intros req I; repeat (destruct I as [I | I]; try discriminate);
       try contradiction; exists oidcToken, h; injection I as <-;
       (split; [exact G | repeat split]).
  all: exists (Token.attempts (Token.GetIDToken Token.audience) k1),
         (Token.attempts (Token.Fetch (Token.exchangeRequest oidcToken)) 3
          ++ [Token.SetFailed cause; Token.Exit 1])%list;
    three K1;
    repeat apply conj; try reflexivity; try (simpl; lia);
      try (vm_compute; discriminate);
    intros req I; repeat (destruct I as [I | I]; try discriminate);
    try contradiction; exists oidcToken, h; injection I as <-;
    (split; [exact G | repeat split]).
Qed.

(** A token provided in OVERRIDE_GITHUB_TOKEN is returned as it is and
    published, without a request for an OIDC token and without a
    request to the exchange service; an empty one counts as not
    provided. *)
Theorem setup_prefers_a_provided_token (Host : Type)
    (getIDToken : string -> Host -> Result string * Host)
    (fetch : Request -> Host -> Result Response * Host)
    (providedToken : string) (w : Token.World Host) :
  (providedToken <> "" ->
   Token.setupGitHubToken getIDToken fetch (Some providedToken) w
   = (Token.Returned providedToken,
      {| Token.host := Token.host w;
         Token.log := (Token.log w
                       ++ [Token.SetOutput "GITHUB_TOKEN" providedToken])%list |}))
  /\ Token.setupGitHubToken getIDToken fetch (Some "") w
     = Token.setupGitHubToken getIDToken fetch None w.
Proof.
  split; [|reflexivity].
  intros N. unfold Token.setupGitHubToken.
  apply String.eqb_neq in N. rewrite N. reflexivity.
Qed.

Lemma setup_prefers_a_provided_token_witness :
  let w := {| Token.host := {| Token.idTokens := []; Token.exchanges := [] |};
              Token.log := [] |} in
  "ghp_provided" <> ""
  /\ Token.setupGitHubToken Token.scriptedIDToken Token.scriptedFetch
       (Some "ghp_provided") w
     = (Token.Returned "ghp_provided",
        {| Token.host := Token.host w;
           Token.log := [Token.SetOutput "GITHUB_TOKEN" "ghp_provided"] |}).
Proof.
  intros w. split; [discriminate|].
  apply (proj1 (@setup_prefers_a_provided_token Token.Scripted Token.scriptedIDToken
                  Token.scriptedFetch "ghp_provided" w)).
  discriminate.
Defined.

(** ** [exchangeForAppToken] *)

(** Of an accepted exchange, [token] is the app token when it is a
    string that is not empty, whatever [app_token] holds; [app_token]
    is used when [token] is absent, null or empty; with neither the
    exchange fails with "App token not found in response". *)
Theorem exchange_prefers_token_to_app_token (Host : Type)
    (fetch : Request -> Host -> Result Response * Host) (oidcToken : string)
    (w : Token.World Host) (response : Response) (fields : list (string * Json)) :
  let token := JsValue.lookup "token" fields in
  let app_token := JsValue.lookup "app_token" fields in
  let result := fst (Token.exchangeForAppToken fetch oidcToken w) in
  fst (fetch (Token.exchangeRequest oidcToken) (Token.host w)) = Ok response ->
  ok response = true ->
  json response = Ok (JObj fields) ->
  (forall s, token = Some (JStr s) -> s <> "" -> result = Ok s)
  /\ (forall s, Token.truthy token = false -> app_token = Some (JStr s) -> s <> "" ->
        result = Ok s)
  /\ (Token.truthy token = false -> Token.truthy app_token = false ->
        result = Throw (JsError "App token not found in response")).
Proof.
  intros token app_token result F O J. subst result.
  unfold Token.exchangeForAppToken.
  destruct (fetch _ (Token.host w)) as [answer h]. cbn [fst] in F. subst answer.
  cbn [fst]. unfold Token.readAppToken. rewrite O, J. cbn [negb JsValue.getProp].
  fold token. fold app_token.
  repeat split.
  - intros s -> N. apply String.eqb_neq in N.
    do 3 (cbn [Token.truthy negb]; rewrite ?N). reflexivity.
  - intros s T -> N. rewrite T. apply String.eqb_neq in N.
    do 3 (cbn [Token.truthy negb]; rewrite ?N). reflexivity.
  - intros T A. rewrite T, A. reflexivity.
Qed.

Lemma exchange_prefers_token_to_app_token_witness :
  let both := JObj [("token", JStr "ghs_one"); ("app_token", JStr "ghs_two")] in
  let response := {| status := 200; text := Ok ""; json := Ok both |} in
  let w := {| Token.host := {| Token.idTokens := []; Token.exchanges := [Ok response] |};
              Token.log := [] |} in
  fst (Token.scriptedFetch (Token.exchangeRequest "oidc") (Token.host w)) = Ok response
  /\ ok response = true
  /\ fst (Token.exchangeForAppToken Token.scriptedFetch "oidc" w) = Ok "ghs_one".
Proof.
  intros both response w. split; [reflexivity|]. split; [reflexivity|].
  apply (proj1 (@exchange_prefers_token_to_app_token Token.Scripted Token.scriptedFetch
                  "oidc" w response _ eq_refl eq_refl eq_refl) "ghs_one" eq_refl).
  discriminate.
Defined.

(** A refused exchange fails with the message of the [error] object of
    the response, or with "Unknown error" when the response holds none:
    the status code is in neither.  When the body of the refusal is not
    JSON, the exchange fails with the parse error instead. *)
Theorem exchange_refusal_message (Host : Type)
    (fetch : Request -> Host -> Result Response * Host) (oidcToken : string)
    (w : Token.World Host) (response : Response) :
  let result := fst (Token.exchangeForAppToken fetch oidcToken w) in
  fst (fetch (Token.exchangeRequest oidcToken) (Token.host w)) = Ok response ->
  ok response = false ->
  (forall fields details message,
     json response = Ok (JObj fields) ->
     JsValue.lookup "error" fields = Some (JObj details) ->
     JsValue.lookup "message" details = Some (JStr message) ->
     result = Throw (JsError message))
  /\ (forall fields,
        json response = Ok (JObj fields) ->
        JsValue.lookup "error" fields = None ->
        result = Throw (JsError "Unknown error"))
  /\ (forall e, json response = Throw e -> result = Throw e).
Proof.
  intros result F O. subst result.
  unfold Token.exchangeForAppToken.
  destruct (fetch _ (Token.host w)) as [answer h]. cbn [fst] in F. subst answer.
  cbn [fst]. unfold Token.readAppToken. rewrite O. cbn [negb].
  repeat split.
  - intros fields details message -> E M. cbn [Token.optionalProp]. rewrite E.
    cbn [Token.optionalProp]. rewrite M. reflexivity.
  - intros fields -> E. cbn [Token.optionalProp]. rewrite E. reflexivity.
  - intros e ->. reflexivity.
Qed.

Lemma exchange_refusal_message_witness :
  let page := {| status := 502; text := Ok "<html>Bad Gateway</html>";
                 json := Throw (JsError "Unexpected token '<'") |} in
  let w := {| Token.host := {| Token.idTokens := []; Token.exchanges := [Ok page] |};
              Token.log := [] |} in
  fst (Token.scriptedFetch (Token.exchangeRequest "oidc") (Token.host w)) = Ok page
  /\ ok page = false
  /\ fst (Token.exchangeForAppToken Token.scriptedFetch "oidc" w)
     = Throw (JsError "Unexpected token '<'").
Proof.
  intros page w. split; [reflexivity|]. split; [reflexivity|].
  apply (proj2 (proj2 (@exchange_refusal_message Token.Scripted Token.scriptedFetch
                         "oidc" w page eq_refl eq_refl))).
  reflexivity.
Defined.
